(** * IKEA product scraper: a shallow embedding of [src/main.js]

    [src/main.js] holds three successive revisions of the actor, separated by
    a marker line.  The first revision (lines 1-733) is embedded in module
    [V1]: its strategies, [extractProductDetails], both branches of its
    request handler, its [failedRequestHandler] and a run of its crawler.
    The second revision (lines 734-1519) is embedded in module [V2]:
    [fetchWithRetry], [resolveSikSearch], its mappers,
    [extractProductsFromHtml], [extractProductDetails], [findNextPage],
    [fetchViaSik], the handlers of both crawlers, the phases of [main],
    and a run as a sequence of handler executions.  The third revision
    (lines 1520-2095), a variant without the internal API, is embedded in
    module [V3] where its text differs from the first revision.

    What the program obtains from the network, from cheerio, from the
    clock and from the [URL] class is input of the model: a page is given
    by what the selectors and patterns of the program find on it.
    Everything the program itself decides (mapping, claiming ids, budgets,
    retrying, enqueueing, merging) is a Rocq function over the run
    state. *)

From Stdlib Require Import ZArith String Ascii List DecimalString Floats Lia.
From stdpp Require Import base gmap strings list fin_maps.

#[local] Set Warnings "-register-all,-clear-no-such-hyp".
#[local] Open Scope Z_scope.

(** ** JavaScript values *)

(** Numbers are IEEE 754 doubles, as in JavaScript. *)
Inductive value :=
| VUndef
| VNull
| VBool (b : bool)
| VNum (n : float)
| VStr (s : string)
| VArr (l : list value)
| VObj (o : gmap string value).

(** A product record, a payload object, a [userData] object. *)
Abbreviation obj := (gmap string value).

(** What the program takes from the JavaScript platform. *)
Class Platform := {
  (** [new URL(href, base).href]; [None] when the constructor throws. *)
  url_href : string -> string -> option string;
  (** [String(n)] for a number [n]. *)
  number_to_string : float -> string;
  (** [s.toLowerCase().replace(/\s+/g, '-')]. *)
  lower_dashed : string -> string;
  (** [s.trim()]. *)
  trim : string -> string;
  (** [parseFloat(s.replace(/,/g, ''))]. *)
  parse_price : string -> float;
  (** [parseInt(s, 10)]. *)
  parse_int : string -> float;
  (** [new URL(u).searchParams.has(k)]. *)
  search_has : string -> string -> bool;
  (** [new URL(u).searchParams.get(k)]. *)
  search_get : string -> string -> option string;
  (** [url.toString()] after [url.searchParams.set(k, v)] on [new URL(u)]. *)
  search_set : string -> string -> string -> string;
}.

(** ToBoolean. *)
Definition truthy (v : value) : bool :=
  match v with
  | VUndef | VNull => false
  | VBool b => b
  | VNum n => negb (PrimFloat.eqb n 0%float || PrimFloat.is_nan n)
  | VStr s => negb (String.eqb s "")
  | VArr _ | VObj _ => true
  end.

(** [a || b]. *)
Definition jor (a b : value) : value := if truthy a then a else b.

(** [a ?? b]. *)
Definition jnullish (a b : value) : value :=
  match a with VUndef | VNull => b | _ => a end.

Infix "|||" := jor (at level 50, left associativity).
Infix "???" := jnullish (at level 50, left associativity).

(** [v === null || v === undefined]. *)
Definition is_nullish (v : value) : bool :=
  match v with VUndef | VNull => true | _ => false end.

(** [o.k] on an object. *)
Definition field (o : gmap string value) (k : string) : value :=
  default VUndef (o !! k).

(** [v?.k]: the fields read by the program are absent on primitives and
    arrays. *)
Definition get_opt (v : value) (k : string) : value :=
  match v with VObj o => field o k | _ => VUndef end.

(** [v.k]: [None] stands for the TypeError on [null] and [undefined]. *)
Definition get (v : value) (k : string) : option value :=
  match v with
  | VUndef | VNull => None
  | _ => Some (get_opt v k)
  end.

Section WithPlatform.
Context `{Platform}.

(** [l.join(sep)], given the conversion of an element to a string. *)
Definition join_with (to_string : value -> string) (sep : string)
  : list value -> string :=
  fix join (l : list value) : string :=
    match l with
    | [] => ""
    | [x] => if is_nullish x then "" else to_string x
    | x :: r => (if is_nullish x then "" else to_string x) +:+ sep +:+ join r
    end.

(** [String(v)]. *)
Fixpoint js_String (v : value) : string :=
  match v with
  | VUndef => "undefined"
  | VNull => "null"
  | VBool true => "true"
  | VBool false => "false"
  | VNum n => number_to_string n
  | VStr s => s
  | VArr l => join_with js_String "," l
  | VObj _ => "[object Object]"
  end.

(** [l.join(sep)]. *)
Definition js_join (sep : string) (l : list value) : string :=
  join_with js_String sep l.

(** [toAbs(href)] with the default base
    [https://www.ikea.com/${country}/${language}/]. *)
Definition toAbs (country language href : string) : option string :=
  url_href href ("https://www.ikea.com/" +:+ country +:+ "/" +:+ language +:+ "/").

End WithPlatform.

(** A nullable string as a value. *)
Definition of_opt_string (o : option string) : value :=
  match o with Some s => VStr s | None => VNull end.

(** ** The product-id pattern [/\/p\/[^/]+-(\d+)\/?/] *)

Definition is_digit (c : ascii) : bool :=
  let n := nat_of_ascii c in (48 <=? n)%nat && (n <=? 57)%nat.

Definition is_slash (c : ascii) : bool := Ascii.eqb c "/".
Definition is_dash (c : ascii) : bool := Ascii.eqb c "-".

(** The longest run of digits at the head of [s]: what [(\d+)] captures. *)
Fixpoint take_digits (s : string) : string :=
  match s with
  | String c r => if is_digit c then String c (take_digits r) else ""
  | EmptyString => ""
  end.

Definition starts_with_digit (s : string) : bool :=
  match s with String c _ => is_digit c | EmptyString => false end.

(** [seg] is what follows [/p/].  [[^/]+] is greedy: it stops at the last
    dash of the path segment that has a character before it and a digit
    after it.  [first] tells that no character of the segment has been
    consumed yet, [acc] is the capture at the last such dash so far. *)
Fixpoint scan_segment (first : bool) (seg : string) (acc : option string)
  : option string :=
  match seg with
  | EmptyString => acc
  | String c r =>
      if is_slash c then acc
      else
        scan_segment false r
          (if negb first && is_dash c && starts_with_digit r
           then Some (take_digits r) else acc)
  end.

Definition has_p_prefix (s : string) : bool :=
  match s with
  | String a (String b (String c _)) =>
      Ascii.eqb a "/" && Ascii.eqb b "p" && Ascii.eqb c "/"
  | _ => false
  end.

Definition after_p (s : string) : string :=
  match s with String _ (String _ (String _ r)) => r | _ => "" end.

(** [url.match(/\/p\/[^/]+-(\d+)\/?/)?.[1]]: the leftmost position where
    the pattern matches wins. *)
Fixpoint match_product_id (url : string) : option string :=
  match url with
  | EmptyString => None
  | String _ r =>
      match (if has_p_prefix url then scan_segment true (after_p url) None
             else None) with
      | Some d => Some d
      | None => match_product_id r
      end
  end.

(** [s.includes(needle)]. *)
Fixpoint includes (needle s : string) : bool :=
  String.prefix needle s ||
  match s with
  | EmptyString => false
  | String _ r => includes needle r
  end.

(** ** The seen-set *)

(** [if (seenProducts.has(id)) return null; seenProducts.add(id);] *)
Definition claim (id : string) (seen : gset string) : bool * gset string :=
  if decide (id ∈ seen) then (false, seen) else (true, {[id]} ∪ seen).

(** ** Run configuration and run state *)

(** The actor input after destructuring with its defaults.  [maxProducts]
    and [maxPages] hold [+maxProducts] and [+maxPages], integers as the
    input schema has them; [None] stands for a value that is not a finite
    number. *)
Record input := {
  startUrls : list string;
  country : string;
  language : string;
  category : string;
  maxProducts : option Z;
  maxPages : option Z;
  collectDetails : bool;
}.

(** [Number.MAX_SAFE_INTEGER]. *)
Definition MAX_SAFE_INTEGER : Z := 2 ^ 53 - 1.

(** [category || null]. *)
Definition category_or_null (cfg : input) : value := VStr (category cfg) ||| VNull.

Inductive label := LIST | DETAIL.

(** A request with its [userData]: [{ label, pageNo, baseData }]. *)
Record request := {
  url : string;
  lbl : label;
  pageNo : Z;
  baseData : option (gmap string value);
}.

(** The log lines that the properties below read. *)
Inductive log_entry :=
| ApiAttempt (page : Z)
    (* log.info(`Attempting IKEA internal API extraction for page ${page}...`) *)
| EmbeddedAttempt
    (* log.info('Attempting embedded JSON extraction from HTML...'),
       log.info('Attempting JSON-LD extraction from HTML...') *)
| DomExtraction
    (* log.info('Extracting products from HTML DOM...') *)
| RequestFailed (u : string)
    (* log.error(`Request ${request.url} failed ...`),
       log.error(`Detail request ${request.url} failed: ...`) *)
| SessionRetired.
    (* session.retire() *)

(** [saved], [seenProducts] and, of the collaborators, what the program
    hands to them: the records given to [Dataset.pushData], the requests
    given to [enqueueLinks] or pushed on [detailRequests], the log. *)
Record RunState := {
  saved : Z;
  seenProducts : gset string;
  dataset : list (gmap string value);
  requests : list request;
  log : list log_entry;
}.

Definition initial_state : RunState :=
  {| saved := 0; seenProducts := ∅; dataset := []; requests := []; log := [] |}.

(** ** Statements that read and write the run state and may throw *)

Inductive outcome (A : Type) :=
| Done (a : A)
| Thrown.
Arguments Done {A} a.
Arguments Thrown {A}.

Definition M (A : Type) : Type := RunState -> outcome A * RunState.

#[export] Instance M_ret : MRet M := λ A a st, (Done a, st).
#[export] Instance M_bind : MBind M := λ A B f m st,
  match m st with
  | (Done a, st') => f a st'
  | (Thrown, st') => (Thrown, st')
  end.

Definition throw {A} : M A := λ st, (Thrown, st).

(** The state a statement leaves, whether it returns or throws. *)
Definition after {A} (m : M A) (st : RunState) : RunState := (m st).2.

Definition read {A} (f : RunState -> A) : M A := λ st, (Done (f st), st).

(** The run state after one more line in the log, one more record in the
    dataset, one more saved product, one more request, and with another
    seen-set. *)
Definition add_log (e : log_entry) (st : RunState) : RunState :=
  {| saved := saved st; seenProducts := seenProducts st; dataset := dataset st;
     requests := requests st; log := log st ++ [e] |}.

Definition add_record (r : gmap string value) (st : RunState) : RunState :=
  {| saved := saved st; seenProducts := seenProducts st; dataset := dataset st ++ [r];
     requests := requests st; log := log st |}.

Definition add_saved (st : RunState) : RunState :=
  {| saved := saved st + 1; seenProducts := seenProducts st; dataset := dataset st;
     requests := requests st; log := log st |}.

Definition add_request (q : request) (st : RunState) : RunState :=
  {| saved := saved st; seenProducts := seenProducts st; dataset := dataset st;
     requests := requests st ++ [q]; log := log st |}.

Definition set_seen (seen : gset string) (st : RunState) : RunState :=
  {| saved := saved st; seenProducts := seen; dataset := dataset st;
     requests := requests st; log := log st |}.

Definition write_log (e : log_entry) : M unit := λ st, (Done tt, add_log e st).

(** [await Dataset.pushData(r)] *)
Definition pushData (r : gmap string value) : M unit := λ st, (Done tt, add_record r st).

(** [saved++] *)
Definition incr_saved : M unit := λ st, (Done tt, add_saved st).

(** [await enqueueLinks({ urls: [u], userData })], [detailRequests.push] *)
Definition enqueue (q : request) : M unit := λ st, (Done tt, add_request q st).

(** A function of the seen-set run as a statement. *)
Definition with_seen {A} (f : gset string -> outcome A * gset string) : M A := λ st,
  let '(r, seen') := f (seenProducts st) in (r, set_seen seen' st).

(** [for (const p of ps) { if (saved >= limit) break; const product =
    mapper(p); if (product) productsFound.push(product); }] *)
Fixpoint map_products (limit : Z) (mapper : value -> M (option (gmap string value)))
    (ps : list value) (found : list (gmap string value))
  : M (list (gmap string value)) :=
  match ps with
  | [] => mret found
  | p :: rest =>
      s ← read saved;
      if limit <=? s then mret found
      else
        r ← mapper p;
        map_products limit mapper rest
          (match r with Some x => found ++ [x] | None => found end)
  end.

(** ** What a fetched page looks like to the program *)

(** An attribute read with [.attr(name)]: [undefined] when absent. *)
Definition of_attr (o : option string) : value :=
  match o with Some s => VStr s | None => VUndef end.

(** [$elem.find(linkSel).first()]: its [href], and its [aria-label] after
    [.replace(/^New\s+/i, '').trim()].  An empty selection has neither. *)
Record anchor := {
  href : option string;
  aria_name : option string;
}.

(** [$elem.find(imgSel).first()] with the attributes read from it. *)
Record img := {
  src : option string;
  data_src : option string;
  data_lazy_src : option string;
}.

(** A product card of a listing page.  Numbers are what [parseFloat] and
    [parseInt] return on the capture of the revision's pattern over the
    card's text; [None] when the pattern does not match. *)
Record card := {
  card_links : list anchor;     (* one per entry of linkSelectors *)
  card_names : list string;     (* .text().trim() per entry of nameSelectors *)
  card_price : option float;
  card_images : list img;       (* one per entry of imageSelectors *)
  card_rating : option float;
  card_reviews : option float;
}.

(** [$(selector).first()] for a pagination selector. *)
Record nav := {
  nav_href : option string;
  nav_disabled : bool;  (* attr('disabled') || attr('aria-disabled') === 'true' *)
}.

(** A parsed listing page: for each entry of [possibleSelectors] the
    elements it selects, for each entry of [nextSelectors] the first
    element it selects ([None] for an empty selection). *)
Record document := {
  selections : list (list card);
  next_candidates : list (option nav);
}.

(** A [<script type="application/ld+json">] block after [JSON.parse]. *)
Inductive ld_block :=
| LdInvalid                        (* the parse throws, or gives null *)
| LdItemList (items : list value)  (* '@type' is 'ItemList', itemListElement is set *)
| LdProduct (data : value)         (* '@type' is or includes 'Product' *)
| LdOther.

(** The page text fetched by [tryEmbeddedJson]: for each state pattern the
    [JSON.parse] of its first match ([None] without a match or when the parse
    throws), the JSON-LD blocks in document order, and the document that
    [cheerio.load(html)] builds from it. *)
Record html_doc := {
  preloaded : list (option value);
  jsonld : list ld_block;
  html_dom : document;
}.

(** [Array.isArray(v) && v.length > 0] *)
Definition nonempty_array (v : value) : option (list value) :=
  match v with
  | VArr (x :: l) => Some (x :: l)
  | _ => None
  end.

(** [let productElements = []; for (const selector of possibleSelectors) {
    ... if (elements.length > 0) { productElements = elements; break; } }] *)
Fixpoint productElements (sels : list (list card)) : list card :=
  match sels with
  | [] => []
  | [] :: rest => productElements rest
  | elements :: _ => elements
  end.

(** The link loop of the card: the first anchor whose [href] is set and
    includes ['/p/']. *)
Fixpoint product_link (links : list anchor) : option (anchor * string) :=
  match links with
  | [] => None
  | a :: rest =>
      match href a with
      | Some h =>
          if truthy (VStr h) && includes "/p/" h then Some (a, h)
          else product_link rest
      | None => product_link rest
      end
  end.

(** The name loop of the card: the first non-empty text. *)
Fixpoint first_text (texts : list string) : option string :=
  match texts with
  | [] => None
  | t :: rest => if truthy (VStr t) then Some t else first_text rest
  end.

(** [name] after the selector loop and the [aria-label] fallback. *)
Definition card_name (c : card) (a : anchor) : value :=
  match first_text (card_names c) with
  | Some t => VStr t
  | None => of_attr (aria_name a)
  end.

(** [image = src || data-src || data-lazy-src] for one selector. *)
Definition img_value (i : img) : value :=
  of_attr (src i) ||| of_attr (data_src i) ||| of_attr (data_lazy_src i).

Definition usable_image (v : value) : bool :=
  match v with
  | VStr s => truthy v && negb (includes "spacer" s) && negb (includes "placeholder" s)
  | _ => false
  end.

(** The image loop of the card; [image] keeps the value of the last
    selector tried. *)
Fixpoint card_image (imgs : list img) (image : value) : value :=
  match imgs with
  | [] => image
  | i :: rest =>
      let image' := img_value i in
      if usable_image image' then image' else card_image rest image'
  end.

(** [m ? parseFloat(m[1]) : null] *)
Definition of_opt_num (o : option float) : value :=
  match o with Some n => VNum n | None => VNull end.

(** [productUrl] after the link loop of a card, with the anchor it comes
    from: [None] when the card is left with [if (!productUrl) continue]. *)
Definition card_url `{Platform} (cfg : input) (c : card) : option (anchor * string) :=
  match product_link (card_links c) with
  | None => None
  | Some (a, h) =>
      match toAbs (country cfg) (language cfg) h with
      | None => None
      | Some productUrl =>
          if truthy (VStr productUrl) then Some (a, productUrl) else None
      end
  end.

(** What the world answers while a LIST request is handled: the bodies
    returned by the API endpoints, the page text fetched by
    [tryEmbeddedJson] ([None] when that request fails), and [$], the
    document parsed by the crawler. *)
Record list_fetch := {
  api_responses : list (option value);
  embedded : option html_doc;
  page : option document;
}.

Definition is_empty {A} (l : list A) : bool :=
  match l with [] => true | _ => false end.

(** [pageNo + 1] as the crawler stores it in [userData]. *)
Definition list_request (u : string) (n : Z) : request :=
  {| url := u; lbl := LIST; pageNo := n; baseData := None |}.

(** [`${n}`] for an integer [n]. *)
Definition string_of_Z (n : Z) : string := NilZero.string_of_int (Z.to_int n).

(** [request.userData?.pageNo || 1] *)
Definition page_number (req : request) : Z :=
  if pageNo req =? 0 then 1 else pageNo req.

Definition detail_request (u : string) (product : gmap string value) : request :=
  {| url := u; lbl := DETAIL; pageNo := 1; baseData := Some product |}.

(** A product page as the selectors of the first revision's
    [extractProductDetails] see it: per list of selectors the trimmed
    text of the first element each one selects, the elements of the image
    and of the feature selectors in document order, and the numbers that
    [parseFloat] and [parseInt] return on what the patterns capture
    ([None] when a pattern does not match). *)
Record product_page := {
  page_names : list string;
  page_price : option float;          (* on the first non-empty price text *)
  page_descriptions : list string;
  page_measurements : list string;
  page_images : list (list img);
  page_ratings : list (option float);  (* one per entry of ratingSelectors *)
  page_reviews : list (option float);  (* one per entry of reviewSelectors *)
  page_features : list (list string);  (* $(li).text().trim() *)
  page_types : list string;
  page_availabilities : list string;
}.

(** What the world answers while a DETAIL request of the first revision
    is handled: [$] ([None] when a cheerio call of [extractProductDetails]
    throws) and the clock. *)
Record product_fetch := {
  fetched_page : option product_page;
  fetched_at : string;  (* new Date().toISOString() *)
}.

(** [$(img).attr('src') || $(img).attr('data-src')] *)
Definition detail_src (i : img) : value := of_attr (src i) ||| of_attr (data_src i).

(** The callback of [$(sel).each] in the image loop, over the elements
    selected: a source is pushed when it is set, names neither a spacer
    nor a placeholder and is not in [images] yet. *)
Fixpoint push_images (elements : list img) (images : list string) : list string :=
  match elements with
  | [] => images
  | i :: rest =>
      match detail_src i with
      | VStr s =>
          if truthy (VStr s) && negb (includes "spacer" s)
             && negb (includes "placeholder" s) && negb (bool_decide (s ∈ images))
          then push_images rest (images ++ [s])
          else push_images rest images
      | _ => push_images rest images
      end
  end.

(** [for (const sel of imageSelectors) { $(sel).each(...);
    if (images.length > 0) break; }] *)
Fixpoint collect_images (selected : list (list img)) (images : list string)
  : list string :=
  match selected with
  | [] => images
  | elements :: rest =>
      let images' := push_images elements images in
      if is_empty images' then collect_images rest images' else images'
  end.

(** The callback of [$(sel).each] in the feature loop:
    [if (text && !features.includes(text)) features.push(text)]. *)
Fixpoint push_features (texts : list string) (features : list string) : list string :=
  match texts with
  | [] => features
  | text :: rest =>
      if truthy (VStr text) && negb (bool_decide (text ∈ features))
      then push_features rest (features ++ [text])
      else push_features rest features
  end.

Fixpoint collect_features (selected : list (list string)) (features : list string)
  : list string :=
  match selected with
  | [] => features
  | texts :: rest =>
      let features' := push_features texts features in
      if is_empty features' then collect_features rest features' else features'
  end.

(** A loop that stops at the first selector whose text matches. *)
Fixpoint first_match {A} (matches : list (option A)) : option A :=
  match matches with
  | [] => None
  | Some x :: _ => Some x
  | None :: rest => first_match rest
  end.

(** ** First revision (lines 1-733) *)

Module V1.
Section Program.
Context `{Platform} (cfg : input).

Definition MAX_PRODUCTS : Z :=
  match maxProducts cfg with
  | Some n => Z.max 1 n
  | None => MAX_SAFE_INTEGER
  end.

Definition MAX_PAGES : Z :=
  match maxPages cfg with
  | Some n => Z.max 1 n
  | None => 999
  end.

(** The [url] of [processApiProduct]:
    [product.url || product.pipUrl ||
     toAbs(`/p/${product.name?.toLowerCase().replace(/\s+/g, '-')}-${productId}/`)].
    A [name] that is neither nullish nor a string has no [toLowerCase]:
    the call throws. *)
Definition api_url (product productId : value) : outcome value :=
  let given := get_opt product "url" ||| get_opt product "pipUrl" in
  if truthy given then Done given
  else
    match get_opt product "name" with
    | VUndef | VNull =>
        Done (of_opt_string (toAbs (country cfg) (language cfg)
                ("/p/undefined-" +:+ js_String productId +:+ "/")))
    | VStr n =>
        Done (of_opt_string (toAbs (country cfg) (language cfg)
                ("/p/" +:+ lower_dashed n +:+ "-" +:+ js_String productId +:+ "/")))
    | _ => Thrown
    end.

(** Lines 559-576. *)
Definition processApiProduct (product : value) (seen : gset string)
  : outcome (option (gmap string value)) * gset string :=
  match get product "id" with
  | None => (Thrown, seen)
  | Some id =>
      let productId := id ||| get_opt product "productId" ||| get_opt product "itemNo" in
      if negb (truthy productId) then (Done None, seen)
      else
        match claim (js_String productId) seen with
        | (false, seen') => (Done None, seen')
        | (true, seen') =>
            match api_url product productId with
            | Thrown => (Thrown, seen')
            | Done u =>
                (Done (Some (list_to_map [
                   ("productId", VStr (js_String productId));
                   ("name", get_opt product "name" ||| get_opt product "title"
                            ||| get_opt product "productName" ||| VNull);
                   ("price", get_opt (get_opt product "price") "value"
                             ||| get_opt product "priceNumeral"
                             ||| get_opt product "price" ||| VNull);
                   ("currency", get_opt (get_opt product "price") "currency"
                                ||| get_opt product "currencyCode" ||| VStr "GBP");
                   ("image", get_opt product "image" ||| get_opt product "mainImageUrl"
                             ||| get_opt product "imageUrl" ||| VNull);
                   ("url", u);
                   ("rating", get_opt product "rating" ||| get_opt product "averageRating"
                              ||| VNull);
                   ("reviewCount", get_opt product "reviewCount"
                                   ||| get_opt product "numberOfReviews" ||| VNull);
                   ("availability",
                      if truthy (get_opt product "availability"
                                 ||| get_opt product "availableForClickAndCollect")
                      then VStr "Available" else VStr "Check availability");
                   ("category", category_or_null cfg)
                 ])), seen')
            end
        end
  end.

(** One iteration of the card loop of [extractProductsFromHtml]
    (lines 218-338): [None] for [continue] and for a card that is not
    pushed. *)
Definition extract_card (c : card) (seen : gset string)
  : option (gmap string value) * gset string :=
  match card_url cfg c with
  | None => (None, seen)
  | Some (a, productUrl) =>
      match match_product_id productUrl with
      | None => (None, seen)
      | Some productId =>
          match claim productId seen with
          | (false, seen') => (None, seen')
          | (true, seen') =>
              let name := card_name c a in
              let price := of_opt_num (card_price c) in
              let product : gmap string value := list_to_map [
                ("productId", VStr productId);
                ("name", name);
                ("price", price);
                ("currency", if truthy price then VStr "GBP" else VNull);
                ("image", card_image (card_images c) VNull);
                ("url", VStr productUrl);
                ("rating", of_opt_num (card_rating c));
                ("reviewCount", of_opt_num (card_reviews c));
                ("availability", VStr "Available")
              ] in
              (if truthy name then Some product else None, seen')
          end
      end
  end.

Fixpoint extract_cards (cards : list card) (seen : gset string)
  : list (gmap string value) * gset string :=
  match cards with
  | [] => ([], seen)
  | c :: rest =>
      let '(r, seen') := extract_card c seen in
      let '(products, seen'') := extract_cards rest seen' in
      (match r with Some p => p :: products | None => products end, seen'')
  end.

(** Lines 188-341. *)
Definition extractProductsFromHtml (doc : document) : M (list (gmap string value)) :=
  write_log DomExtraction;;
  with_seen (λ seen,
    let '(products, seen') := extract_cards (productElements (selections doc)) seen in
    (Done products, seen')).

(** The key paths tried on an API body (lines 95-100). *)
Definition api_products (data : value) : value :=
  get_opt (get_opt data "productWindow") "products"
  ||| get_opt data "products"
  ||| get_opt (get_opt data "searchResultPage") "products"
  ||| get_opt data "productList"
  ||| get_opt (get_opt data "data") "products"
  ||| get_opt data "results".

(** The endpoint loop: [responses] holds, for the endpoints in order, the
    body of the response, [None] when the request fails. *)
Fixpoint first_api_products (responses : list (option value)) : option (list value) :=
  match responses with
  | [] => None
  | r :: rest =>
      match r ≫= (λ data, nonempty_array (api_products data)) with
      | Some products => Some products
      | None => first_api_products rest
      end
  end.

(** Lines 58-114. *)
Definition tryInternalApi (page : Z) (responses : list (option value))
  : M (option (list value)) :=
  write_log (ApiAttempt page);;
  mret (first_api_products responses).

(** The key paths tried on a preloaded state (lines 145-148). *)
Definition state_products (jsonData : value) : value :=
  get_opt (get_opt jsonData "productListing") "products"
  ||| get_opt jsonData "products"
  ||| get_opt (get_opt (get_opt (get_opt jsonData "props") "pageProps") "productList") "products"
  ||| get_opt (get_opt (get_opt jsonData "props") "pageProps") "products".

Fixpoint first_state_products (states : list (option value)) : option (list value) :=
  match states with
  | [] => None
  | s :: rest =>
      match s ≫= (λ jsonData, nonempty_array (state_products jsonData)) with
      | Some products => Some products
      | None => first_state_products rest
      end
  end.

(** Only an [ItemList] is returned in this revision. *)
Fixpoint first_item_list (blocks : list ld_block) : option (list value) :=
  match blocks with
  | [] => None
  | LdItemList items :: _ => Some items
  | _ :: rest => first_item_list rest
  end.

(** Lines 117-184: [{ products, html }]; [fetched] is [None] when the
    request fails. *)
Definition embedded_result (fetched : option html_doc)
  : option (list value) * option html_doc :=
  match fetched with
  | None => (None, None)
  | Some page =>
      match first_state_products (preloaded page) with
      | Some products => (Some products, Some page)
      | None => (first_item_list (jsonld page), Some page)
      end
  end.

Definition tryEmbeddedJson (fetched : option html_doc)
  : M (option (list value) * option html_doc) :=
  write_log EmbeddedAttempt;;
  mret (embedded_result fetched).

(** The selector loop of [findNextPage]. *)
Fixpoint next_link (cands : list (option nav)) : option string :=
  match cands with
  | [] => None
  | Some n :: rest =>
      match nav_href n with
      | Some h => if truthy (VStr h) then Some h else next_link rest
      | None => next_link rest
      end
  | None :: rest => next_link rest
  end.

(** Lines 529-556. *)
Definition findNextPage (doc : document) (currentUrl : string) : option string :=
  match next_link (next_candidates doc) with
  | Some h => url_href h currentUrl
  | None => None
  end.

Definition processApiProduct_st (product : value) : M (option (gmap string value)) :=
  with_seen (processApiProduct product).

(** The loop over [productsFound] (lines 650-663).  [enqueueLinks] takes
    URL strings; a [url] that is truthy but not a string is refused. *)
Fixpoint save_products (found : list (gmap string value)) : M unit :=
  match found with
  | [] => mret tt
  | product :: rest =>
      s ← read saved;
      if MAX_PRODUCTS <=? s then mret tt
      else
        (if collectDetails cfg && truthy (field product "url") then
           match field product "url" with
           | VStr u => enqueue (detail_request u product)
           | _ => throw
           end
         else
           pushData (<["category" := category_or_null cfg]> product);;
           incr_saved);;
        save_products rest
  end.

(** Priority 1 (lines 606-615): the records mapped from the API products. *)
Definition api_stage (pageNo : Z) (w : list_fetch) : M (list (gmap string value)) :=
  apiProducts ← tryInternalApi pageNo (api_responses w);
  match apiProducts with
  | Some (p :: ps) => map_products MAX_PRODUCTS processApiProduct_st (p :: ps) []
  | _ => mret []
  end.

(** Priorities 2 and 3 (lines 619-636), entered with an empty
    [productsFound]. *)
Definition embedded_stage (w : list_fetch) : M (list (gmap string value)) :=
  '(jsonProducts, html) ← tryEmbeddedJson (embedded w);
  match jsonProducts with
  | Some (p :: ps) => map_products MAX_PRODUCTS processApiProduct_st (p :: ps) []
  | _ =>
      match html with
      | Some fetched => extractProductsFromHtml (html_dom fetched)
      | None => mret []
      end
  end.

(** [productsFound] when the product loop is reached (lines 604-643). *)
Definition productsFound (pageNo : Z) (w : list_fetch) : M (list (gmap string value)) :=
  found ← api_stage pageNo w;
  found ← (if is_empty found then embedded_stage w else mret found);
  if is_empty found then
    match page w with
    | Some doc => extractProductsFromHtml doc
    | None => mret found
    end
  else mret found.

(** The LIST branch of [requestHandler] (lines 603-680). *)
Definition requestHandler_LIST (req : request) (w : list_fetch) : M unit :=
  let pageNo := page_number req in
  found ← productsFound pageNo w;
  save_products found;;
  s ← read saved;
  if (s <? MAX_PRODUCTS) && (pageNo <? MAX_PAGES) && negb (is_empty found) then
    match page w with
    | None => throw
    | Some doc =>
        match findNextPage doc (url req) with
        | Some nextUrl =>
            if truthy (VStr nextUrl) then enqueue (list_request nextUrl (pageNo + 1))
            else mret tt
        | None => mret tt
        end
    end
  else mret tt.

(** Lines 706-708. *)
Definition failedRequestHandler (req : request) : M unit :=
  write_log (RequestFailed (url req)).


(** The description loop of [extractProductDetails]:
    [text && text.length > 20]. *)
Fixpoint first_longer_than (n : nat) (texts : list string) : option string :=
  match texts with
  | [] => None
  | t :: rest =>
      if truthy (VStr t) && (n <? String.length t)%nat then Some t
      else first_longer_than n rest
  end.

(** [data.k = v] when [o] is set. *)
Definition set_if_found (k : string) (o : option string)
    (data : gmap string value) : gmap string value :=
  match o with Some t => <[k := VStr t]> data | None => data end.

Definition set_number_if_found (k : string) (o : option float)
    (data : gmap string value) : gmap string value :=
  match o with Some n => <[k := VNum n]> data | None => data end.

(** [xs.length ? xs : null] *)
Definition array_or_null (xs : list string) : value :=
  if is_empty xs then VNull else VArr (VStr <$> xs).

(** Lines 345-525: [None] is the [null] returned by the [catch]. *)
Definition extractProductDetails (u : string) (fetched : option product_page)
  : option (gmap string value) :=
  match fetched with
  | None => None
  | Some d =>
      let data : gmap string value := ∅ in
      let data := set_if_found "name" (first_text (page_names d)) data in
      let data := <["productId" := of_opt_string (match_product_id u) ||| VNull]> data in
      let data := <["price" := of_opt_num (page_price d)]> data in
      let data :=
        <["currency" := if truthy (field data "price") then VStr "GBP" else VNull]> data in
      let data :=
        set_if_found "description" (first_longer_than 20 (page_descriptions d)) data in
      let data := set_if_found "measurements" (first_text (page_measurements d)) data in
      let data := <["images" := array_or_null (collect_images (page_images d) [])]> data in
      let data := set_number_if_found "rating" (first_match (page_ratings d)) data in
      let data := set_number_if_found "reviewCount" (first_match (page_reviews d)) data in
      let data :=
        <["features" := array_or_null (collect_features (page_features d) [])]> data in
      let data := set_if_found "type" (first_text (page_types d)) data in
      let data := set_if_found "availability" (first_text (page_availabilities d)) data in
      let data :=
        if truthy (field data "availability") then data
        else <["availability" := VStr "Check availability"]> data in
      Some data
  end.

(** [{ ...baseData, ...details }] *)
Definition spread (baseData : gmap string value) (details : option (gmap string value))
  : gmap string value :=
  match details with
  | Some d => d ∪ baseData
  | None => baseData
  end.

(** [finalProduct] of the DETAIL branch (lines 689-695). *)
Definition finalProduct (req : request) (w : product_fetch) : gmap string value :=
  let baseData := default ∅ (baseData req) in
  let details := extractProductDetails (url req) (fetched_page w) in
  <["scrapedAt" := VStr (fetched_at w)]>
    (<["category" := category_or_null cfg]>
       (<["url" := VStr (url req)]> (spread baseData details))).

(** The DETAIL branch of [requestHandler] (lines 682-703). *)
Definition requestHandler_DETAIL (req : request) (w : product_fetch) : M unit :=
  s ← read saved;
  if MAX_PRODUCTS <=? s then mret tt
  else pushData (finalProduct req w);; incr_saved.

(** Lines 597-704. *)
Definition requestHandler (req : request) (wl : list_fetch) (wd : product_fetch)
  : M unit :=
  match lbl req with
  | LIST => requestHandler_LIST req wl
  | DETAIL => requestHandler_DETAIL req wd
  end.

(** [initial] (lines 32-34). *)
Definition initial : list string :=
  if is_empty (startUrls cfg) then
    ["https://www.ikea.com/" +:+ country cfg +:+ "/" +:+ language cfg
     +:+ "/new/" +:+ category cfg +:+ "/"]
  else startUrls cfg.

(** What happens during a run of the crawler (line 712), one handler
    after the other: it hands a start URL or the [i]-th request enqueued
    so far to [requestHandler], or reports it as failed.  An exception
    that leaves a handler is caught by the crawler. *)
Inductive event :=
| Start (i : nat) (w : list_fetch)
| Queued (i : nat) (wl : list_fetch) (wd : product_fetch)
| GaveUp (i : nat).

(** [None] when the event names a request that does not exist. *)
Definition exec_event (ev : event) (st : RunState) : option RunState :=
  match ev with
  | Start i w =>
      u ← initial !! i;
      Some (after (requestHandler_LIST (list_request u 1) w) st)
  | Queued i wl wd =>
      q ← requests st !! i;
      Some (after (requestHandler q wl wd) st)
  | GaveUp i =>
      q ← requests st !! i;
      Some (after (failedRequestHandler q) st)
  end.

Fixpoint run (events : list event) (st : RunState) : option RunState :=
  match events with
  | [] => Some st
  | ev :: rest => exec_event ev st ≫= run rest
  end.

End Program.
End V1.

(** What a fetched product page shows to [extractProductDetails]: the
    texts, the arrays built by its loops, and the numbers and strings its
    patterns capture in the body text ([None] when a pattern does not
    match). *)
Record detail_doc := {
  detail_names : list string;         (* .text().trim() per entry of nameSelectors *)
  detail_price : option float;
  detail_descriptions : list string;  (* .text().trim() per entry of descSelectors *)
  detail_measurements : option string;
  detail_images : list string;        (* images after the selector loop *)
  detail_rating : option float;
  detail_reviews : option float;
  detail_features : list string;      (* cleanedFeatures *)
  detail_type : option string;
  detail_availability : option string;
}.

(** What the world answers while a DETAIL request is handled: [$]
    ([None] when a cheerio call of [extractProductDetails] throws) and the
    clock. *)
Record detail_fetch := {
  detail_page : option detail_doc;
  now : string;  (* new Date().toISOString() *)
}.

(** ** Second revision (lines 734-1519) *)

Module V2.

(** [SPECIAL_CATEGORY_MAP] (lines 739-748). *)
Definition SPECIAL_CATEGORY_MAP : gmap string string :=
  list_to_map [
    ("new-products", "new_product");
    ("family-offers", "family_price");
    ("lower-price", "new_lower_price");
    ("last-chance", "last_chance");
    ("lowest-price", "breath_taking");
    ("limited-time-offers", "time_restricted");
    ("best-sellers", "top_seller");
    ("limited-edition", "limited_edition")
  ].

(** The names that an object literal inherits from [Object.prototype]: a
    lookup of one of them gives a function or an object, not [undefined]. *)
Definition Object_prototype : list string :=
  ["constructor"; "hasOwnProperty"; "isPrototypeOf"; "propertyIsEnumerable";
   "toLocaleString"; "toString"; "valueOf"; "__proto__";
   "__defineGetter__"; "__defineSetter__"; "__lookupGetter__"; "__lookupSetter__"].

(** [SPECIAL_CATEGORY_MAP[k]]; an inherited member stands as an object
    without keys. *)
Definition special_category (k : string) : value :=
  match SPECIAL_CATEGORY_MAP !! k with
  | Some special => VStr special
  | None => if bool_decide (k ∈ Object_prototype) then VObj ∅ else VUndef
  end.

(** An error thrown in the [try] block of [fetchWithRetry], with what
    [err.response?.statusCode] evaluates to. *)
Record failure := {
  statusCode : value;
  message : string;
}.

(** What one pass through the [try] block comes to. *)
Inductive attempt (A : Type) :=
| Responded (response : A)
| Failed (err : failure).
Arguments Responded {A} response.
Arguments Failed {A} err.

(** What [fetchWithRetry] does besides returning or throwing. *)
Inductive retry_step :=
| Attempted (i : Z)               (* the try block of iteration i *)
| Warned (i : Z) (err : failure)  (* log.warning(`Attempt ${i}/${attempts} failed ...`) *)
| Slept (i : Z).                  (* await sleep(500 * i + Math.random() * 500) *)

(** [status === 590 || status === 502 || status === 504 || status === 429] *)
Definition retriable (status : value) : bool :=
  match status with
  | VNum n =>
      PrimFloat.eqb n 590 || PrimFloat.eqb n 502 || PrimFloat.eqb n 504
      || PrimFloat.eqb n 429
  | _ => false
  end.

(** The response returned, or the [lastErr] thrown ([None] is
    [undefined], its value before any failure). *)
Inductive fetched (A : Type) :=
| Response (response : A)
| Threw (lastErr : option failure).
Arguments Response {A} response.
Arguments Threw {A} lastErr.

(** The [for] loop of [fetchWithRetry] from iteration [i] on (lines
    772-788); [gotScraping i] is what the [try] block of iteration [i]
    comes to, [fuel] counts the iterations that [i <= attempts] still
    allows. *)
Fixpoint fetchWithRetry_loop {A} (fuel : nat) (gotScraping : Z -> attempt A)
    (attempts i : Z) (lastErr : option failure) : fetched A * list retry_step :=
  match fuel with
  | O => (Threw lastErr, [])
  | S fuel' =>
      if i <=? attempts then
        match gotScraping i with
        | Responded response => (Response response, [Attempted i])
        | Failed err =>
            if (i =? attempts) || negb (retriable (statusCode err)) then
              (Threw (Some err), [Attempted i; Warned i err])
            else
              let '(r, steps) :=
                fetchWithRetry_loop fuel' gotScraping attempts (i + 1) (Some err) in
              (r, Attempted i :: Warned i err :: Slept i :: steps)
        end
      else (Threw lastErr, [])
  end.

(** Lines 770-789. *)
Definition fetchWithRetry {A} (gotScraping : Z -> attempt A) (attempts : Z)
  : fetched A * list retry_step :=
  fetchWithRetry_loop (Z.to_nat attempts) gotScraping attempts 1 None.

(** The iterations of a trace. *)
Definition attempts_made (steps : list retry_step) : list Z :=
  omap (λ s, match s with Attempted i => Some i | _ => None end) steps.

(** The sleeps of a trace. *)
Definition sleeps (steps : list retry_step) : list Z :=
  omap (λ s, match s with Slept i => Some i | _ => None end) steps.

Section Program.
Context `{Platform} (cfg : input).

Definition MAX_PRODUCTS : Z :=
  match maxProducts cfg with
  | Some n => if 0 <? n then Z.max 1 n else MAX_SAFE_INTEGER
  | None => MAX_SAFE_INTEGER
  end.

Definition MAX_PAGES : Z :=
  match maxPages cfg with
  | Some n => Z.max 1 n
  | None => 999
  end.

Definition DEFAULT_PAGE_SIZE : Z := 48.
Definition MAX_API_WINDOW : Z := 480.

(** [product.allProductImage?.find((img) => img.url)?.url]: [find] reads
    [url] on every element up to the first hit and throws on a nullish
    element; only arrays have [find]. *)
Fixpoint find_image_url (imgs : list value) : outcome value :=
  match imgs with
  | [] => Done VUndef
  | i :: rest =>
      match get i "url" with
      | None => Thrown
      | Some u => if truthy u then Done u else find_image_url rest
      end
  end.

Definition sik_image (product : value) : outcome value :=
  let main := get_opt product "mainImageUrl" in
  if truthy main then Done main
  else
    match get_opt product "allProductImage" with
    | VUndef | VNull => Done VNull
    | VArr imgs =>
        match find_image_url imgs with
        | Done u => Done (u ||| VNull)
        | Thrown => Thrown
        end
    | _ => Thrown
    end.

(** Lines 873-904. *)
Definition mapSikProduct (product : value) (seen : gset string)
  : outcome (option (gmap string value)) * gset string :=
  let productId :=
    trim (js_String (get_opt product "itemNo" ||| get_opt product "itemNoGlobal"
                     ||| get_opt product "id" ||| get_opt product "productNumber"
                     ||| VStr "")) in
  if negb (truthy (VStr productId)) then (Done None, seen)
  else
    match claim productId seen with
    | (false, seen') => (Done None, seen')
    | (true, seen') =>
        let nameParts :=
          filter (λ v, truthy v = true) [get_opt product "name"; get_opt product "typeName"] in
        let name :=
          if is_empty nameParts then get_opt product "name"
          else VStr (trim (js_join " " nameParts)) in
        let price :=
          get_opt (get_opt product "salesPrice") "numeral"
          ??? get_opt product "priceNumeral" ??? VNull in
        let currency :=
          get_opt (get_opt product "salesPrice") "currencyCode"
          ||| get_opt product "currencyCode" ||| VNull in
        let availabilityText :=
          match get_opt product "availability" with
          | VArr (x :: l) => VStr (js_join ", " (x :: l))
          | _ => VStr "Check availability"
          end in
        match sik_image product with
        | Thrown => (Thrown, seen')
        | Done image =>
            (Done (Some (list_to_map [
               ("productId", VStr productId);
               ("name", name ||| get_opt product "productName" ||| VNull);
               ("price", price);
               ("currency", currency);
               ("image", image);
               ("url", if truthy (get_opt product "pipUrl")
                       then of_opt_string (toAbs (country cfg) (language cfg)
                                             (js_String (get_opt product "pipUrl")))
                       else VNull);
               ("rating", get_opt product "ratingValue"
                          ??? get_opt product "averageRating" ??? VNull);
               ("reviewCount", get_opt product "ratingCount"
                               ??? get_opt product "numberOfReviews" ??? VNull);
               ("availability", availabilityText);
               ("category", category_or_null cfg)
             ])), seen')
        end
    end.

(** Lines 1220-1240. *)
Definition processJsonLdProduct (product : value) (seen : gset string)
  : outcome (option (gmap string value)) * gset string :=
  match get product "id" with
  | None => (Thrown, seen)
  | Some id =>
      let item := get_opt product "item" in
      let productId :=
        id ||| get_opt product "productId" ||| get_opt item "sku"
        ||| get_opt item "productID" in
      if negb (truthy productId) then (Done None, seen)
      else
        match claim (js_String productId) seen with
        | (false, seen') => (Done None, seen')
        | (true, seen') =>
            let offers := get_opt product "offers" in
            let price := get_opt offers "price" ||| get_opt product "price" in
            let currency := get_opt offers "priceCurrency" ||| get_opt product "currency" in
            let rating := get_opt product "aggregateRating" in
            (Done (Some (list_to_map [
               ("productId", VStr (js_String productId));
               ("name", get_opt product "name" ||| get_opt item "name" ||| VNull);
               ("price", if truthy price then VNum (parse_price (js_String price))
                         else VNull);
               ("currency", currency ||| VNull);
               ("image", match get_opt product "image" with
                         | VArr l => default VUndef (head l)
                         | image => image
                         end);
               ("url", if truthy (get_opt product "url")
                       then of_opt_string (toAbs (country cfg) (language cfg)
                                             (js_String (get_opt product "url")))
                       else VNull);
               ("rating", get_opt rating "ratingValue" ||| VNull);
               ("reviewCount", get_opt rating "reviewCount" ||| VNull);
               ("availability", get_opt offers "availability"
                                ||| VStr "Check availability");
               ("category", category_or_null cfg)
             ])), seen')
        end
  end.

(** One iteration of the card loop of [extractProductsFromHtml]
    (lines 975-1069): [None] for [continue] and for a card that is not
    pushed. *)
Definition extract_card (c : card) (seen : gset string)
  : option (gmap string value) * gset string :=
  match card_url cfg c with
  | None => (None, seen)
  | Some (a, productUrl) =>
      match match_product_id productUrl with
      | None => (None, seen)
      | Some productId =>
          match claim productId seen with
          | (false, seen') => (None, seen')
          | (true, seen') =>
              let name := card_name c a in
              let price := of_opt_num (card_price c) in
              let product : gmap string value := list_to_map [
                ("productId", VStr productId);
                ("name", name);
                ("price", price);
                ("currency", VNull);
                ("image", card_image (card_images c) VNull);
                ("url", VStr productUrl);
                ("rating", of_opt_num (card_rating c));
                ("reviewCount", of_opt_num (card_reviews c));
                ("availability", VStr "Available")
              ] in
              (if truthy name && truthy price then Some product else None, seen')
          end
      end
  end.

Fixpoint extract_cards (cards : list card) (seen : gset string)
  : list (gmap string value) * gset string :=
  match cards with
  | [] => ([], seen)
  | c :: rest =>
      let '(r, seen') := extract_card c seen in
      let '(products, seen'') := extract_cards rest seen' in
      (match r with Some p => p :: products | None => products end, seen'')
  end.

(** Lines 947-1072. *)
Definition extractProductsFromHtml (doc : document) : M (list (gmap string value)) :=
  write_log DomExtraction;;
  with_seen (λ seen,
    let '(products, seen') := extract_cards (productElements (selections doc)) seen in
    (Done products, seen')).

(** The name loop of [extractProductDetails]: [text && text.length > 3]. *)
Fixpoint first_longer_than (n : nat) (texts : list string) : option string :=
  match texts with
  | [] => None
  | t :: rest =>
      if truthy (VStr t) && (n <? String.length t)%nat then Some t
      else first_longer_than n rest
  end.

(** [data.k = v] when [o] is set. *)
Definition set_if_found (k : string) (o : option string)
    (data : gmap string value) : gmap string value :=
  match o with Some t => <[k := VStr t]> data | None => data end.

(** [xs.length ? xs : null] *)
Definition array_or_null (xs : list string) : value :=
  if is_empty xs then VNull else VArr (VStr <$> xs).

(** Lines 1074-1175: [None] is the [null] returned by the [catch]. *)
Definition extractProductDetails (u : string) (page : option detail_doc)
  : option (gmap string value) :=
  match page with
  | None => None
  | Some d =>
      let data : gmap string value := ∅ in
      let data := set_if_found "name" (first_longer_than 3 (detail_names d)) data in
      let data := <["productId" := of_opt_string (match_product_id u) ||| VNull]> data in
      let data := <["price" := of_opt_num (detail_price d)]> data in
      let data :=
        set_if_found "description" (first_longer_than 20 (detail_descriptions d)) data in
      let data := set_if_found "measurements" (detail_measurements d) data in
      let data := <["images" := array_or_null (detail_images d)]> data in
      let data := <["rating" := of_opt_num (detail_rating d)]> data in
      let data := <["reviewCount" := of_opt_num (detail_reviews d)]> data in
      let data := <["features" := array_or_null (detail_features d)]> data in
      let data := set_if_found "type" (detail_type d) data in
      let data :=
        <["availability" := VStr (default "Check availability" (detail_availability d))]>
          data in
      Some data
  end.

(** [{ ...baseData, ...details }]: a key of [details] wins over the same
    key of [baseData], whatever its value; [...null] adds nothing. *)
Definition spread (baseData : gmap string value) (details : option (gmap string value))
  : gmap string value :=
  match details with
  | Some d => d ∪ baseData
  | None => baseData
  end.

(** [finalProduct] of the DETAIL branch (lines 1450-1456). *)
Definition finalProduct (req : request) (w : detail_fetch) : gmap string value :=
  let baseData := default ∅ (baseData req) in
  let details := extractProductDetails (url req) (detail_page w) in
  <["scrapedAt" := VStr (now w)]>
    (<["category" := category_or_null cfg]>
       (<["url" := VStr (url req)]> (spread baseData details))).

(** [finalProduct] of [runDetailCrawler] (lines 1340-1346):
    [category: category || baseData.category || null]. *)
Definition finalProduct_detailCrawler (req : request) (w : detail_fetch)
  : gmap string value :=
  let baseData := default ∅ (baseData req) in
  let details := extractProductDetails (url req) (detail_page w) in
  <["scrapedAt" := VStr (now w)]>
    (<["category" := VStr (category cfg) ||| field baseData "category" ||| VNull]>
       (<["url" := VStr (url req)]> (spread baseData details))).

(** The selector loop of [findNextPage]: [href && !disabled]. *)
Fixpoint next_link (cands : list (option nav)) : option string :=
  match cands with
  | [] => None
  | Some n :: rest =>
      match nav_href n with
      | Some h =>
          if truthy (VStr h) && negb (nav_disabled n) then Some h
          else next_link rest
      | None => next_link rest
      end
  | None :: rest => next_link rest
  end.

(** Lines 1177-1218. *)
Definition findNextPage (doc : document) (currentUrl : string) (pageNo : Z)
  : option string :=
  match next_link (next_candidates doc) with
  | Some h => url_href h currentUrl
  | None =>
      if search_has currentUrl "page" || (pageNo =? 1) then
        Some (search_set currentUrl "page" (string_of_Z (pageNo + 1)))
      else if search_has currentUrl "offset" then
        let offset :=
          parse_int (js_String (of_opt_string (search_get currentUrl "offset")
                                ||| VStr "0")) in
        Some (search_set currentUrl "offset" (number_to_string (offset + 24)%float))
      else if pageNo =? 1 then
        Some (search_set currentUrl "page" "2")
      else None
  end.

(** The first JSON-LD block that is an [ItemList] or a [Product]. *)
Fixpoint first_products (blocks : list ld_block) : option (list value) :=
  match blocks with
  | [] => None
  | LdItemList items :: _ => Some items
  | LdProduct data :: _ => Some [data]
  | _ :: rest => first_products rest
  end.

(** Lines 906-945: the [products] of the result; [fetched] is [None] when
    the request fails after its retries. *)
Definition tryEmbeddedJson (fetched : option html_doc) : M (option (list value)) :=
  write_log EmbeddedAttempt;;
  mret (fetched ≫= (λ page, first_products (jsonld page))).

Definition processJsonLdProduct_st (product : value) : M (option (gmap string value)) :=
  with_seen (processJsonLdProduct product).

(** The loop over [productsFound] (lines 1416-1429). *)
Fixpoint save_products (found : list (gmap string value)) : M unit :=
  match found with
  | [] => mret tt
  | product :: rest =>
      s ← read saved;
      if MAX_PRODUCTS <=? s then mret tt
      else
        (if collectDetails cfg && truthy (field product "url") then
           match field product "url" with
           | VStr u => enqueue (detail_request u product)
           | _ => throw
           end
         else
           pushData (<["category" := category_or_null cfg]> product);;
           incr_saved);;
        save_products rest
  end.

(** The records mapped from the JSON-LD products (lines 1403-1410). *)
Definition jsonld_stage (w : list_fetch) : M (list (gmap string value)) :=
  jsonProducts ← tryEmbeddedJson (embedded w);
  match jsonProducts with
  | Some (p :: ps) => map_products MAX_PRODUCTS processJsonLdProduct_st (p :: ps) []
  | _ => mret []
  end.

(** [productsFound] when the product loop is reached (lines 1401-1414). *)
Definition productsFound (w : list_fetch) : M (list (gmap string value)) :=
  found ← jsonld_stage w;
  if is_empty found then
    match page w with
    | Some doc => extractProductsFromHtml doc
    | None => mret found
    end
  else mret found.

(** The LIST branch of the handler of [runHtmlCrawler] (lines 1400-1441). *)
Definition requestHandler_LIST (req : request) (w : list_fetch) : M unit :=
  let pageNo := page_number req in
  found ← productsFound w;
  save_products found;;
  s ← read saved;
  if (s <? MAX_PRODUCTS) && (pageNo <? MAX_PAGES) && negb (is_empty found) then
    match page w with
    | None => throw
    | Some doc =>
        match findNextPage doc (url req) pageNo with
        | Some nextUrl =>
            if truthy (VStr nextUrl) && negb (String.eqb nextUrl (url req)) then
              enqueue (list_request nextUrl (pageNo + 1))
            else mret tt
        | None => mret tt
        end
    end
  else mret tt.

(** The DETAIL branch of the handler of [runHtmlCrawler] (lines 1443-1464)
    in the three pieces that its two [await]s separate: the budget check
    with the construction of [finalProduct], [Dataset.pushData], and
    [saved++]. *)
Definition detail_check (req : request) (w : detail_fetch)
  : M (option (gmap string value)) :=
  s ← read saved;
  if MAX_PRODUCTS <=? s then mret None
  else mret (Some (finalProduct req w)).

Definition requestHandler_DETAIL (req : request) (w : detail_fetch) : M unit :=
  checked ← detail_check req w;
  match checked with
  | None => mret tt
  | Some final => pushData final;; incr_saved
  end.

(** Lines 1396-1465. *)
Definition requestHandler (req : request) (wl : list_fetch) (wd : detail_fetch)
  : M unit :=
  match lbl req with
  | LIST => requestHandler_LIST req wl
  | DETAIL => requestHandler_DETAIL req wd
  end.

(** The handler of [runDetailCrawler] (lines 1335-1354). *)
Definition detailCrawler_requestHandler (req : request) (w : detail_fetch) : M unit :=
  s ← read saved;
  if MAX_PRODUCTS <=? s then mret tt
  else pushData (finalProduct_detailCrawler req w);; incr_saved.

(** [failedRequestHandler] of [runDetailCrawler] (lines 1355-1358). *)
Definition detailCrawler_failedRequestHandler (req : request) (has_session : bool)
  : M unit :=
  write_log (RequestFailed (url req));;
  if has_session then write_log SessionRetired else mret tt.

(** [failedRequestHandler] of [runHtmlCrawler] (lines 1466-1480);
    [retire] tells that a session is there and the message names 403, 590
    or UPSTREAM. *)
Definition failedRequestHandler (req : request) (retire : bool) : M unit :=
  write_log (RequestFailed (url req));;
  if retire then write_log SessionRetired else mret tt.

(** ** The search API, the crawlers and a run *)

(** The answer to one POST of [fetchViaSik]: [SikError] when
    [fetchWithRetry] throws, [SikNoPrimary] without a PRIMARY_AREA result,
    else the [item.product] of the items kept by the filter and
    [metadata?.itemsPerType?.PRODUCT ?? metadata?.max]. *)
Inductive sik_response :=
| SikError
| SikNoPrimary
| SikPrimary (products : list value) (total : option Z).

(** The item loop of [fetchViaSik] (lines 1291-1304). *)
Fixpoint sik_items (items : list value) (count : Z) : M Z :=
  match items with
  | [] => mret count
  | product :: rest =>
      s ← read saved;
      if MAX_PRODUCTS <=? s then mret count
      else
        mapped ← with_seen (mapSikProduct product);
        match mapped with
        | None => sik_items rest count
        | Some m =>
            (if collectDetails cfg && truthy (field m "url") then
               match field m "url" with
               | VStr u => enqueue (detail_request u m)
               | _ => throw
               end
             else pushData m;; incr_saved);;
            sik_items rest (count + 1)
        end
  end.

(** [offset < total], [total] being [Infinity] until a response sets it. *)
Definition below_total (offset : Z) (total : option Z) : bool :=
  match total with Some t => offset <? t | None => true end.

(** The [while] loop of [fetchViaSik] (lines 1250-1308).  [sik offset
    size] is the answer to the window asked for; [pages_left] counts the
    iterations that [page <= MAX_PAGES] still allows. *)
Fixpoint fetchViaSik_loop (pages_left : nat) (sik : Z -> Z -> sik_response)
    (offset page : Z) (total : option Z) (count : Z) : M Z :=
  match pages_left with
  | O => mret count
  | S pages_left' =>
      s ← read saved;
      if (s <? MAX_PRODUCTS) && below_total offset total && (page <=? MAX_PAGES) then
        let windowSize :=
          Z.min (Z.min DEFAULT_PAGE_SIZE (MAX_PRODUCTS - s)) MAX_API_WINDOW in
        match sik offset windowSize with
        | SikError => throw
        | SikNoPrimary => mret count
        | SikPrimary items t =>
            if is_empty items then mret count
            else
              count' ← sik_items items count;
              fetchViaSik_loop pages_left' sik (offset + windowSize) (page + 1)
                (match t with Some x => Some x | None => total end) count'
        end
      else mret count
  end.

(** Lines 1242-1311. *)
Definition fetchViaSik (sik : Z -> Z -> sik_response) : M Z :=
  fetchViaSik_loop (Z.to_nat MAX_PAGES) sik 0 1 None 0.

(** [initial] (lines 818-820). *)
Definition initial : list string :=
  if is_empty (startUrls cfg) then
    ["https://www.ikea.com/" +:+ country cfg +:+ "/" +:+ language cfg
     +:+ "/new/" +:+ category cfg +:+ "/"]
  else startUrls cfg.

(** What happens during a run, one handler after the other: the search
    API is queried, a crawler hands a start URL or the [i]-th request
    enqueued so far to its handler, or reports it as failed.  An exception
    that leaves a handler is caught by the crawler. *)
Inductive event :=
| SikSearch (sik : Z -> Z -> sik_response)
| DetailCrawl (i : nat) (w : detail_fetch)
| DetailFailed (i : nat) (has_session : bool)
| HtmlStart (i : nat) (w : list_fetch)
| HtmlQueued (i : nat) (wl : list_fetch) (wd : detail_fetch)
| HtmlFailed (i : nat) (retire : bool).

(** [None] when the event names a request that does not exist. *)
Definition exec_event (ev : event) (st : RunState) : option RunState :=
  match ev with
  | SikSearch sik => Some (after (fetchViaSik sik) st)
  | DetailCrawl i w =>
      q ← requests st !! i;
      match lbl q with
      | DETAIL => Some (after (detailCrawler_requestHandler q w) st)
      | LIST => None
      end
  | DetailFailed i has_session =>
      q ← requests st !! i;
      Some (after (detailCrawler_failedRequestHandler q has_session) st)
  | HtmlStart i w =>
      u ← initial !! i;
      Some (after (requestHandler_LIST (list_request u 1) w) st)
  | HtmlQueued i wl wd =>
      q ← requests st !! i;
      Some (after (requestHandler q wl wd) st)
  | HtmlFailed i retire =>
      q ← requests st !! i;
      Some (after (failedRequestHandler q retire) st)
  end.

Fixpoint run (events : list event) (st : RunState) : option RunState :=
  match events with
  | [] => Some st
  | ev :: rest => exec_event ev st ≫= run rest
  end.

(** ** Candidates of any strategy, in the order their ids are claimed *)

Inductive candidate :=
| SikCandidate (product : value)
| JsonLdCandidate (product : value)
| DomCandidate (c : card).

(** The record a candidate is mapped to, if any, and the seen-set after
    it; each mapper runs without an [await]. *)
Definition submit (c : candidate) (seen : gset string)
  : option (gmap string value) * gset string :=
  match c with
  | SikCandidate product =>
      match mapSikProduct product seen with
      | (Done r, seen') => (r, seen')
      | (Thrown, seen') => (None, seen')
      end
  | JsonLdCandidate product =>
      match processJsonLdProduct product seen with
      | (Done r, seen') => (r, seen')
      | (Thrown, seen') => (None, seen')
      end
  | DomCandidate c => extract_card c seen
  end.

Fixpoint submit_all (cands : list candidate) (seen : gset string)
  : list (gmap string value) * gset string :=
  match cands with
  | [] => ([], seen)
  | c :: rest =>
      let '(r, seen') := submit c seen in
      let '(products, seen'') := submit_all rest seen' in
      (match r with Some p => p :: products | None => products end, seen'')
  end.

(** ** DETAIL handlers in flight at the same time *)

(** Where a DETAIL handler of [runHtmlCrawler] stands: not started,
    suspended at [await extractProductDetails(...)], suspended at
    [await Dataset.pushData(finalProduct)], returned. *)
Inductive task :=
| Fetched (req : request) (w : detail_fetch)
| Extracting (req : request) (w : detail_fetch)
| Pushing
| Returned.

(** The handler runs up to its next [await]. *)
Definition resume (t : task) : M task :=
  match t with
  | Fetched req w =>
      s ← read saved;
      if MAX_PRODUCTS <=? s then mret Returned else mret (Extracting req w)
  | Extracting req w => pushData (finalProduct req w);; mret Pushing
  | Pushing => incr_saved;; mret Returned
  | Returned => mret Returned
  end.

(** The [i]-th handler in flight is resumed. *)
Definition resume_nth (i : nat) (pool : RunState * list task) : RunState * list task :=
  match pool.2 !! i with
  | None => pool
  | Some t =>
      match resume t pool.1 with
      | (Done t', st') => (st', <[i := t']> pool.2)
      | (Thrown, st') => (st', <[i := Returned]> pool.2)
      end
  end.

Definition interleave (schedule : list nat) (pool : RunState * list task)
  : RunState * list task :=
  foldl (λ pool i, resume_nth i pool) pool schedule.

End Program.

(** ** The search configuration and the order of the phases *)

Inductive search_type := SPECIAL | CATEGORY.

(** [{ input, type }] *)
Record searchConfig := {
  sik_input : value;
  sik_type : search_type;
}.

(** [pathname.split('/').filter(Boolean)]; [segment] is the part of the
    current segment read so far. *)
Fixpoint path_parts (segment : string) (pathname : string) : list string :=
  match pathname with
  | EmptyString => if truthy (VStr segment) then [segment] else []
  | String c rest =>
      if is_slash c then
        if truthy (VStr segment) then segment :: path_parts "" rest
        else path_parts "" rest
      else path_parts (segment +:+ String c "") rest
  end.

Section Main.
Context `{Platform} (cfg : input).

(** [new URL(u).pathname]; [None] when the constructor throws. *)
Variable pathname : string -> option string.

(** Lines 843-871.  The start URLs are strings, the [url] of an entry
    that is an object. *)
Definition resolveSikSearch : option searchConfig :=
  match startUrls cfg with
  | [] =>
      let special := special_category (category cfg) in
      if truthy special then Some {| sik_input := special; sik_type := SPECIAL |}
      else if truthy (VStr (category cfg)) then
        Some {| sik_input := VStr (category cfg); sik_type := CATEGORY |}
      else None
  | first :: _ =>
      if negb (truthy (VStr first)) then None
      else
        match pathname first with
        | None => None
        | Some p =>
            let parts := path_parts "" p in
            let lastSegment := last parts in
            let special :=
              special_category (default "undefined" lastSegment)
              ||| special_category (category cfg) in
            if bool_decide ("new" ∈ parts) && truthy special then
              Some {| sik_input := special; sik_type := SPECIAL |}
            else
              match lastSegment with
              | Some segment =>
                  if bool_decide ("cat" ∈ parts) && truthy (VStr segment) then
                    Some {| sik_input := VStr segment; sik_type := CATEGORY |}
                  else None
              | None => None
              end
        end
  end.

(** The guard of [runDetailCrawler] (line 1314); [crawl] is
    [crawler.run(detailRequests)]. *)
Definition runDetailCrawler (crawl : M unit) : M unit :=
  s ← read saved;
  detailRequests ← read requests;
  if negb (collectDetails cfg) || is_empty detailRequests || (MAX_PRODUCTS cfg <=? s)
  then mret tt else crawl.

(** The guard of [runHtmlCrawler] (line 1365); [crawl] is [crawler.run]
    on the LIST requests of the starting URLs. *)
Definition runHtmlCrawler (crawl : list string -> M unit) (startingUrls : list string)
  : M unit :=
  s ← read saved;
  if is_empty startingUrls || (MAX_PRODUCTS cfg <=? s) then mret tt
  else crawl startingUrls.

(** The phases of [main] (lines 1486-1500), from a fresh run state; an
    exception is logged by the [catch] of [main] and thrown again. *)
Definition main (sik : Z -> Z -> sik_response) (detailCrawl : M unit)
    (htmlCrawl : list string -> M unit) : M unit :=
  let sikSearchConfig := resolveSikSearch in
  apiCount ← (match sikSearchConfig with
              | Some _ => fetchViaSik cfg sik
              | None => mret 0
              end);
  detailRequests ← read requests;
  (if collectDetails cfg && negb (is_empty detailRequests)
   then runDetailCrawler detailCrawl else mret tt);;
  let shouldRunHtml :=
    negb (is_empty (startUrls cfg))
    || match sikSearchConfig with Some _ => false | None => true end
    || (apiCount =? 0) in
  s ← read saved;
  if shouldRunHtml && (s <? MAX_PRODUCTS cfg) then runHtmlCrawler htmlCrawl (initial cfg)
  else mret tt.

End Main.
End V2.

(** ** Third revision (lines 1520-2095)

    The third revision has no internal API: a listing page is read from
    its JSON-LD, then from its DOM.  Its ceilings, [toAbs], [initial],
    [processApiProduct], [findNextPage], the product loop, the pagination
    and [failedRequestHandler] are, line for line, the text of the first
    revision (lines 22-34, 559-576, 529-556, 650-677, 706-708): the
    definitions of the first revision stand for them. *)

Module V3.
Section Program.
Context `{Platform} (cfg : input).

(** Lines 1541-1542. *)
Definition MAX_PRODUCTS : Z := V1.MAX_PRODUCTS cfg.
Definition MAX_PAGES : Z := V1.MAX_PAGES cfg.

(** The first JSON-LD block that is an [ItemList] or a [Product]
    (lines 1592-1613). *)
Fixpoint first_products (blocks : list ld_block) : option (list value) :=
  match blocks with
  | [] => None
  | LdItemList items :: _ => Some items
  | LdProduct data :: _ => Some [data]
  | _ :: rest => first_products rest
  end.

(** Lines 1577-1620: the [products] of the result; [fetched] is [None]
    when the request fails. *)
Definition tryEmbeddedJson (fetched : option html_doc) : M (option (list value)) :=
  write_log EmbeddedAttempt;;
  mret (fetched ≫= (λ page, first_products (jsonld page))).

(** One iteration of the card loop of [extractProductsFromHtml]
    (lines 1654-1781): [None] for [continue] and for a card that is not
    pushed. *)
Definition extract_card (c : card) (seen : gset string)
  : option (gmap string value) * gset string :=
  match card_url cfg c with
  | None => (None, seen)
  | Some (a, productUrl) =>
      match match_product_id productUrl with
      | None => (None, seen)
      | Some productId =>
          match claim productId seen with
          | (false, seen') => (None, seen')
          | (true, seen') =>
              let name := card_name c a in
              let price := of_opt_num (card_price c) in
              let product : gmap string value := list_to_map [
                ("productId", VStr productId);
                ("name", name);
                ("price", price);
                ("currency", if truthy price then VStr "GBP" else VNull);
                ("image", card_image (card_images c) VNull);
                ("url", VStr productUrl);
                ("rating", of_opt_num (card_rating c));
                ("reviewCount", of_opt_num (card_reviews c));
                ("availability", VStr "Available")
              ] in
              (if truthy name && truthy price then Some product else None, seen')
          end
      end
  end.

Fixpoint extract_cards (cards : list card) (seen : gset string)
  : list (gmap string value) * gset string :=
  match cards with
  | [] => ([], seen)
  | c :: rest =>
      let '(r, seen') := extract_card c seen in
      let '(products, seen'') := extract_cards rest seen' in
      (match r with Some p => p :: products | None => products end, seen'')
  end.

(** Lines 1624-1784. *)
Definition extractProductsFromHtml (doc : document) : M (list (gmap string value)) :=
  write_log DomExtraction;;
  with_seen (λ seen,
    let '(products, seen') := extract_cards (productElements (selections doc)) seen in
    (Done products, seen')).

(** Lines 1788-1908: [None] is the [null] returned by the [catch]. *)
Definition extractProductDetails (u : string) (page : option detail_doc)
  : option (gmap string value) :=
  match page with
  | None => None
  | Some d =>
      let data : gmap string value := ∅ in
      let data :=
        V2.set_if_found "name" (V2.first_longer_than 3 (detail_names d)) data in
      let data := <["productId" := of_opt_string (match_product_id u) ||| VNull]> data in
      let data := <["price" := of_opt_num (detail_price d)]> data in
      let data :=
        <["currency" := if truthy (field data "price") then VStr "GBP" else VNull]> data in
      let data :=
        V2.set_if_found "description" (V2.first_longer_than 20 (detail_descriptions d))
          data in
      let data := V2.set_if_found "measurements" (detail_measurements d) data in
      let data := <["images" := V2.array_or_null (detail_images d)]> data in
      let data := <["rating" := of_opt_num (detail_rating d)]> data in
      let data := <["reviewCount" := of_opt_num (detail_reviews d)]> data in
      let data := <["features" := V2.array_or_null (detail_features d)]> data in
      let data := V2.set_if_found "type" (detail_type d) data in
      let data :=
        <["availability" := VStr (default "Check availability" (detail_availability d))]>
          data in
      Some data
  end.

(** [finalProduct] of the DETAIL branch (lines 2052-2058). *)
Definition finalProduct (req : request) (w : detail_fetch) : gmap string value :=
  let baseData := default ∅ (baseData req) in
  let details := extractProductDetails (url req) (detail_page w) in
  <["scrapedAt" := VStr (now w)]>
    (<["category" := category_or_null cfg]>
       (<["url" := VStr (url req)]> (V2.spread baseData details))).

(** The records mapped from the JSON-LD products (lines 1990-1999), by
    [processApiProduct]. *)
Definition jsonld_stage (w : list_fetch) : M (list (gmap string value)) :=
  jsonProducts ← tryEmbeddedJson (embedded w);
  match jsonProducts with
  | Some (p :: ps) => map_products MAX_PRODUCTS (V1.processApiProduct_st cfg) (p :: ps) []
  | _ => mret []
  end.

(** [productsFound] when the product loop is reached (lines 1987-2006). *)
Definition productsFound (w : list_fetch) : M (list (gmap string value)) :=
  found ← jsonld_stage w;
  if is_empty found then
    match page w with
    | Some doc => extractProductsFromHtml doc
    | None => mret found
    end
  else mret found.

(** The LIST branch of [requestHandler] (lines 1986-2043). *)
Definition requestHandler_LIST (req : request) (w : list_fetch) : M unit :=
  let pageNo := page_number req in
  found ← productsFound w;
  V1.save_products cfg found;;
  s ← read saved;
  if (s <? MAX_PRODUCTS) && (pageNo <? MAX_PAGES) && negb (is_empty found) then
    match page w with
    | None => throw
    | Some doc =>
        match V1.findNextPage doc (url req) with
        | Some nextUrl =>
            if truthy (VStr nextUrl) then enqueue (list_request nextUrl (pageNo + 1))
            else mret tt
        | None => mret tt
        end
    end
  else mret tt.

(** The DETAIL branch of [requestHandler] (lines 2045-2066). *)
Definition requestHandler_DETAIL (req : request) (w : detail_fetch) : M unit :=
  s ← read saved;
  if MAX_PRODUCTS <=? s then mret tt
  else pushData (finalProduct req w);; incr_saved.

(** Lines 1980-2067. *)
Definition requestHandler (req : request) (wl : list_fetch) (wd : detail_fetch)
  : M unit :=
  match lbl req with
  | LIST => requestHandler_LIST req wl
  | DETAIL => requestHandler_DETAIL req wd
  end.

(** What happens during a run of the crawler (line 2075), one handler
    after the other. *)
Inductive event :=
| Start (i : nat) (w : list_fetch)
| Queued (i : nat) (wl : list_fetch) (wd : detail_fetch)
| GaveUp (i : nat).

(** [None] when the event names a request that does not exist. *)
Definition exec_event (ev : event) (st : RunState) : option RunState :=
  match ev with
  | Start i w =>
      u ← V1.initial cfg !! i;
      Some (after (requestHandler_LIST (list_request u 1) w) st)
  | Queued i wl wd =>
      q ← requests st !! i;
      Some (after (requestHandler q wl wd) st)
  | GaveUp i =>
      q ← requests st !! i;
      Some (after (V1.failedRequestHandler q) st)
  end.

Fixpoint run (events : list event) (st : RunState) : option RunState :=
  match events with
  | [] => Some st
  | ev :: rest => exec_event ev st ≫= run rest
  end.

End Program.
End V3.

(** ** A platform for the examples

    Enough of the platform to run the program on ASCII strings, on
    [https] URLs with a plain query and on decimal numbers. *)

Module Ascii_platform.

Definition is_space (c : ascii) : bool :=
  let n := nat_of_ascii c in (n =? 32)%nat || ((9 <=? n)%nat && (n <=? 13)%nat).

Definition lower (c : ascii) : ascii :=
  let n := nat_of_ascii c in
  if (65 <=? n)%nat && (n <=? 90)%nat then ascii_of_nat (n + 32) else c.

Fixpoint lower_dashed (in_space : bool) (s : string) : string :=
  match s with
  | EmptyString => ""
  | String c r =>
      if is_space c then
        if in_space then lower_dashed true r else String "-" (lower_dashed true r)
      else String (lower c) (lower_dashed false r)
  end.

Fixpoint trim_left (s : string) : string :=
  match s with
  | String c r => if is_space c then trim_left r else s
  | EmptyString => ""
  end.

Fixpoint trim_right (s : string) : string :=
  match s with
  | EmptyString => ""
  | String c r =>
      match trim_right r with
      | EmptyString => if is_space c then "" else String c ""
      | r' => String c r'
      end
  end.

Definition digit_value (c : ascii) : Z := Z.of_nat (nat_of_ascii c) - 48.

(** The digits at the head of [s], their value after [acc], and the rest. *)
Fixpoint read_digits (s : string) (acc : Z) (len : nat) : Z * nat * string :=
  match s with
  | String c r =>
      if is_digit c then read_digits r (10 * acc + digit_value c) (S len)
      else (acc, len, s)
  | EmptyString => (acc, len, s)
  end.

Definition float_of_Z (z : Z) : float := PrimFloat.of_uint63 (Uint63.of_Z z).

(** Unsigned decimals: [digits] or [digits.digits]; [NaN] otherwise. *)
Definition parse_decimal (fraction : bool) (s : string) : float :=
  let '(int, len, rest) := read_digits (trim_left s) 0 0 in
  if (len =? 0)%nat then PrimFloat.nan
  else
    match rest with
    | String "." r =>
        let '(frac, flen, _) := read_digits r 0 0 in
        if fraction && negb (flen =? 0)%nat then
          (float_of_Z (int * 10 ^ Z.of_nat flen + frac) / float_of_Z (10 ^ Z.of_nat flen))%float
        else float_of_Z int
    | _ => float_of_Z int
    end.

Fixpoint remove_commas (s : string) : string :=
  match s with
  | EmptyString => ""
  | String c r => if Ascii.eqb c "," then remove_commas r else String c (remove_commas r)
  end.

(** Whole numbers print as decimals; the examples use no others. *)
Definition number_to_string (n : float) : string :=
  match Prim2SF n with
  | S754_zero _ => "0"
  | S754_finite sign m e =>
      let magnitude := if 0 <=? e then Z.pos m * 2 ^ e else Z.pos m / 2 ^ (- e) in
      string_of_Z (if sign then - magnitude else magnitude)
  | S754_infinity false => "Infinity"
  | S754_infinity true => "-Infinity"
  | S754_nan => "NaN"
  end.

(** [s] up to the first [c], and what follows it. *)
Fixpoint split_at (c : ascii) (s : string) : string * option string :=
  match s with
  | EmptyString => ("", None)
  | String d r =>
      if Ascii.eqb c d then ("", Some r)
      else let '(l, rest) := split_at c r in (String d l, rest)
  end.

Fixpoint split_all (fuel : nat) (c : ascii) (s : string) : list string :=
  match fuel with
  | O => [s]
  | S fuel' =>
      match split_at c s with
      | (l, Some rest) => l :: split_all fuel' c rest
      | (l, None) => [l]
      end
  end.

Definition pair_of (kv : string) : string * string :=
  let '(k, v) := split_at "=" kv in (k, default "" v).

(** The path of a URL and the pairs of its query. *)
Definition parse_url (u : string) : string * list (string * string) :=
  match split_at "?" u with
  | (path, Some q) =>
      (path, pair_of <$> filter (λ kv, kv ≠ "") (split_all (String.length q) "&" q))
  | (path, None) => (path, [])
  end.

Definition print_url (path : string) (query : list (string * string)) : string :=
  match query with
  | [] => path
  | _ => path +:+ "?" +:+
         String.concat "&" ((λ kv : string * string, kv.1 +:+ "=" +:+ kv.2) <$> query)
  end.

Definition lookup_pair (k : string) (query : list (string * string)) : option string :=
  (λ hit : nat * (string * string), hit.2.2) <$> list_find (λ kv, kv.1 = k) query.

(** [searchParams.set]: the first pair named [k] takes the value, the
    others named [k] go, a missing pair is appended. *)
Fixpoint set_pair (k v : string) (found : bool) (query : list (string * string))
  : list (string * string) :=
  match query with
  | [] => if found then [] else [(k, v)]
  | (k', v') :: rest =>
      if String.eqb k k' then
        if found then set_pair k v true rest else (k, v) :: set_pair k v true rest
      else (k', v') :: set_pair k v found rest
  end.

(** [scheme://host] of an absolute URL. *)
Definition origin (u : string) : string :=
  match split_at "/" u with
  | (scheme, Some (String "/" r)) => scheme +:+ "//" +:+ (split_at "/" r).1
  | _ => u
  end.

Definition url_href (h base : string) : option string :=
  if String.prefix "https://" h || String.prefix "http://" h then Some h
  else if String.prefix "/" h then Some (origin base +:+ h)
  else Some ((split_at "?" base).1 +:+ h).

Definition parse_price (s : string) : float := parse_decimal true (remove_commas s).

Definition parse_int (s : string) : float := parse_decimal false s.

Definition search_has (u k : string) : bool :=
  bool_decide (is_Some (lookup_pair k (parse_url u).2)).

Definition search_get (u k : string) : option string := lookup_pair k (parse_url u).2.

Definition search_set (u k v : string) : string :=
  let '(path, query) := parse_url u in print_url path (set_pair k v false query).

(** [new URL(u).pathname] for an absolute [http] or [https] URL. *)
Definition pathname (u : string) : option string :=
  if String.prefix "https://" u || String.prefix "http://" u then
    match split_at "/" u with
    | (_, Some (String "/" r)) =>
        match split_at "/" r with
        | (_, Some p) => Some ("/" +:+ (split_at "#" (split_at "?" p).1).1)
        | (_, None) => Some "/"
        end
    | _ => None
    end
  else None.

Definition platform : Platform :=
  Build_Platform url_href number_to_string (lower_dashed false)
    (λ s, trim_right (trim_left s)) parse_price parse_int
    search_has search_get search_set.

End Ascii_platform.

(** ** Inputs for the examples *)

Module Fixtures.

(** Basic mode. *)
Definition basic : input := {|
  startUrls := [];
  country := "gb"; language := "en"; category := "new-products";
  maxProducts := Some 10; maxPages := Some 5; collectDetails := false;
|}.

(** Basic mode, two start URLs and a ceiling of one page. *)
Definition two_starts : input := {|
  startUrls := ["https://www.ikea.com/gb/en/cat/chairs/";
                "https://www.ikea.com/gb/en/cat/tables/"];
  country := "gb"; language := "en"; category := "new-products";
  maxProducts := Some 10; maxPages := Some 1; collectDetails := false;
|}.

(** Detailed mode. *)
Definition detailed : input := {|
  startUrls := [];
  country := "gb"; language := "en"; category := "new-products";
  maxProducts := Some 10; maxPages := Some 5; collectDetails := true;
|}.

(** Detailed mode with a ceiling of one product. *)
Definition detailed_one : input := {|
  startUrls := [];
  country := "gb"; language := "en"; category := "new-products";
  maxProducts := Some 1; maxPages := Some 5; collectDetails := true;
|}.

(** An API product without a price. *)
Definition chair : value :=
  VObj (list_to_map [("id", VStr "100"); ("name", VStr "Chair");
                     ("availability", VStr "In stock")]).

(** A product page on which nothing is found. *)
Definition blank_page : detail_doc := {|
  detail_names := []; detail_price := None; detail_descriptions := [];
  detail_measurements := None; detail_images := []; detail_rating := None;
  detail_reviews := None; detail_features := []; detail_type := None;
  detail_availability := None;
|}.

(** A product page that shows a price of 10 and no name. *)
Definition priced_page : detail_doc := {|
  detail_names := []; detail_price := Some 10%float; detail_descriptions := [];
  detail_measurements := None; detail_images := []; detail_rating := None;
  detail_reviews := None; detail_features := []; detail_type := None;
  detail_availability := None;
|}.

Definition at_noon (page : option detail_doc) : detail_fetch :=
  {| detail_page := page; now := "2025-01-01T12:00:00.000Z" |}.

(** A listing page with nothing on it. *)
Definition empty_document : document := {| selections := []; next_candidates := [] |}.

Definition nothing_fetched : list_fetch :=
  {| api_responses := []; embedded := None; page := Some empty_document |}.

(** A listing record with a name and a price. *)
Definition listed : gmap string value :=
  list_to_map [("productId", VStr "123"); ("name", VStr "X");
               ("price", VNum 10%float); ("availability", VStr "Available")].

(** A listing record with a name and no price. *)
Definition listed_unpriced : gmap string value :=
  list_to_map [("productId", VStr "123"); ("name", VStr "X"); ("price", VNull)].

Definition product_url : string := "https://www.ikea.com/gb/en/p/x-chair-123/".

(** A product of the search API with a name and a product page. *)
Definition sik_chair : value :=
  VObj (list_to_map [("itemNo", VStr "00263850"); ("name", VStr "BILLY");
                     ("pipUrl", VStr "https://www.ikea.com/gb/en/p/billy-bookcase-white-00263850/")]).

(** A product of the search API whose page URL ends in [-s49275006]. *)
Definition sik_combination : value :=
  VObj (list_to_map [("itemNo", VStr "49275006"); ("name", VStr "PAX");
                     ("pipUrl", VStr "https://www.ikea.com/gb/en/p/pax-wardrobe-white-s49275006/")]).

(** Two products of the search API with different item numbers whose
    page URLs end in the same number. *)
Definition sik_first : value :=
  VObj (list_to_map [("itemNo", VStr "111"); ("name", VStr "Chair");
                     ("pipUrl", VStr "/gb/en/p/chair-white-999/")]).

Definition sik_second : value :=
  VObj (list_to_map [("itemNo", VStr "222"); ("name", VStr "Chair");
                     ("pipUrl", VStr "/gb/en/p/chair-black-999/")]).

(** A search API that answers every window with [products]. *)
Definition sik_answers (products : list value) : Z -> Z -> V2.sik_response :=
  λ _ _, V2.SikPrimary products (Some (Z.of_nat (length products))).

(** A listing page of the first revision on which only the API answers,
    with one product. *)
Definition api_page : list_fetch := {|
  api_responses := [Some (VObj {["products" := VArr [chair]]})];
  embedded := None;
  page := Some empty_document;
|}.

Definition chairs_url : string := "https://www.ikea.com/gb/en/cat/chairs/".

(** A start URL that already asks for page 2. *)
Definition chairs_page_two : string := "https://www.ikea.com/gb/en/cat/chairs/?page=2".

(** A card with a link, a name and a price, and the same card without
    its name. *)
Definition named_card : card := {|
  card_links := [{| href := Some "/gb/en/p/chair-white-123/"; aria_name := None |}];
  card_names := ["Chair"];
  card_price := Some 10%float;
  card_images := [];
  card_rating := None;
  card_reviews := None;
|}.

Definition nameless_card : card := {|
  card_links := [{| href := Some "/gb/en/p/chair-white-123/"; aria_name := None |}];
  card_names := [""];
  card_price := Some 10%float;
  card_images := [];
  card_rating := None;
  card_reviews := None;
|}.

(** A second listing record and the URL of its product page. *)
Definition listed_table : gmap string value :=
  list_to_map [("productId", VStr "456"); ("name", VStr "Table")].

Definition table_url : string := "https://www.ikea.com/gb/en/p/table-oak-456/".

(** A listing page with one card and no link to a next page. *)
Definition one_card_page : list_fetch := {|
  api_responses := [];
  embedded := None;
  page := Some {| selections := [[named_card]]; next_candidates := [] |};
|}.


(** A server that answers the first request with status 502 and the
    second one with a page. *)
Definition flaky : Z -> V2.attempt string := λ i,
  if i =? 1 then V2.Failed {| V2.statusCode := VNum 502; V2.message := "Bad Gateway" |}
  else V2.Responded "<html></html>".

(** One start URL, a page of new products. *)
Definition new_lower_price : input := {|
  startUrls := ["https://www.ikea.com/gb/en/new/lower-price/?page=1"];
  country := "gb"; language := "en"; category := "new-products";
  maxProducts := Some 10; maxPages := Some 5; collectDetails := false;
|}.

(** No start URL and a category that is not a special one. *)
Definition chairs : input := {|
  startUrls := [];
  country := "gb"; language := "en"; category := "chairs";
  maxProducts := Some 10; maxPages := Some 5; collectDetails := false;
|}.

(** A product of the search API without a product page. *)
Definition sik_stool : value :=
  VObj (list_to_map [("itemNo", VStr "300"); ("name", VStr "Stool")]).

(** A product page of the first revision that shows a price of 25, two
    pictures under the first image selector, one of them twice, and
    nothing else. *)
Definition price_page : product_page := {|
  page_names := [""; ""; ""; ""];
  page_price := Some 25%float;
  page_descriptions := [];
  page_measurements := [];
  page_images :=
    [[{| src := Some "/images/a.jpg"; data_src := None; data_lazy_src := None |};
      {| src := None; data_src := Some "/images/spacer.gif"; data_lazy_src := None |};
      {| src := Some "/images/a.jpg"; data_src := None; data_lazy_src := None |};
      {| src := None; data_src := Some "/images/b.jpg"; data_lazy_src := None |}]];
  page_ratings := [None; None; None];
  page_reviews := [None; None];
  page_features := [];
  page_types := [];
  page_availabilities := [];
|}.

(** A listing record of the API of the first revision with a rating, a
    price in euros and a URL. *)
Definition listed_in_euros : gmap string value :=
  list_to_map [("productId", VStr "123"); ("name", VStr "X");
               ("price", VNum 30%float); ("currency", VStr "EUR");
               ("rating", VNum 4%float)].

(** A listing page of the first revision on which the API answers with
    one product and the page links to a next page. *)
Definition linked_page : list_fetch := {|
  api_responses := [Some (VObj {["products" := VArr [chair]]})];
  embedded := None;
  page := Some {| selections := [];
                  next_candidates :=
                    [None; Some {| nav_href := Some "/gb/en/cat/chairs/?page=2";
                                   nav_disabled := false |}] |};
|}.

(** The card of [named_card] while its price is not shown. *)
Definition unpriced_card : card := {|
  card_links := [{| href := Some "/gb/en/p/chair-white-123/"; aria_name := None |}];
  card_names := ["Chair"];
  card_price := None;
  card_images := [];
  card_rating := None;
  card_reviews := None;
|}.

(** A card with a name and a price for another product. *)
Definition table_card : card := {|
  card_links := [{| href := Some "/gb/en/p/table-oak-456/"; aria_name := None |}];
  card_names := ["Table"];
  card_price := Some 20%float;
  card_images := [];
  card_rating := None;
  card_reviews := None;
|}.

(** A first listing page without JSON-LD whose DOM shows the chair
    without its name, then the table. *)
Definition first_listing : list_fetch := {|
  api_responses := [];
  embedded := None;
  page := Some {| selections := [[nameless_card; table_card]]; next_candidates := [] |};
|}.

(** A JSON-LD item for the chair: its own id, and the URL of the page of
    the chair. *)
Definition jsonld_chair : value :=
  VObj (list_to_map [("id", VStr "001.23"); ("name", VStr "Chair");
                     ("url", VStr "/gb/en/p/chair-white-123/")]).

(** A second listing page whose JSON-LD lists the chair. *)
Definition second_listing : list_fetch := {|
  api_responses := [];
  embedded := Some {| preloaded := []; jsonld := [LdItemList [jsonld_chair]];
                      html_dom := empty_document |};
  page := Some empty_document;
|}.

End Fixtures.

#[local] Existing Instance Ascii_platform.platform.

(** ** Vocabulary of the properties *)

(** What a mapper does to the seen-set: it only grows, and a record comes
    with a string id that was not there before and is there after. *)
Definition claims (seen seen' : gset string) (r : option (gmap string value)) : Prop :=
  seen ⊆ seen' ∧
  match r with
  | Some p => ∃ id, p !! "productId" = Some (VStr id) ∧ (id ∉ seen) ∧ id ∈ seen'
  | None => True
  end.

Definition returned {A} (o : outcome (option A)) : option A :=
  match o with Done r => r | Thrown => None end.

(** The record of a mapper that returned one, the empty object otherwise. *)
Definition record_of (o : outcome (option (gmap string value)) * gset string)
  : gmap string value :=
  default ∅ (returned o.1).

(** [price] and [currency] are both set or both unset ([null] or absent). *)
Definition price_currency_together (r : gmap string value) : Prop :=
  is_nullish (field r "price") = is_nullish (field r "currency").

(** The string ids of [l], one per record and in the same order. *)
Definition has_ids (l : list (gmap string value)) (ids : list string) : Prop :=
  Forall2 (λ r id, r !! "productId" = Some (VStr id)) l ids.

(** The records [l] came out while the seen-set went from [seen] to
    [seen']: their ids are strings, pairwise distinct, new in [seen'], and
    nothing left the seen-set. *)
Definition fresh (seen seen' : gset string) (l : list (gmap string value)) : Prop :=
  seen ⊆ seen' ∧
  ∃ ids, has_ids l ids ∧ NoDup ids ∧ ∀ id, id ∈ ids → (id ∉ seen) ∧ id ∈ seen'.

(** From [st] to [st'] only the log has grown, by entries that start with
    the report of the failure of [u]. *)
Definition only_reported (u : string) (st st' : RunState) : Prop :=
  saved st' = saved st ∧ seenProducts st' = seenProducts st
  ∧ dataset st' = dataset st ∧ requests st' = requests st
  ∧ ∃ more, log st' = log st ++ RequestFailed u :: more.

(** The listing record as [finalProduct] stamps it when [details] is
    [null]. *)
Definition stamped (base : gmap string value) (u : string) (cat : value) (at_ : string)
  : gmap string value :=
  <["scrapedAt" := VStr at_]> (<["category" := cat]> (<["url" := VStr u]> base)).

(** [Q] holds of the outcome of [m] run from [st] and of the state it
    leaves. *)
Definition holds {A} (m : M A) (st : RunState) (Q : outcome A → RunState → Prop) : Prop :=
  Q (m st).1 (m st).2.

(** From [st] to [st'] nothing was saved, enqueued or logged, and the
    seen-set did not shrink. *)
Definition silent (st st' : RunState) : Prop :=
  saved st' = saved st ∧ dataset st' = dataset st ∧ requests st' = requests st
  ∧ log st' = log st ∧ seenProducts st ⊆ seenProducts st'.

(** From [st] to [st'] nothing was saved or enqueued, the log grew by
    [entries], and the seen-set did not shrink. *)
Definition logged (entries : list log_entry) (st st' : RunState) : Prop :=
  saved st' = saved st ∧ dataset st' = dataset st ∧ requests st' = requests st
  ∧ log st' = log st ++ entries ∧ seenProducts st ⊆ seenProducts st'.

(** What is known of [productsFound] after a stage: nothing was saved or
    enqueued, the log grew by [entries], and the records come with
    new ids. *)
Definition found_after (entries : list log_entry) (st : RunState)
    (o : outcome (list (gmap string value))) (st' : RunState) : Prop :=
  logged entries st st' ∧
  match o with
  | Done found => fresh (seenProducts st) (seenProducts st') found
  | Thrown => True
  end.

(** [found_after] for one of several ways the log can have grown. *)
Definition found_after_one_of (traces : list (list log_entry)) (st : RunState)
    (o : outcome (list (gmap string value))) (st' : RunState) : Prop :=
  ∃ entries, entries ∈ traces ∧ found_after entries st o st'.

(** From [st] to [st'] the records [persisted] went to the dataset and
    the requests [queued] to the queue; [saved] counts the records, stays
    below a ceiling it was below, the seen-set did not shrink, and
    nothing is persisted or queued once the ceiling is reached. *)
Definition effect (ceiling : Z) (st st' : RunState)
    (persisted : list (gmap string value)) (queued : list request) : Prop :=
  dataset st' = dataset st ++ persisted
  ∧ requests st' = requests st ++ queued
  ∧ saved st' = saved st + Z.of_nat (length persisted)
  ∧ saved st' ≤ Z.max (saved st) ceiling
  ∧ seenProducts st ⊆ seenProducts st'
  ∧ (ceiling ≤ saved st → persisted = [] ∧ queued = []).

(** The records of [found] with their [category] set, as [pushData] gets
    them from the product loop. *)
Definition with_category (cfg : input) (found : list (gmap string value))
  : list (gmap string value) :=
  (λ product, <["category" := category_or_null cfg]> product) <$> found.

(** The requests enqueued between [st] and [st']. *)
Definition enqueued (st st' : RunState) : list request :=
  drop (length (requests st)) (requests st').

(** [q] asks for the listing page after the one of [req]: what the
    LIST branch of the second revision has checked when it enqueues it. *)
Definition next_page_of `{Platform} (cfg : input) (req : request) (w : list_fetch)
    (st st' : RunState) (q : request) : Prop :=
  saved st' < V2.MAX_PRODUCTS cfg
  ∧ page_number req < V2.MAX_PAGES cfg
  ∧ (∃ found st1, V2.productsFound cfg w st = (Done found, st1) ∧ found ≠ [])
  ∧ url q ≠ url req
  ∧ pageNo q = page_number req + 1
  ∧ ∃ doc, page w = Some doc
           ∧ V2.findNextPage doc (url req) (page_number req) = Some (url q).

(** What is known of a listing handler or of the search loop: what it
    persists comes with new ids, and it only enqueues a DETAIL request
    when details are collected. *)
Definition listing_effect (cfg : input) (ceiling : Z) (st st' : RunState) : Prop :=
  ∃ persisted queued,
    effect ceiling st st' persisted queued
    ∧ fresh (seenProducts st) (seenProducts st') persisted
    ∧ Forall (λ q, lbl q = DETAIL ∧ collectDetails cfg = true) queued.

(** The budgets of a run of the second revision, between two handlers:
    [saved] counts the dataset and is within the product ceiling, and the
    listing pages asked for are numbered within the page ceiling. *)
Definition within_budget (cfg : input) (st : RunState) : Prop :=
  saved st = Z.of_nat (length (dataset st))
  ∧ saved st ≤ V2.MAX_PRODUCTS cfg
  ∧ Forall (λ q, lbl q = LIST → 2 ≤ pageNo q ≤ V2.MAX_PAGES cfg) (requests st).

(** The ledger of a run of the second revision in basic mode: the
    persisted records have pairwise distinct string ids, all in the
    seen-set, and no DETAIL request is queued. *)
Definition ledger_kept (st : RunState) : Prop :=
  fresh ∅ (seenProducts st) (dataset st) ∧ Forall (λ q, lbl q = LIST) (requests st).

(** [q] follows a listing request that was a start URL or was in the
    queue of [st], with the next page number, which the page ceiling
    allows. *)
Definition follows (cfg : input) (st : RunState) (q : request) : Prop :=
  ∃ req, (pageNo req = 1 ∨ (req ∈ requests st ∧ lbl req = LIST))
         ∧ pageNo q = page_number req + 1
         ∧ page_number req < V2.MAX_PAGES cfg.

(** The listing pages processed according to the log: each LIST request
    of the second revision calls [tryEmbeddedJson] once. *)
Fixpoint listing_pages (entries : list log_entry) : nat :=
  match entries with
  | [] => 0
  | EmbeddedAttempt :: rest => S (listing_pages rest)
  | _ :: rest => listing_pages rest
  end.



(** A string of decimal digits. *)
Fixpoint all_digits (s : string) : bool :=
  match s with
  | EmptyString => true
  | String c r => is_digit c && all_digits r
  end.

(** A string without a slash: what [[^/]+] can run over. *)
Fixpoint slash_free (s : string) : bool :=
  match s with
  | EmptyString => true
  | String c r => negb (is_slash c) && slash_free r
  end.

(** Up to its first slash, [s] has no dash that is followed by a digit:
    the pattern finds no later place for its dash in this path segment. *)
Fixpoint no_later_dash (s : string) : bool :=
  match s with
  | EmptyString => true
  | String c r =>
      is_slash c || (negb (is_dash c && starts_with_digit r) && no_later_dash r)
  end.

(** The URL of a record, when it is a string. *)
Definition url_of (product : gmap string value) : string :=
  match field product "url" with VStr u => u | _ => "" end.

(** The DETAIL requests for the product pages of [found], in order. *)
Definition detail_requests (found : list (gmap string value)) : list request :=
  (λ product, detail_request (url_of product) product) <$> found.

(** The handlers of a pool that have passed the budget test and have not
    counted their record in [saved] yet, and those among them that have
    not pushed it yet. *)
Definition promised (t : V2.task) : Z :=
  match t with V2.Extracting _ _ | V2.Pushing => 1 | _ => 0 end.

Definition unpushed (t : V2.task) : Z :=
  match t with V2.Extracting _ _ => 1 | _ => 0 end.

Fixpoint total (weight : V2.task -> Z) (pool : list V2.task) : Z :=
  match pool with
  | [] => 0
  | t :: rest => weight t + total weight rest
  end.

(** DETAIL handlers that have not started. *)
Definition fetched_pool (tasks : list (request * detail_fetch)) : list V2.task :=
  (λ task, V2.Fetched task.1 task.2) <$> tasks.

(** The product loop [loop], run from [st] on the records [found] under
    a ceiling, returns after it has persisted the first records of
    [found], as many as the ceiling leaves room for, each with its
    [category], and has counted them in [saved]; it enqueues nothing. *)
Definition saves_first (cfg : input) (ceiling : Z) (found : list (gmap string value))
    (st : RunState) (loop : M unit) : Prop :=
  let kept := take (Z.to_nat (ceiling - saved st)) found in
  (loop st).1 = Done tt
  ∧ dataset (after loop st) = dataset st ++ with_category cfg kept
  ∧ saved (after loop st) = saved st + Z.of_nat (length kept)
  ∧ requests (after loop st) = requests st
  ∧ seenProducts (after loop st) = seenProducts st
  ∧ log (after loop st) = log st.

(** The product loop [loop], run from [st] on the records [found],
    returns after it has enqueued a DETAIL request for every record of
    [found], and has persisted and counted nothing. *)
Definition enqueues_all (found : list (gmap string value)) (st : RunState)
    (loop : M unit) : Prop :=
  (loop st).1 = Done tt
  ∧ requests (after loop st) = requests st ++ detail_requests found
  ∧ dataset (after loop st) = dataset st
  ∧ saved (after loop st) = saved st
  ∧ seenProducts (after loop st) = seenProducts st
  ∧ log (after loop st) = log st.

(** What the search loop has added between [st] and [st'], against the
    count it returns. *)
Definition counted (count : Z) (st : RunState) (o : outcome Z) (st' : RunState) : Prop :=
  ∃ persisted queued,
    dataset st' = dataset st ++ persisted
    ∧ requests st' = requests st ++ queued
    ∧ match o with
      | Done c => c = count + Z.of_nat (length persisted) + Z.of_nat (length queued)
      | Thrown => True
      end.

(** A source that the image loop of [extractProductDetails] accepts. *)
Definition clean_source (s : string) : Prop :=
  s ≠ "" ∧ includes "spacer" s = false ∧ includes "placeholder" s = false.

(** [q] asks for the listing page that a link of the page of [req]
    leads to: what the LIST branch of the first revision has checked when
    it enqueues it. *)
Definition next_link_followed `{Platform} (cfg : input) (req : request) (w : list_fetch)
    (st' : RunState) (q : request) : Prop :=
  saved st' < V1.MAX_PRODUCTS cfg
  ∧ page_number req < V1.MAX_PAGES cfg
  ∧ pageNo q = page_number req + 1
  ∧ ∃ doc h, page w = Some doc
             ∧ V1.next_link (next_candidates doc) = Some h
             ∧ url_href h (url req) = Some (url q).

(** The budgets of a run under a product ceiling and a page ceiling,
    between two handlers. *)
Definition budgets_kept (products pages : Z) (st : RunState) : Prop :=
  saved st = Z.of_nat (length (dataset st))
  ∧ saved st ≤ products
  ∧ Forall (λ q, lbl q = LIST → 2 ≤ pageNo q ≤ pages) (requests st).
(** * Properties *)

(** ** The product-id pattern *)

Example match_product_id_billy :
  match_product_id "https://www.ikea.com/gb/en/p/billy-bookcase-white-00263850/"
  = Some "00263850".
Proof. reflexivity. Qed.

Example match_product_id_combination :
  match_product_id "https://www.ikea.com/gb/en/p/pax-wardrobe-white-s49275006/"
  = None.
Proof. reflexivity. Qed.

Example match_product_id_last_dash :
  match_product_id "/p/lack-side-table-55x55-black-20011408/#content"
  = Some "20011408".
Proof. reflexivity. Qed.

Example match_product_id_needs_slug :
  match_product_id "/p/-123/" = None.
Proof. reflexivity. Qed.

Lemma take_digits_nonempty (s : string) :
  starts_with_digit s = true → take_digits s ≠ "".
Proof. destruct s as [|c r]; simpl; [done|]. by intros ->. Qed.

Lemma scan_segment_nonempty (seg : string) (first : bool) (acc : option string) :
  (∀ d, acc = Some d → d ≠ "") →
  ∀ d, scan_segment first seg acc = Some d → d ≠ "".
Proof.
  revert first acc. induction seg as [|c r IH]; intros first acc Hacc d; simpl.
  - apply Hacc.
  - destruct (is_slash c); [apply Hacc|].
    apply IH. intros d'.
    destruct (negb first && is_dash c && starts_with_digit r) eqn:Hcond.
    + intros [= <-]. apply take_digits_nonempty.
      by apply andb_true_iff in Hcond as [_ ?].
    + apply Hacc.
Qed.

Lemma match_product_id_cons (c : ascii) (r : string) :
  match_product_id (String c r) =
  match (if has_p_prefix (String c r)
         then scan_segment true (after_p (String c r)) None else None) with
  | Some d => Some d
  | None => match_product_id r
  end.
Proof. reflexivity. Qed.

(** A product id parsed from a URL is never the empty string. *)
Lemma match_product_id_nonempty (u d : string) :
  match_product_id u = Some d → d ≠ "".
Proof.
  induction u as [|c r IH]; [done|].
  rewrite match_product_id_cons.
  destruct (has_p_prefix (String c r)); [|apply IH].
  destruct (scan_segment true _ None) as [d'|] eqn:Hscan; [|apply IH].
  intros [= <-]. by eapply scan_segment_nonempty in Hscan.
Qed.

(** ** Truthiness *)

Lemma truthy_jor (a b : value) : truthy (a ||| b) = truthy a || truthy b.
Proof. unfold jor. by destruct (truthy a) eqn:Ha. Qed.

(** ** The seen-set *)

Lemma claim_true (id : string) (seen seen' : gset string) :
  claim id seen = (true, seen') → (id ∉ seen) ∧ seen' = {[id]} ∪ seen.
Proof. unfold claim. case_decide; naive_solver. Qed.

Lemma claim_false (id : string) (seen seen' : gset string) :
  claim id seen = (false, seen') → id ∈ seen ∧ seen' = seen.
Proof. unfold claim. case_decide; naive_solver. Qed.

Section Mappers.
Context `{Platform} (cfg : input).

Lemma processApiProduct_claims (product : value) (seen : gset string) :
  let '(o, seen') := V1.processApiProduct cfg product seen in
  claims seen seen' (returned o).
Proof.
  unfold V1.processApiProduct, claims.
  destruct (get product "id") as [id|]; [|done].
  destruct (negb _); [done|].
  destruct (claim _ _) as [[] seen1] eqn:Hclaim.
  - apply claim_true in Hclaim as [Hnew ->].
    destruct (V1.api_url _ _ _) as [u|]; simpl; [|set_solver].
    split; [set_solver|]. eexists. split; [reflexivity|]. set_solver.
  - apply claim_false in Hclaim as [_ ->]. done.
Qed.

Lemma mapSikProduct_claims (product : value) (seen : gset string) :
  let '(o, seen') := V2.mapSikProduct cfg product seen in
  claims seen seen' (returned o).
Proof.
  unfold V2.mapSikProduct, claims.
  destruct (negb _); [done|].
  destruct (claim _ _) as [[] seen1] eqn:Hclaim.
  - apply claim_true in Hclaim as [Hnew ->].
    destruct (V2.sik_image _) as [u|]; simpl; [|set_solver].
    split; [set_solver|]. eexists. split; [reflexivity|]. set_solver.
  - apply claim_false in Hclaim as [_ ->]. done.
Qed.

Lemma processJsonLdProduct_claims (product : value) (seen : gset string) :
  let '(o, seen') := V2.processJsonLdProduct cfg product seen in
  claims seen seen' (returned o).
Proof.
  unfold V2.processJsonLdProduct, claims.
  destruct (get product "id") as [id|]; [|done].
  destruct (negb _); [done|].
  destruct (claim _ _) as [[] seen1] eqn:Hclaim.
  - apply claim_true in Hclaim as [Hnew ->]. simpl.
    split; [set_solver|]. eexists. split; [reflexivity|]. set_solver.
  - apply claim_false in Hclaim as [_ ->]. done.
Qed.

Lemma extract_card_claims (c : card) (seen : gset string) :
  let '(r, seen') := V2.extract_card cfg c seen in
  claims seen seen' r.
Proof.
  unfold V2.extract_card, claims.
  destruct (card_url cfg c) as [[a u]|]; [|done].
  destruct (match_product_id u) as [id|]; [|done].
  destruct (claim _ _) as [[] seen1] eqn:Hclaim.
  - apply claim_true in Hclaim as [Hnew ->].
    split; [set_solver|].
    destruct (truthy _ && truthy _); [|done].
    eexists. split; [reflexivity|]. set_solver.
  - apply claim_false in Hclaim as [_ ->]. done.
Qed.

Lemma extract_card_V1_claims (c : card) (seen : gset string) :
  let '(r, seen') := V1.extract_card cfg c seen in
  claims seen seen' r.
Proof.
  unfold V1.extract_card, claims.
  destruct (card_url cfg c) as [[a u]|]; [|done].
  destruct (match_product_id u) as [id|]; [|done].
  destruct (claim _ _) as [[] seen1] eqn:Hclaim.
  - apply claim_true in Hclaim as [Hnew ->].
    split; [set_solver|].
    destruct (truthy _); [|done].
    eexists. split; [reflexivity|]. set_solver.
  - apply claim_false in Hclaim as [_ ->]. done.
Qed.

Lemma submit_claims (c : V2.candidate) (seen : gset string) :
  let '(r, seen') := V2.submit cfg c seen in
  claims seen seen' r.
Proof.
  destruct c as [product|product|c]; simpl.
  - pose proof (mapSikProduct_claims product seen) as Hm.
    destruct (V2.mapSikProduct _ _ _) as [[r|] seen']; simpl in *; [done|].
    split; [apply Hm|done].
  - pose proof (processJsonLdProduct_claims product seen) as Hm.
    destruct (V2.processJsonLdProduct _ _ _) as [[r|] seen']; simpl in *; [done|].
    split; [apply Hm|done].
  - apply extract_card_claims.
Qed.

End Mappers.

(** ** Availability, price and currency of mapped records *)

Section Records.
Context `{Platform} (cfg : input).

(** C10: whatever the payload, a record returned by [processApiProduct]
    has as [availability] the sentinel ['Available'] when
    [product.availability || product.availableForClickAndCollect] is
    truthy and the sentinel ['Check availability'] otherwise; it is never
    anything but one of the two. *)
Theorem processApiProduct_availability
    (product : value) (seen seen' : gset string) (r : gmap string value) :
  V1.processApiProduct cfg product seen = (Done (Some r), seen') →
  r !! "availability" =
    Some (if truthy (get_opt product "availability"
                     ||| get_opt product "availableForClickAndCollect")
          then VStr "Available" else VStr "Check availability")
  ∧ (r !! "availability" = Some (VStr "Available")
     ∨ r !! "availability" = Some (VStr "Check availability")).
Proof.
  unfold V1.processApiProduct. intros Hmap.
  destruct (get product "id") as [id|]; [|done].
  destruct (negb _); [done|].
  destruct (claim _ _) as [[] seen1]; [|done].
  destruct (V1.api_url _ _ _) as [u|]; [|done].
  injection Hmap as <- <-.
  split; [reflexivity|].
  destruct (truthy (get_opt product "availability" ||| _)); [left|right]; reflexivity.
Qed.

(** C6, as the code has it: [processApiProduct] always sets a currency,
    the payload's or ['GBP'], whatever becomes of the price; the DOM
    extractor of the second revision only emits records with a price, and
    leaves their currency [null]. *)
Theorem price_currency_as_built :
  (∀ (product : value) (seen seen' : gset string) (r : gmap string value),
     V1.processApiProduct cfg product seen = (Done (Some r), seen') →
     truthy (field r "currency") = true
     ∧ field r "price" =
         get_opt (get_opt product "price") "value" ||| get_opt product "priceNumeral"
         ||| get_opt product "price" ||| VNull)
  ∧ (∀ (c : card) (seen seen' : gset string) (r : gmap string value),
       V2.extract_card cfg c seen = (Some r, seen') →
       field r "currency" = VNull ∧ truthy (field r "price") = true).
Proof.
  split.
  - intros product seen seen' r. unfold V1.processApiProduct. intros Hmap.
    destruct (get product "id") as [id|]; [|done].
    destruct (negb _); [done|].
    destruct (claim _ _) as [[] seen1]; [|done].
    destruct (V1.api_url _ _ _) as [u|]; [|done].
    injection Hmap as <- <-. split; [|reflexivity].
    change (truthy (get_opt (get_opt product "price") "currency"
                    ||| get_opt product "currencyCode" ||| VStr "GBP") = true).
    rewrite !truthy_jor. apply orb_true_r.
  - intros c seen seen' r. unfold V2.extract_card. intros Hcard.
    destruct (card_url cfg c) as [[a u]|]; [|done].
    destruct (match_product_id u) as [id|]; [|done].
    destruct (claim _ _) as [[] seen1]; [|done].
    destruct (truthy (card_name c a)); [|done]. simpl in Hcard.
    destruct (truthy (of_opt_num (card_price c))) eqn:Hprice; [|done].
    injection Hcard as <- <-. split; [reflexivity|exact Hprice].
Qed.

End Records.

Lemma processApiProduct_availability_witness :
  let r := record_of (V1.processApiProduct Fixtures.basic Fixtures.chair ∅) in
  V1.processApiProduct Fixtures.basic Fixtures.chair ∅ = (Done (Some r), {["100"]} ∪ ∅)
  ∧ r !! "availability" = Some (VStr "Available").
Proof.
  split; [reflexivity|].
  apply (processApiProduct_availability Fixtures.basic Fixtures.chair ∅ ({["100"]} ∪ ∅)).
  reflexivity.
Defined.

Lemma price_currency_as_built_witness :
  let r := record_of (V1.processApiProduct Fixtures.basic Fixtures.chair ∅) in
  V1.processApiProduct Fixtures.basic Fixtures.chair ∅ = (Done (Some r), {["100"]} ∪ ∅)
  ∧ truthy (field r "currency") = true.
Proof.
  intros r.
  assert (V1.processApiProduct Fixtures.basic Fixtures.chair ∅
          = (Done (Some r), {["100"]} ∪ ∅)) as Hmap by reflexivity.
  split; [exact Hmap|].
  exact (proj1 (proj1 (price_currency_as_built Fixtures.basic)
                  Fixtures.chair ∅ ({["100"]} ∪ ∅) r Hmap)).
Defined.

(** C6 fails on the first revision: the record of an API product without
    any price is persisted with [price: null] and [currency: 'GBP']. *)
Lemma price_currency_counterexample :
  let w := {| api_responses := [Some (VObj {["products" := VArr [Fixtures.chair]]})];
              embedded := None; page := None |} in
  let st := after (V1.requestHandler_LIST Fixtures.basic
                     (list_request "https://www.ikea.com/gb/en/cat/chairs/" 1) w)
                  initial_state in
  ∃ r, dataset st = [r]
       ∧ field r "price" = VNull ∧ field r "currency" = VStr "GBP"
       ∧ ¬ price_currency_together r.
Proof. eexists. repeat split; [reflexivity..|]. by vm_compute. Qed.

(** ** Merging a product page into a listing record *)

Section Merge.
Context (cfg : input).

Lemma extractProductDetails_keys (u : string) (d : detail_doc) :
  ∃ data, V2.extractProductDetails u (Some d) = Some data
  ∧ data !! "name" = VStr <$> V2.first_longer_than 3 (detail_names d)
  ∧ data !! "description" = VStr <$> V2.first_longer_than 20 (detail_descriptions d)
  ∧ data !! "measurements" = VStr <$> detail_measurements d
  ∧ data !! "type" = VStr <$> detail_type d
  ∧ data !! "productId" = Some (of_opt_string (match_product_id u) ||| VNull)
  ∧ data !! "price" = Some (of_opt_num (detail_price d))
  ∧ data !! "rating" = Some (of_opt_num (detail_rating d))
  ∧ data !! "reviewCount" = Some (of_opt_num (detail_reviews d))
  ∧ data !! "images" = Some (V2.array_or_null (detail_images d))
  ∧ data !! "features" = Some (V2.array_or_null (detail_features d))
  ∧ data !! "availability" =
      Some (VStr (default "Check availability" (detail_availability d))).
Proof.
  eexists. split; [reflexivity|]. unfold V2.set_if_found.
  destruct (V2.first_longer_than 3 _), (V2.first_longer_than 20 _),
    (detail_measurements d), (detail_type d); repeat split; reflexivity.
Qed.

(** [{ ...baseData, ...details }], key by key. *)
Lemma spread_lookup (base : gmap string value) (details : option (gmap string value))
    (k : string) :
  V2.spread base details !! k
  = match details ≫= (λ data, data !! k) with
    | Some v => Some v
    | None => base !! k
    end.
Proof.
  destruct details as [data|]; simpl; [|done].
  rewrite lookup_union. by destruct (data !! k), (base !! k).
Qed.

(** C3, as the code has it: in every detail merge, the one of the HTML
    crawler and the one of [runDetailCrawler] in the second revision and
    the one of the first and of the third revision, [finalProduct] is the
    object spread [{ ...baseData, ...details }] stamped with [url],
    [category] and [scrapedAt].  A key that [details] has wins over the
    listing value whatever its value, [null] included; only a key that
    [details] lacks leaves the listing value in place.  The [category] is
    [category || null], and [category || baseData.category || null] in
    [runDetailCrawler].  In the second revision [extractProductDetails]
    sets [name], [description], [measurements] and [type] only when it
    finds them, and always sets [productId], [price], [rating],
    [reviewCount], [images], [features] ([null] when not found) and
    [availability]. *)
Theorem detail_merge_by_key (req : request) (w : detail_fetch) :
  let base := default ∅ (baseData req) in
  let details := V2.extractProductDetails (url req) (detail_page w) in
  (∀ k : string, k ≠ "url" → k ≠ "category" → k ≠ "scrapedAt" →
     V2.finalProduct cfg req w !! k =
       match details ≫= (λ data, data !! k) with
       | Some v => Some v
       | None => base !! k
       end)
  ∧ V2.finalProduct cfg req w !! "url" = Some (VStr (url req))
  ∧ V2.finalProduct cfg req w !! "category" = Some (category_or_null cfg)
  ∧ V2.finalProduct cfg req w !! "scrapedAt" = Some (VStr (now w))
  ∧ (∀ d, detail_page w = Some d →
       ∃ data, details = Some data
       ∧ data !! "name" = VStr <$> V2.first_longer_than 3 (detail_names d)
       ∧ data !! "description" = VStr <$> V2.first_longer_than 20 (detail_descriptions d)
       ∧ data !! "measurements" = VStr <$> detail_measurements d
       ∧ data !! "type" = VStr <$> detail_type d
       ∧ data !! "productId" = Some (of_opt_string (match_product_id (url req)) ||| VNull)
       ∧ data !! "price" = Some (of_opt_num (detail_price d))
       ∧ data !! "rating" = Some (of_opt_num (detail_rating d))
       ∧ data !! "reviewCount" = Some (of_opt_num (detail_reviews d))
       ∧ data !! "images" = Some (V2.array_or_null (detail_images d))
       ∧ data !! "features" = Some (V2.array_or_null (detail_features d))
       ∧ data !! "availability" =
           Some (VStr (default "Check availability" (detail_availability d))))
  ∧ ((∀ k : string, k ≠ "url" → k ≠ "category" → k ≠ "scrapedAt" →
        V2.finalProduct_detailCrawler cfg req w !! k =
          match details ≫= (λ data, data !! k) with
          | Some v => Some v
          | None => base !! k
          end)
     ∧ V2.finalProduct_detailCrawler cfg req w !! "url" = Some (VStr (url req))
     ∧ V2.finalProduct_detailCrawler cfg req w !! "category"
       = Some (VStr (category cfg) ||| field base "category" ||| VNull)
     ∧ V2.finalProduct_detailCrawler cfg req w !! "scrapedAt" = Some (VStr (now w)))
  ∧ (∀ fetched : product_fetch,
       (∀ k : string, k ≠ "url" → k ≠ "category" → k ≠ "scrapedAt" →
          V1.finalProduct cfg req fetched !! k =
            match V1.extractProductDetails (url req) (fetched_page fetched)
                  ≫= (λ data, data !! k) with
            | Some v => Some v
            | None => base !! k
            end)
       ∧ V1.finalProduct cfg req fetched !! "url" = Some (VStr (url req))
       ∧ V1.finalProduct cfg req fetched !! "category" = Some (category_or_null cfg)
       ∧ V1.finalProduct cfg req fetched !! "scrapedAt" = Some (VStr (fetched_at fetched)))
  ∧ ((∀ k : string, k ≠ "url" → k ≠ "category" → k ≠ "scrapedAt" →
        V3.finalProduct cfg req w !! k =
          match V3.extractProductDetails (url req) (detail_page w)
                ≫= (λ data, data !! k) with
          | Some v => Some v
          | None => base !! k
          end)
     ∧ V3.finalProduct cfg req w !! "url" = Some (VStr (url req))
     ∧ V3.finalProduct cfg req w !! "category" = Some (category_or_null cfg)
     ∧ V3.finalProduct cfg req w !! "scrapedAt" = Some (VStr (now w))).
Proof.
  intros base details.
  split; [|split; [|split; [|split; [|split; [|split; [|split]]]]]].
  - intros k Hurl Hcat Hat. unfold V2.finalProduct.
    rewrite !lookup_insert_ne by done. apply spread_lookup.
  - unfold V2.finalProduct.
    by rewrite 2!lookup_insert_ne, lookup_insert_eq by done.
  - unfold V2.finalProduct. by rewrite lookup_insert_ne, lookup_insert_eq by done.
  - unfold V2.finalProduct. by rewrite lookup_insert_eq.
  - intros d Hpage. subst details. rewrite Hpage. apply extractProductDetails_keys.
  - unfold V2.finalProduct_detailCrawler. fold base. split; [|split; [|split]].
    + intros k Hurl Hcat Hat. rewrite !lookup_insert_ne by done. apply spread_lookup.
    + by rewrite 2!lookup_insert_ne, lookup_insert_eq by done.
    + by rewrite lookup_insert_ne, lookup_insert_eq by done.
    + by rewrite lookup_insert_eq.
  - intros fetched. unfold V1.finalProduct. split; [|split; [|split]].
    + intros k Hurl Hcat Hat. rewrite !lookup_insert_ne by done.
      apply (spread_lookup base (V1.extractProductDetails (url req) (fetched_page fetched))).
    + by rewrite 2!lookup_insert_ne, lookup_insert_eq by done.
    + by rewrite lookup_insert_ne, lookup_insert_eq by done.
    + by rewrite lookup_insert_eq.
  - unfold V3.finalProduct. split; [|split; [|split]].
    + intros k Hurl Hcat Hat. rewrite !lookup_insert_ne by done. apply spread_lookup.
    + by rewrite 2!lookup_insert_ne, lookup_insert_eq by done.
    + by rewrite lookup_insert_ne, lookup_insert_eq by done.
    + by rewrite lookup_insert_eq.
Qed.

End Merge.

(** The example of the merge: a listing record with name ["X"] and no
    price, a product page with a price of 10 and no name. *)
Example merge_precedence_example :
  let req := detail_request Fixtures.product_url Fixtures.listed_unpriced in
  let final := V2.finalProduct Fixtures.detailed req
                 (Fixtures.at_noon (Some Fixtures.priced_page)) in
  final !! "name" = Some (VStr "X") ∧ final !! "price" = Some (VNum 10%float).
Proof. split; reflexivity. Qed.

Lemma detail_merge_by_key_witness :
  let req := detail_request Fixtures.product_url Fixtures.listed_unpriced in
  let w := Fixtures.at_noon (Some Fixtures.priced_page) in
  (V2.finalProduct Fixtures.detailed req w !! "name" = Some (VStr "X")
   ∧ V2.finalProduct Fixtures.detailed req w !! "price" = Some (VNum 10%float))
  ∧ (V2.finalProduct_detailCrawler Fixtures.detailed req w !! "name" = Some (VStr "X")
     ∧ V2.finalProduct_detailCrawler Fixtures.detailed req w !! "price"
       = Some (VNum 10%float)).
Proof.
  intros req w.
  destruct (detail_merge_by_key Fixtures.detailed req w)
    as (Hkey & _ & _ & _ & _ & (Hkey' & _) & _).
  split; split.
  - rewrite (Hkey "name") by done. reflexivity.
  - rewrite (Hkey "price") by done. reflexivity.
  - rewrite (Hkey' "name") by done. reflexivity.
  - rewrite (Hkey' "price") by done. reflexivity.
Defined.

(** The example of the merge read literally, with [name: null] as a key
    of the detail result: the spread lets the [null] win. *)
Example spread_null_name :
  V2.spread {["name" := VStr "X"; "price" := VNull]}
            (Some {["name" := VNull; "price" := VNum 10%float]}) !! "name"
  = Some VNull.
Proof. reflexivity. Qed.

(** C3 fails on the code: the listing record has a price of 10, the
    product page shows no price, so the detail value is [null], and the
    merged record has [price: null], in the merge of [runDetailCrawler]
    as in the one of the HTML crawler. *)
Lemma detail_null_overrides_listing :
  let req := detail_request Fixtures.product_url Fixtures.listed in
  let w := Fixtures.at_noon (Some Fixtures.blank_page) in
  Fixtures.listed !! "price" = Some (VNum 10%float)
  ∧ (V2.extractProductDetails (url req) (detail_page w) ≫= (λ data, data !! "price"))
    = Some VNull
  ∧ V2.finalProduct Fixtures.detailed req w !! "price" = Some VNull
  ∧ V2.finalProduct_detailCrawler Fixtures.detailed req w !! "price" = Some VNull
  ∧ dataset (after (V2.detailCrawler_requestHandler Fixtures.detailed req w)
               initial_state)
    = [V2.finalProduct_detailCrawler Fixtures.detailed req w].
Proof. repeat split; reflexivity. Qed.

(** ** The product page in the first revision *)

Lemma first_text_truthy (texts : list string) (t : string) :
  first_text texts = Some t → truthy (VStr t) = true.
Proof.
  induction texts as [|x texts IH]; simpl; [done|].
  destruct (negb (String.eqb x "")) eqn:Hx; [|done]. by intros [= <-].
Qed.

Lemma lookup_set_if_found_ne (k k' : string) (o : option string)
    (data : gmap string value) :
  k ≠ k' → V1.set_if_found k o data !! k' = data !! k'.
Proof. intros Hk. destruct o; [by apply lookup_insert_ne|done]. Qed.

Lemma lookup_set_if_found_eq (k : string) (o : option string) (data : gmap string value) :
  data !! k = None → V1.set_if_found k o data !! k = VStr <$> o.
Proof. intros Hk. destruct o; [by apply lookup_insert_eq|done]. Qed.

Lemma lookup_set_number_if_found_ne (k k' : string) (o : option float)
    (data : gmap string value) :
  k ≠ k' → V1.set_number_if_found k o data !! k' = data !! k'.
Proof. intros Hk. destruct o; [by apply lookup_insert_ne|done]. Qed.

Lemma lookup_set_number_if_found_eq (k : string) (o : option float)
    (data : gmap string value) :
  data !! k = None → V1.set_number_if_found k o data !! k = VNum <$> o.
Proof. intros Hk. destruct o; [by apply lookup_insert_eq|done]. Qed.

(** Looking a key up in the object that [extractProductDetails] builds:
    the assignments to other keys are passed over. *)
Ltac lookup_details :=
  repeat first
    [ rewrite lookup_insert_eq
    | rewrite lookup_insert_ne by done
    | rewrite lookup_set_if_found_ne by done
    | rewrite lookup_set_number_if_found_ne by done
    | rewrite lookup_set_if_found_eq
    | rewrite lookup_set_number_if_found_eq ];
  rewrite ?lookup_empty; try done.

Lemma extractProductDetails_V1_keys (u : string) (d : product_page) :
  ∃ data, V1.extractProductDetails u (Some d) = Some data
  ∧ data !! "name" = VStr <$> first_text (page_names d)
  ∧ data !! "description" = VStr <$> V1.first_longer_than 20 (page_descriptions d)
  ∧ data !! "measurements" = VStr <$> first_text (page_measurements d)
  ∧ data !! "type" = VStr <$> first_text (page_types d)
  ∧ data !! "rating" = VNum <$> first_match (page_ratings d)
  ∧ data !! "reviewCount" = VNum <$> first_match (page_reviews d)
  ∧ data !! "productId" = Some (of_opt_string (match_product_id u) ||| VNull)
  ∧ data !! "price" = Some (of_opt_num (page_price d))
  ∧ data !! "currency" =
      Some (if truthy (of_opt_num (page_price d)) then VStr "GBP" else VNull)
  ∧ data !! "images" = Some (V1.array_or_null (collect_images (page_images d) []))
  ∧ data !! "features" = Some (V1.array_or_null (collect_features (page_features d) []))
  ∧ data !! "availability" =
      Some (VStr (default "Check availability" (first_text (page_availabilities d)))).
Proof.
  eexists. split; [reflexivity|]. cbn zeta.
  assert (∀ data : gmap string value,
            field (<["price" := of_opt_num (page_price d)]> data) "price"
            = of_opt_num (page_price d)) as Hprice.
  { intros data. unfold field. by rewrite lookup_insert_eq. }
  rewrite Hprice.
  set (listed := V1.set_if_found "type" _ _).
  assert (listed !! "availability" = None) as Hnone.
  { unfold listed. lookup_details. }
  destruct (first_text (page_availabilities d)) as [t|] eqn:Havailable.
  - assert (field (V1.set_if_found "availability" (Some t) listed) "availability"
            = VStr t) as ->.
    { unfold field. by rewrite lookup_set_if_found_eq. }
    rewrite (first_text_truthy _ _ Havailable).
    unfold listed. repeat split; lookup_details.
  - cbn [V1.set_if_found]. unfold field. rewrite Hnone. cbn [default truthy].
    unfold listed. repeat split; lookup_details.
Qed.

(** ** Failed detail requests *)

Section Failures.
Context (cfg : input).

(** C8, as the code has it: a request that fails for good is reported in
    the log, and nothing else happens: no record is persisted for it, with
    or without a name in the listing record.  A product page that was
    fetched is always merged and persisted while the budget lasts, by the
    DETAIL branch of the HTML crawler, by the handler of
    [runDetailCrawler], and by the DETAIL branch of the first and of the
    third revision: when [extractProductDetails] returns [null] the
    record is the listing record stamped with [url], [category] and
    [scrapedAt] (its availability is the listing one), whether it has a
    name or not, and otherwise the availability is the text found on the
    page or the sentinel ['Check availability']. *)
Theorem failed_request_only_reported :
  (∀ req st, only_reported (url req) st (after (V1.failedRequestHandler req) st))
  ∧ (∀ req session st,
       only_reported (url req) st
         (after (V2.detailCrawler_failedRequestHandler req session) st))
  ∧ (∀ req retire st,
       only_reported (url req) st (after (V2.failedRequestHandler req retire) st))
  ∧ (∀ req w st,
       detail_page w = None → saved st < V2.MAX_PRODUCTS cfg →
       dataset (after (V2.requestHandler_DETAIL cfg req w) st) =
         dataset st ++ [stamped (default ∅ (baseData req)) (url req)
                          (category_or_null cfg) (now w)])
  ∧ (∀ req w d st,
       detail_page w = Some d → saved st < V2.MAX_PRODUCTS cfg →
       ∃ final,
         dataset (after (V2.requestHandler_DETAIL cfg req w) st) = dataset st ++ [final]
         ∧ final !! "availability" =
             Some (VStr (default "Check availability" (detail_availability d))))
  ∧ (∀ req w st,
       detail_page w = None → saved st < V2.MAX_PRODUCTS cfg →
       dataset (after (V2.detailCrawler_requestHandler cfg req w) st) =
         dataset st ++ [stamped (default ∅ (baseData req)) (url req)
                          (VStr (category cfg)
                           ||| field (default ∅ (baseData req)) "category" ||| VNull)
                          (now w)])
  ∧ (∀ req w d st,
       detail_page w = Some d → saved st < V2.MAX_PRODUCTS cfg →
       ∃ final,
         dataset (after (V2.detailCrawler_requestHandler cfg req w) st)
         = dataset st ++ [final]
         ∧ final !! "availability" =
             Some (VStr (default "Check availability" (detail_availability d))))
  ∧ (∀ req (w : product_fetch) st,
       fetched_page w = None → saved st < V1.MAX_PRODUCTS cfg →
       dataset (after (V1.requestHandler_DETAIL cfg req w) st) =
         dataset st ++ [stamped (default ∅ (baseData req)) (url req)
                          (category_or_null cfg) (fetched_at w)])
  ∧ (∀ req (w : product_fetch) d st,
       fetched_page w = Some d → saved st < V1.MAX_PRODUCTS cfg →
       ∃ final,
         dataset (after (V1.requestHandler_DETAIL cfg req w) st) = dataset st ++ [final]
         ∧ final !! "availability" =
             Some (VStr (default "Check availability"
                           (first_text (page_availabilities d)))))
  ∧ (∀ req w st,
       detail_page w = None → saved st < V3.MAX_PRODUCTS cfg →
       dataset (after (V3.requestHandler_DETAIL cfg req w) st) =
         dataset st ++ [stamped (default ∅ (baseData req)) (url req)
                          (category_or_null cfg) (now w)])
  ∧ (∀ req w d st,
       detail_page w = Some d → saved st < V3.MAX_PRODUCTS cfg →
       ∃ final,
         dataset (after (V3.requestHandler_DETAIL cfg req w) st) = dataset st ++ [final]
         ∧ final !! "availability" =
             Some (VStr (default "Check availability" (detail_availability d)))).
Proof.
  split; [|split; [|split; [|split; [|split; [|split; [|split; [|split; [|split;
    [|split]]]]]]]]].
  - intros req st. do 4 (split; [done|]). by exists [].
  - intros req session st. unfold only_reported.
    destruct session; (do 4 (split; [done|])).
    + exists [SessionRetired]. simpl. by rewrite <- app_assoc.
    + by exists [].
  - intros req retire st. unfold only_reported.
    destruct retire; (do 4 (split; [done|])).
    + exists [SessionRetired]. simpl. by rewrite <- app_assoc.
    + by exists [].
  - intros req w st Hpage Hbudget.
    unfold after, V2.requestHandler_DETAIL, V2.detail_check, mbind, M_bind, read. simpl.
    destruct (Z.leb_spec (V2.MAX_PRODUCTS cfg) (saved st)); [lia|]. simpl.
    unfold V2.finalProduct. by rewrite Hpage.
  - intros req w d st Hpage Hbudget. eexists. split.
    + unfold after, V2.requestHandler_DETAIL, V2.detail_check, mbind, M_bind, read. simpl.
      destruct (Z.leb_spec (V2.MAX_PRODUCTS cfg) (saved st)); [lia|]. reflexivity.
    + unfold V2.finalProduct. rewrite 3!lookup_insert_ne by done.
      rewrite Hpage.
      destruct (extractProductDetails_keys (url req) d) as (data & -> & Hkeys).
      simpl. rewrite lookup_union.
      destruct Hkeys as (_ & _ & _ & _ & _ & _ & _ & _ & _ & _ & ->).
      by destruct (default ∅ (baseData req) !! "availability").
  - intros req w st Hpage Hbudget.
    unfold after, V2.detailCrawler_requestHandler, mbind, M_bind, read. simpl.
    destruct (Z.leb_spec (V2.MAX_PRODUCTS cfg) (saved st)); [lia|]. simpl.
    unfold V2.finalProduct_detailCrawler. by rewrite Hpage.
  - intros req w d st Hpage Hbudget. eexists. split.
    + unfold after, V2.detailCrawler_requestHandler, mbind, M_bind, read. simpl.
      destruct (Z.leb_spec (V2.MAX_PRODUCTS cfg) (saved st)); [lia|]. reflexivity.
    + unfold V2.finalProduct_detailCrawler. rewrite 3!lookup_insert_ne by done.
      rewrite Hpage, spread_lookup.
      destruct (extractProductDetails_keys (url req) d) as (data & -> & Hkeys).
      simpl. by destruct Hkeys as (_ & _ & _ & _ & _ & _ & _ & _ & _ & _ & ->).
  - intros req w st Hpage Hbudget.
    unfold after, V1.requestHandler_DETAIL, mbind, M_bind, read. simpl.
    destruct (Z.leb_spec (V1.MAX_PRODUCTS cfg) (saved st)); [lia|]. simpl.
    unfold V1.finalProduct. by rewrite Hpage.
  - intros req w d st Hpage Hbudget. eexists. split.
    + unfold after, V1.requestHandler_DETAIL, mbind, M_bind, read. simpl.
      destruct (Z.leb_spec (V1.MAX_PRODUCTS cfg) (saved st)); [lia|]. reflexivity.
    + unfold V1.finalProduct. rewrite 3!lookup_insert_ne by done.
      rewrite Hpage.
      rewrite (spread_lookup _ (V1.extractProductDetails (url req) (Some d))).
      destruct (extractProductDetails_V1_keys (url req) d) as (data & -> & Hkeys).
      simpl. by destruct Hkeys as (_ & _ & _ & _ & _ & _ & _ & _ & _ & _ & _ & ->).
  - intros req w st Hpage Hbudget.
    unfold after, V3.requestHandler_DETAIL, mbind, M_bind, read. simpl.
    destruct (Z.leb_spec (V3.MAX_PRODUCTS cfg) (saved st)); [lia|]. simpl.
    unfold V3.finalProduct. by rewrite Hpage.
  - intros req w d st Hpage Hbudget. eexists. split.
    + unfold after, V3.requestHandler_DETAIL, mbind, M_bind, read. simpl.
      destruct (Z.leb_spec (V3.MAX_PRODUCTS cfg) (saved st)); [lia|]. reflexivity.
    + unfold V3.finalProduct. rewrite 3!lookup_insert_ne by done.
      rewrite Hpage, spread_lookup. unfold V3.extractProductDetails. simpl.
      by rewrite lookup_insert_eq.
Qed.

End Failures.

Lemma failed_request_only_reported_witness :
  let req := detail_request Fixtures.product_url Fixtures.listed in
  let w := Fixtures.at_noon None in
  (detail_page w = None ∧ saved initial_state < V2.MAX_PRODUCTS Fixtures.detailed)
  ∧ dataset (after (V2.requestHandler_DETAIL Fixtures.detailed req w) initial_state)
    = [stamped Fixtures.listed Fixtures.product_url (VStr "new-products")
         "2025-01-01T12:00:00.000Z"]
  ∧ dataset (after (V2.detailCrawler_requestHandler Fixtures.detailed req w)
               initial_state)
    = [stamped Fixtures.listed Fixtures.product_url (VStr "new-products")
         "2025-01-01T12:00:00.000Z"].
Proof.
  intros req w.
  assert (detail_page w = None) as Hpage by reflexivity.
  assert (saved initial_state < V2.MAX_PRODUCTS Fixtures.detailed) as Hroom by reflexivity.
  pose proof (failed_request_only_reported Fixtures.detailed)
    as (_ & _ & _ & Hhtml & _ & Hdetail & _).
  split; [by split|]. split.
  - exact (Hhtml req w initial_state Hpage Hroom).
  - exact (Hdetail req w initial_state Hpage Hroom).
Defined.

(** C8 fails on the code: the search API lists a product with a name, its
    product page is queued, the request fails for good, and the run ends
    with an empty dataset. *)
Lemma failed_detail_drops_named_record :
  ∃ st q base,
    V2.run Fixtures.detailed
      [V2.SikSearch (Fixtures.sik_answers [Fixtures.sik_chair]); V2.DetailFailed 0 true]
      initial_state = Some st
    ∧ requests st = [q] ∧ baseData q = Some base
    ∧ base !! "name" = Some (VStr "BILLY")
    ∧ dataset st = []
    ∧ log st = [RequestFailed (url q); SessionRetired].
Proof. do 3 eexists. repeat split; reflexivity. Qed.

(** ** Records that come with new ids *)

Lemma fresh_nil (seen seen' : gset string) : seen ⊆ seen' → fresh seen seen' [].
Proof.
  intros Hsub. split; [done|]. exists []. split; [|split].
  - unfold has_ids. constructor.
  - constructor.
  - set_solver.
Qed.

Lemma fresh_weaken (seen seen1 seen2 : gset string) (l : list (gmap string value)) :
  seen ⊆ seen1 → fresh seen1 seen2 l → fresh seen seen2 l.
Proof.
  intros Hsub [Hsub' (ids & Hids & Hnodup & Hnew)].
  split; [set_solver|]. exists ids. repeat split; [done..| |]; set_solver.
Qed.

Lemma fresh_cons (seen seen1 seen2 : gset string)
    (p : gmap string value) (l : list (gmap string value)) :
  claims seen seen1 (Some p) → fresh seen1 seen2 l → fresh seen seen2 (p :: l).
Proof.
  intros [Hsub (id & Hid & Hnew & Hin)] [Hsub' (ids & Hids & Hnodup & Hfresh)].
  split; [set_solver|]. exists (id :: ids). split; [|split].
  - by constructor.
  - constructor; [|done]. intros Hdup. apply Hfresh in Hdup. set_solver.
  - intros id' [->|Hin']%elem_of_cons; [set_solver|].
    apply Hfresh in Hin'. set_solver.
Qed.

Lemma fresh_step (seen seen1 seen2 : gset string)
    (r : option (gmap string value)) (l : list (gmap string value)) :
  claims seen seen1 r → fresh seen1 seen2 l →
  fresh seen seen2 (match r with Some p => p :: l | None => l end).
Proof.
  destruct r as [p|]; [apply fresh_cons|].
  intros [Hsub _]. by apply fresh_weaken.
Qed.

Lemma fresh_app (seen seen1 seen2 : gset string) (l1 l2 : list (gmap string value)) :
  fresh seen seen1 l1 → fresh seen1 seen2 l2 → fresh seen seen2 (l1 ++ l2).
Proof.
  intros [Hsub (ids1 & Hids1 & Hnodup1 & Hfresh1)] [Hsub' (ids2 & Hids2 & Hnodup2 & Hfresh2)].
  split; [set_solver|]. exists (ids1 ++ ids2). split; [|split].
  - by apply Forall2_app.
  - apply NoDup_app. split; [done|]. split; [|done].
    intros id Hin1 Hin2. apply Hfresh1 in Hin1. apply Hfresh2 in Hin2. set_solver.
  - intros id [Hin|Hin]%elem_of_app.
    + apply Hfresh1 in Hin. set_solver.
    + apply Hfresh2 in Hin. set_solver.
Qed.

(** No record of a fresh batch carries an id that was seen before. *)
Lemma fresh_not_seen (seen seen' : gset string) (l : list (gmap string value))
    (r : gmap string value) (id : string) :
  fresh seen seen' l → r ∈ l → id ∈ seen → r !! "productId" ≠ Some (VStr id).
Proof.
  intros [_ (ids & Hids & _ & Hfresh)] Hr Hseen Hid.
  apply list_elem_of_lookup in Hr as [i Hi].
  destruct (Forall2_lookup_l _ _ _ _ _ Hids Hi) as (id' & Hi' & Hid').
  rewrite Hid in Hid'. injection Hid' as <-.
  apply list_elem_of_lookup_2 in Hi'. apply Hfresh in Hi'. set_solver.
Qed.

Section Candidates.
Context `{Platform} (cfg : input).

Lemma submit_all_fresh (cands : list V2.candidate) (seen : gset string) :
  fresh seen (V2.submit_all cfg cands seen).2 (V2.submit_all cfg cands seen).1.
Proof.
  revert seen. induction cands as [|c rest IH]; intros seen; simpl.
  - by apply fresh_nil.
  - pose proof (submit_claims cfg c seen) as Hc.
    destruct (V2.submit cfg c seen) as [r seen1].
    specialize (IH seen1).
    destruct (V2.submit_all cfg rest seen1) as [l seen2]. simpl in *.
    by eapply fresh_step.
Qed.

Lemma extract_cards_fresh (cards : list card) (seen : gset string) :
  fresh seen (V2.extract_cards cfg cards seen).2 (V2.extract_cards cfg cards seen).1.
Proof.
  revert seen. induction cards as [|c rest IH]; intros seen; simpl.
  - by apply fresh_nil.
  - pose proof (extract_card_claims cfg c seen) as Hc.
    destruct (V2.extract_card cfg c seen) as [r seen1].
    specialize (IH seen1).
    destruct (V2.extract_cards cfg rest seen1) as [l seen2]. simpl in *.
    by eapply fresh_step.
Qed.

Lemma extract_cards_V1_fresh (cards : list card) (seen : gset string) :
  fresh seen (V1.extract_cards cfg cards seen).2 (V1.extract_cards cfg cards seen).1.
Proof.
  revert seen. induction cards as [|c rest IH]; intros seen; simpl.
  - by apply fresh_nil.
  - pose proof (extract_card_V1_claims cfg c seen) as Hc.
    destruct (V1.extract_card cfg c seen) as [r seen1].
    specialize (IH seen1).
    destruct (V1.extract_cards cfg rest seen1) as [l seen2]. simpl in *.
    by eapply fresh_step.
Qed.

End Candidates.

(** ** Reasoning about statements *)

Lemma holds_bind {A B} (m : M A) (f : A → M B) (st : RunState)
    (Q : outcome B → RunState → Prop) :
  holds m st (λ o st1,
    match o with
    | Done a => holds (f a) st1 Q
    | Thrown => Q Thrown st1
    end) →
  holds (m ≫= f) st Q.
Proof.
  unfold holds. change ((m ≫= f) st) with
    (match m st with (Done a, st') => f a st' | (Thrown, st') => (Thrown, st') end).
  set (x := m st). by destruct x as [[a|] st1].
Qed.

Lemma holds_weaken {A} (m : M A) (st : RunState) (Q Q' : outcome A → RunState → Prop) :
  holds m st Q → (∀ o st', Q o st' → Q' o st') → holds m st Q'.
Proof. unfold holds. auto. Qed.

Lemma holds_run {A} (m : M A) (st : RunState) (Q : outcome A → RunState → Prop)
    (o : outcome A) (st' : RunState) :
  holds m st Q → m st = (o, st') → Q o st'.
Proof. unfold holds. intros HQ Heq. by rewrite Heq in HQ. Qed.

Lemma silent_refl (st : RunState) : silent st st.
Proof. by repeat split. Qed.

Lemma silent_trans (st1 st2 st3 : RunState) :
  silent st1 st2 → silent st2 st3 → silent st1 st3.
Proof.
  intros (? & ? & ? & ? & ?) (? & ? & ? & ? & ?).
  repeat split; [congruence..|set_solver].
Qed.

Lemma logged_nil (st st' : RunState) : silent st st' ↔ logged [] st st'.
Proof. unfold silent, logged. by rewrite app_nil_r. Qed.

Lemma logged_trans (l1 l2 : list log_entry) (st1 st2 st3 : RunState) :
  logged l1 st1 st2 → logged l2 st2 st3 → logged (l1 ++ l2) st1 st3.
Proof.
  intros (? & ? & ? & Hl1 & ?) (? & ? & ? & Hl2 & ?).
  repeat split; [congruence..| |set_solver].
  by rewrite Hl2, Hl1, app_assoc.
Qed.

Lemma with_seen_claims {A} (f : gset string → outcome (option A) * gset string)
    (P : gset string → gset string → option A → Prop) (st : RunState) :
  (let '(o, seen') := f (seenProducts st) in
   seenProducts st ⊆ seen' ∧ P (seenProducts st) seen' (returned o)) →
  holds (with_seen f) st (λ o st',
    silent st st' ∧ P (seenProducts st) (seenProducts st') (returned o)).
Proof.
  unfold holds, with_seen. destruct (f (seenProducts st)) as [o seen'].
  intros [Hsub HP]. by repeat split.
Qed.

Lemma holds_write_log (e : log_entry) (st : RunState) (Q : outcome unit → RunState → Prop) :
  Q (Done tt) (add_log e st) → holds (write_log e) st Q.
Proof. done. Qed.

Lemma holds_pushData (r : gmap string value) (st : RunState)
    (Q : outcome unit → RunState → Prop) :
  Q (Done tt) (add_record r st) → holds (pushData r) st Q.
Proof. done. Qed.

Lemma holds_incr_saved (st : RunState) (Q : outcome unit → RunState → Prop) :
  Q (Done tt) (add_saved st) → holds incr_saved st Q.
Proof. done. Qed.

Lemma holds_enqueue (q : request) (st : RunState) (Q : outcome unit → RunState → Prop) :
  Q (Done tt) (add_request q st) → holds (enqueue q) st Q.
Proof. done. Qed.

Lemma holds_read {A} (f : RunState → A) (st : RunState) (Q : outcome A → RunState → Prop) :
  Q (Done (f st)) st → holds (read f) st Q.
Proof. done. Qed.

Lemma holds_ret {A} (a : A) (st : RunState) (Q : outcome A → RunState → Prop) :
  Q (Done a) st → holds (mret a) st Q.
Proof. done. Qed.

Lemma holds_throw {A} (st : RunState) (Q : outcome A → RunState → Prop) :
  Q Thrown st → holds throw st Q.
Proof. done. Qed.

Lemma logged_add_log (e : log_entry) (st : RunState) : logged [e] st (add_log e st).
Proof. by repeat split. Qed.

Section Loops.
Context (limit : Z) (mapper : value → M (option (gmap string value))).
Hypothesis mapper_claims : ∀ p st,
  holds (mapper p) st (λ o st',
    silent st st' ∧ claims (seenProducts st) (seenProducts st') (returned o)).

(** The mapping loop only touches the seen-set; what it adds to
    [productsFound] comes with new ids, and it adds nothing once the
    product ceiling is reached. *)
Lemma map_products_spec (ps : list value) (found : list (gmap string value))
    (st : RunState) :
  holds (map_products limit mapper ps found) st (λ o st',
    silent st st' ∧
    match o with
    | Done l => ∃ new, l = found ++ new
                       ∧ fresh (seenProducts st) (seenProducts st') new
                       ∧ (limit ≤ saved st → new = [])
    | Thrown => True
    end).
Proof.
  revert found st. induction ps as [|p rest IH]; intros found st; simpl.
  - split; [apply silent_refl|]. exists []. rewrite app_nil_r.
    split; [done|]. split; [by apply fresh_nil|done].
  - apply holds_bind. unfold holds at 1. simpl.
    destruct (Z.leb_spec limit (saved st)) as [Hfull|Hroom].
    + split; [apply silent_refl|]. exists []. rewrite app_nil_r.
      split; [done|]. split; [by apply fresh_nil|done].
    + apply holds_bind.
      eapply holds_weaken; [apply mapper_claims|].
      intros [r|] st1 [Hsilent Hclaims]; simpl in *; [|done].
      eapply holds_weaken; [apply IH|].
      intros [l|] st2 [Hsilent' Hl]; (split; [by eapply silent_trans|]); [|done].
      destruct Hl as (new & -> & Hfresh & _).
      destruct r as [x|].
      * exists (x :: new). rewrite <- app_assoc. split; [done|].
        split; [by eapply fresh_cons|lia].
      * exists new. split; [done|]. split; [|lia].
        eapply fresh_weaken; [apply Hclaims|done].
Qed.

End Loops.

(** ** The strategies of a listing page *)

Section Strategies.
Context `{Platform} (cfg : input).

Lemma processApiProduct_st_claims (p : value) (st : RunState) :
  holds (V1.processApiProduct_st cfg p) st (λ o st',
    silent st st' ∧ claims (seenProducts st) (seenProducts st') (returned o)).
Proof.
  apply (with_seen_claims _ claims).
  pose proof (processApiProduct_claims cfg p (seenProducts st)) as Hc.
  destruct (V1.processApiProduct _ _ _) as [o seen']. split; [apply Hc|done].
Qed.

Lemma processJsonLdProduct_st_claims (p : value) (st : RunState) :
  holds (V2.processJsonLdProduct_st cfg p) st (λ o st',
    silent st st' ∧ claims (seenProducts st) (seenProducts st') (returned o)).
Proof.
  apply (with_seen_claims _ claims).
  pose proof (processJsonLdProduct_claims cfg p (seenProducts st)) as Hc.
  destruct (V2.processJsonLdProduct _ _ _) as [o seen']. split; [apply Hc|done].
Qed.

Lemma mapSikProduct_st_claims (p : value) (st : RunState) :
  holds (with_seen (V2.mapSikProduct cfg p)) st (λ o st',
    silent st st' ∧ claims (seenProducts st) (seenProducts st') (returned o)).
Proof.
  apply (with_seen_claims _ claims).
  pose proof (mapSikProduct_claims cfg p (seenProducts st)) as Hc.
  destruct (V2.mapSikProduct _ _ _) as [o seen']. split; [apply Hc|done].
Qed.

Lemma extractProductsFromHtml_spec (doc : document) (st : RunState) :
  holds (V2.extractProductsFromHtml cfg doc) st (λ o st',
    ∃ found, o = Done found ∧ logged [DomExtraction] st st'
             ∧ fresh (seenProducts st) (seenProducts st') found).
Proof.
  unfold V2.extractProductsFromHtml.
  apply holds_bind, holds_write_log. unfold holds, with_seen.
  pose proof (extract_cards_fresh cfg (productElements (selections doc))
                (seenProducts st)) as Hfresh.
  destruct (V2.extract_cards _ _ _) as [found seen']. simpl in *.
  exists found. split; [done|]. split; [|exact Hfresh].
  repeat split; try done. apply Hfresh.
Qed.

Lemma extractProductsFromHtml_V1_spec (doc : document) (st : RunState) :
  holds (V1.extractProductsFromHtml cfg doc) st (λ o st',
    ∃ found, o = Done found ∧ logged [DomExtraction] st st'
             ∧ fresh (seenProducts st) (seenProducts st') found).
Proof.
  unfold V1.extractProductsFromHtml.
  apply holds_bind, holds_write_log. unfold holds, with_seen.
  pose proof (extract_cards_V1_fresh cfg (productElements (selections doc))
                (seenProducts st)) as Hfresh.
  destruct (V1.extract_cards _ _ _) as [found seen']. simpl in *.
  exists found. split; [done|]. split; [|exact Hfresh].
  repeat split; try done. apply Hfresh.
Qed.

Lemma jsonld_stage_spec (w : list_fetch) (st : RunState) :
  holds (V2.jsonld_stage cfg w) st (found_after [EmbeddedAttempt] st).
Proof.
  unfold V2.jsonld_stage, V2.tryEmbeddedJson.
  apply holds_bind, holds_bind, holds_write_log, holds_ret.
  pose proof (logged_add_log EmbeddedAttempt st) as Hlog.
  destruct (embedded w ≫= _) as [[|p ps]|].
  - split; [done|]. by apply fresh_nil.
  - eapply holds_weaken;
      [apply (map_products_spec _ _ processJsonLdProduct_st_claims)|].
    intros o st' [Hsilent Ho]. apply logged_nil in Hsilent. split.
    + by apply (logged_trans _ _ _ _ _ Hlog Hsilent).
    + destruct o as [l|]; [|done]. by destruct Ho as (new & -> & Hfresh & _).
  - split; [done|]. by apply fresh_nil.
Qed.

Lemma bind_done {A B} (m : M A) (f : A → M B) (st st1 : RunState) (a : A) :
  m st = (Done a, st1) → (m ≫= f) st = f a st1.
Proof.
  intros Hm. change ((m ≫= f) st) with
    (match m st with (Done a, st') => f a st' | (Thrown, st') => (Thrown, st') end).
  by rewrite Hm.
Qed.

Lemma bind_thrown {A B} (m : M A) (f : A → M B) (st st1 : RunState) :
  m st = (Thrown, st1) → (m ≫= f) st = (Thrown, st1).
Proof.
  intros Hm. change ((m ≫= f) st) with
    (match m st with (Done a, st') => f a st' | (Thrown, st') => (Thrown, st') end).
  by rewrite Hm.
Qed.

Lemma read_bind {A B} (f : RunState → A) (k : A → M B) (st : RunState) :
  (read f ≫= k) st = k (f st) st.
Proof. reflexivity. Qed.

Lemma is_empty_false {A} (l : list A) : l ≠ [] → is_empty l = false.
Proof. by destruct l. Qed.

Lemma found_after_trans (l1 l2 : list log_entry) (st st1 st2 : RunState)
    (o : outcome (list (gmap string value))) :
  logged l1 st st1 → found_after l2 st1 o st2 → found_after (l1 ++ l2) st o st2.
Proof.
  intros Hlog [Hlog' Ho]. split; [by eapply logged_trans|].
  destruct o as [found|]; [|done].
  eapply fresh_weaken; [|done]. apply Hlog.
Qed.

Lemma productsFound_spec (w : list_fetch) (st : RunState) :
  holds (V2.productsFound cfg w) st
    (found_after_one_of [[EmbeddedAttempt]; [EmbeddedAttempt; DomExtraction]] st).
Proof.
  unfold V2.productsFound. apply holds_bind.
  eapply holds_weaken; [apply jsonld_stage_spec|].
  intros [found|] st1 Hstage.
  - destruct found as [|r found]; simpl.
    + destruct (page w) as [doc|].
      * eapply holds_weaken; [apply extractProductsFromHtml_spec|].
        intros o st2 (found & -> & Hlog & Hfresh).
        exists [EmbeddedAttempt; DomExtraction]. split; [set_solver|].
        by apply (found_after_trans [EmbeddedAttempt] [DomExtraction] _ st1);
          [apply Hstage|].
      * exists [EmbeddedAttempt]. split; [set_solver|done].
    + exists [EmbeddedAttempt]. split; [set_solver|done].
  - exists [EmbeddedAttempt]. split; [set_solver|done].
Qed.

Lemma api_stage_spec (n : Z) (w : list_fetch) (st : RunState) :
  holds (V1.api_stage cfg n w) st (found_after [ApiAttempt n] st).
Proof.
  unfold V1.api_stage, V1.tryInternalApi.
  apply holds_bind, holds_bind, holds_write_log, holds_ret.
  pose proof (logged_add_log (ApiAttempt n) st) as Hlog.
  destruct (V1.first_api_products _) as [[|p ps]|].
  - split; [done|]. by apply fresh_nil.
  - eapply holds_weaken;
      [apply (map_products_spec _ _ (processApiProduct_st_claims))|].
    intros o st' [Hsilent Ho]. apply logged_nil in Hsilent. split.
    + by apply (logged_trans _ _ _ _ _ Hlog Hsilent).
    + destruct o as [l|]; [|done]. by destruct Ho as (new & -> & Hfresh & _).
  - split; [done|]. by apply fresh_nil.
Qed.

(** The second and third priority of the first revision: the DOM of the
    fetched page text is parsed only when the embedded JSON holds no
    product array. *)
Lemma embedded_stage_spec (w : list_fetch) (st : RunState) :
  holds (V1.embedded_stage cfg w) st (λ o st',
    match (V1.embedded_result (embedded w)).1 with
    | Some (_ :: _) => found_after [EmbeddedAttempt] st o st'
    | _ =>
        found_after_one_of [[EmbeddedAttempt]; [EmbeddedAttempt; DomExtraction]] st o st'
    end).
Proof.
  unfold V1.embedded_stage, V1.tryEmbeddedJson.
  apply holds_bind, holds_bind, holds_write_log, holds_ret.
  pose proof (logged_add_log EmbeddedAttempt st) as Hlog.
  destruct (V1.embedded_result (embedded w)) as [[[|p ps]|] html]; cbn [fst snd].
  2:{ eapply holds_weaken;
        [apply (map_products_spec _ _ (processApiProduct_st_claims))|].
      intros o st' [Hsilent Ho]. apply logged_nil in Hsilent. split.
      - by apply (logged_trans _ _ _ _ _ Hlog Hsilent).
      - destruct o as [l|]; [|done]. by destruct Ho as (new & -> & Hfresh & _). }
  all: destruct html as [fetched|].
  all: try (exists [EmbeddedAttempt]; split; [set_solver|];
            split; [done|]; by apply fresh_nil).
  all: eapply holds_weaken; [apply extractProductsFromHtml_V1_spec|].
  all: intros o st2 (found & -> & Hlog' & Hfresh).
  all: exists [EmbeddedAttempt; DomExtraction]; split; [set_solver|].
  all: by apply (found_after_trans [EmbeddedAttempt] [DomExtraction] _ _ _ _ Hlog).
Qed.

Lemma productsFound_V1_spec (n : Z) (w : list_fetch) (st : RunState) :
  holds (V1.productsFound cfg n w) st
    (found_after_one_of
       [[ApiAttempt n]; [ApiAttempt n; EmbeddedAttempt];
        [ApiAttempt n; EmbeddedAttempt; DomExtraction];
        [ApiAttempt n; EmbeddedAttempt; DomExtraction; DomExtraction]] st).
Proof.
  unfold V1.productsFound. apply holds_bind.
  eapply holds_weaken; [apply api_stage_spec|].
  intros [found|] st1 Hapi; [|exists [ApiAttempt n]; split; [set_solver|done]].
  destruct found as [|r found]; cbn [is_empty].
  2:{ apply holds_bind, holds_ret. cbn [is_empty]. apply holds_ret.
      exists [ApiAttempt n]. split; [set_solver|done]. }
  apply holds_bind.
  eapply holds_weaken; [apply embedded_stage_spec|].
  intros o st2 Hemb.
  assert (found_after_one_of
            [[EmbeddedAttempt]; [EmbeddedAttempt; DomExtraction]] st1 o st2)
    as (entries & Hentries & Hafter).
  { destruct (V1.embedded_result (embedded w)).1 as [[|? ?]|]; [done| |done].
    exists [EmbeddedAttempt]. split; [set_solver|done]. }
  pose proof (found_after_trans _ _ _ _ _ _ (proj1 Hapi) Hafter) as Hboth.
  destruct o as [found|];
    [|exists ([ApiAttempt n] ++ entries); split; [set_solver|done]].
  destruct found as [|r found]; cbn [is_empty].
  2:{ apply holds_ret. exists ([ApiAttempt n] ++ entries). split; [set_solver|done]. }
  destruct (page w) as [doc|].
  2:{ apply holds_ret. exists ([ApiAttempt n] ++ entries). split; [set_solver|done]. }
  eapply holds_weaken; [apply extractProductsFromHtml_V1_spec|].
  intros o st3 (found & -> & Hlog & Hfresh).
  exists (([ApiAttempt n] ++ entries) ++ [DomExtraction]). split; [set_solver|].
  by apply (found_after_trans _ [DomExtraction] _ st2); [apply Hboth|].
Qed.

(** C1, as the code has it: the strategies run in the order API, embedded
    JSON, DOM (embedded JSON, DOM in the second revision), and the test
    between two of them is [productsFound.length === 0]: as soon as a
    strategy has put one record in [productsFound], the record of a
    product with an id that was not seen before, mapped while [saved] is
    below the ceiling, no other strategy is run for the page.  A strategy
    that leaves [productsFound] empty, with no products or with products
    that were all rejected, is followed by the next one: the API by the
    embedded JSON, the embedded JSON without a product array by the DOM
    of the page text it fetched, and an empty [productsFound] after that
    by the DOM of the crawler's page; in the second revision the JSON-LD
    by the DOM of the crawler's page.  What the DOM extractor returns is
    then [productsFound]. *)
Theorem strategies_short_circuit :
  (∀ n w st found st1,
     V1.api_stage cfg n w st = (Done found, st1) → found ≠ [] →
     V1.productsFound cfg n w st = (Done found, st1)
     ∧ log st1 = log st ++ [ApiAttempt n])
  ∧ (∀ n w st st1 found st2,
       V1.api_stage cfg n w st = (Done [], st1) →
       V1.embedded_stage cfg w st1 = (Done found, st2) → found ≠ [] →
       V1.productsFound cfg n w st = (Done found, st2)
       ∧ ∀ p ps, (V1.embedded_result (embedded w)).1 = Some (p :: ps) →
                 log st2 = log st ++ [ApiAttempt n; EmbeddedAttempt])
  ∧ (∀ n w st, ∃ rest,
       rest ∈ [[]; [EmbeddedAttempt]; [EmbeddedAttempt; DomExtraction];
               [EmbeddedAttempt; DomExtraction; DomExtraction]]
       ∧ log (after (V1.productsFound cfg n w) st) = log st ++ ApiAttempt n :: rest)
  ∧ (∀ w st found st1,
       V2.jsonld_stage cfg w st = (Done found, st1) → found ≠ [] →
       V2.productsFound cfg w st = (Done found, st1)
       ∧ log st1 = log st ++ [EmbeddedAttempt])
  ∧ (∀ w st, ∃ rest,
       rest ∈ [[]; [DomExtraction]]
       ∧ log (after (V2.productsFound cfg w) st) = log st ++ EmbeddedAttempt :: rest)
  ∧ (∀ n w st st1,
       V1.api_stage cfg n w st = (Done [], st1) →
       ∃ rest, log (after (V1.productsFound cfg n w) st)
               = log st ++ ApiAttempt n :: EmbeddedAttempt :: rest)
  ∧ (∀ w st fetched,
       (V1.embedded_result (embedded w)).2 = Some fetched →
       (∀ p ps, (V1.embedded_result (embedded w)).1 ≠ Some (p :: ps)) →
       V1.embedded_stage cfg w st
       = V1.extractProductsFromHtml cfg (html_dom fetched) (add_log EmbeddedAttempt st))
  ∧ (∀ n w st st1 st2,
       V1.api_stage cfg n w st = (Done [], st1) →
       V1.embedded_stage cfg w st1 = (Done [], st2) →
       (∀ doc, page w = Some doc →
          V1.productsFound cfg n w st = V1.extractProductsFromHtml cfg doc st2
          ∧ log (after (V1.productsFound cfg n w) st) = log st2 ++ [DomExtraction])
       ∧ (page w = None → V1.productsFound cfg n w st = (Done [], st2)))
  ∧ (∀ w st st1,
       V2.jsonld_stage cfg w st = (Done [], st1) →
       (∀ doc, page w = Some doc →
          V2.productsFound cfg w st = V2.extractProductsFromHtml cfg doc st1
          ∧ log (after (V2.productsFound cfg w) st)
            = log st ++ [EmbeddedAttempt; DomExtraction])
       ∧ (page w = None → V2.productsFound cfg w st = (Done [], st1)))
  ∧ (∀ n w st found st1,
       (V1.api_stage cfg n w st = (Done found, st1)
        ∨ V1.productsFound cfg n w st = (Done found, st1)) →
       fresh (seenProducts st) (seenProducts st1) found
       ∧ (V1.MAX_PRODUCTS cfg ≤ saved st →
          V1.api_stage cfg n w st = (Done found, st1) → found = []))
  ∧ (∀ w st found st1,
       (V2.jsonld_stage cfg w st = (Done found, st1)
        ∨ V2.productsFound cfg w st = (Done found, st1)) →
       fresh (seenProducts st) (seenProducts st1) found
       ∧ (V2.MAX_PRODUCTS cfg ≤ saved st →
          V2.jsonld_stage cfg w st = (Done found, st1) → found = [])).
Proof.
  split; [|split; [|split; [|split; [|split; [|split; [|split; [|split; [|split;
    [|split]]]]]]]]].
  - intros n w st found st1 Hapi Hfound. split.
    + unfold V1.productsFound. rewrite (bind_done _ _ _ _ _ Hapi).
      rewrite (is_empty_false _ Hfound).
      rewrite (bind_done (mret found) _ st1 st1 found eq_refl).
      by rewrite (is_empty_false _ Hfound).
    + pose proof (holds_run _ _ _ _ _ (api_stage_spec n w st) Hapi) as [Hlog _].
      apply Hlog.
  - intros n w st st1 found st2 Hapi Hemb Hfound. split.
    + unfold V1.productsFound. rewrite (bind_done _ _ _ _ _ Hapi). cbn [is_empty].
      rewrite (bind_done _ _ _ _ _ Hemb). by rewrite (is_empty_false _ Hfound).
    + intros p ps Hjson.
      pose proof (holds_run _ _ _ _ _ (api_stage_spec n w st) Hapi) as [Hlog _].
      pose proof (holds_run _ _ _ _ _ (embedded_stage_spec w st1) Hemb) as Hlog'.
      rewrite Hjson in Hlog'. destruct Hlog' as [Hlog' _].
      apply (logged_trans _ _ _ _ _ Hlog Hlog').
  - intros n w st.
    destruct (productsFound_V1_spec n w st) as (entries & Hentries & [Hlog _]).
    unfold after. destruct Hlog as (_ & _ & _ & -> & _).
    set_unfold in Hentries.
    destruct Hentries as [->|[->|[->|[->|[]]]]]; eexists; (split; [|reflexivity]);
      set_solver.
  - intros w st found st1 Hstage Hfound. split.
    + unfold V2.productsFound. rewrite (bind_done _ _ _ _ _ Hstage).
      by rewrite (is_empty_false _ Hfound).
    + pose proof (holds_run _ _ _ _ _ (jsonld_stage_spec w st) Hstage) as [Hlog _].
      apply Hlog.
  - intros w st.
    destruct (productsFound_spec w st) as (entries & Hentries & [Hlog _]).
    unfold after. destruct Hlog as (_ & _ & _ & -> & _).
    set_unfold in Hentries.
    destruct Hentries as [->|[->|[]]]; eexists; (split; [|reflexivity]); set_solver.
  - intros n w st st1 Hapi.
    pose proof (holds_run _ _ _ _ _ (api_stage_spec n w st) Hapi) as [Hlog _].
    destruct Hlog as (_ & _ & _ & Hlog & _).
    unfold after, V1.productsFound. rewrite (bind_done _ _ _ _ _ Hapi). cbn [is_empty].
    apply (holds_bind (V1.embedded_stage cfg w) _ st1
             (λ _ st', ∃ rest, log st' = log st ++ ApiAttempt n :: EmbeddedAttempt :: rest)).
    eapply holds_weaken; [apply embedded_stage_spec|].
    intros o st2 Hemb. cbn beta in Hemb.
    assert (∃ rest, log st2 = log st ++ ApiAttempt n :: EmbeddedAttempt :: rest)
      as [rest Hrest].
    { assert (found_after_one_of
                [[EmbeddedAttempt]; [EmbeddedAttempt; DomExtraction]] st1 o st2)
        as (entries & Hentries & [Hlog' _]).
      { destruct (V1.embedded_result (embedded w)).1 as [[|? ?]|]; [done| |done].
        exists [EmbeddedAttempt]. split; [set_solver|done]. }
      destruct Hlog' as (_ & _ & _ & Hlog' & _). rewrite Hlog', Hlog.
      set_unfold in Hentries. destruct Hentries as [->|[->|[]]].
      - exists []. by rewrite <- app_assoc.
      - exists [DomExtraction]. by rewrite <- app_assoc. }
    destruct o as [found|]; [|by exists rest].
    destruct found as [|r found]; cbn [is_empty]; [|by apply holds_ret; exists rest].
    destruct (page w) as [doc|]; [|by apply holds_ret; exists rest].
    eapply holds_weaken; [apply extractProductsFromHtml_V1_spec|].
    intros o st3 (found & _ & (_ & _ & _ & Hdom & _) & _).
    exists (rest ++ [DomExtraction]). rewrite Hdom, Hrest.
    by rewrite <- app_assoc.
  - intros w st fetched Hhtml Hjson.
    unfold V1.embedded_stage, V1.tryEmbeddedJson.
    change ((write_log EmbeddedAttempt;; mret (V1.embedded_result (embedded w))) ≫= _)
      with (λ st0 : RunState,
              (let '(jsonProducts, html) := V1.embedded_result (embedded w) in
               match jsonProducts with
               | Some (p :: ps) =>
                   map_products (V1.MAX_PRODUCTS cfg) (V1.processApiProduct_st cfg)
                     (p :: ps) []
               | _ =>
                   match html with
                   | Some page => V1.extractProductsFromHtml cfg (html_dom page)
                   | None => mret []
                   end
               end) (add_log EmbeddedAttempt st0)).
    cbn beta.
    destruct (V1.embedded_result (embedded w)) as [[[|p ps]|] html]; cbn [fst snd] in *.
    + by rewrite Hhtml.
    + by destruct (Hjson p ps).
    + by rewrite Hhtml.
  - intros n w st st1 st2 Hapi Hemb.
    assert (V1.productsFound cfg n w st
            = match page w with
              | Some doc => V1.extractProductsFromHtml cfg doc st2
              | None => (Done [], st2)
              end) as Hrun.
    { unfold V1.productsFound. rewrite (bind_done _ _ _ _ _ Hapi). cbn [is_empty].
      rewrite (bind_done _ _ _ _ _ Hemb). cbn [is_empty]. by destruct (page w). }
    split.
    + intros doc Hpage. rewrite Hpage in Hrun. split; [exact Hrun|].
      unfold after. rewrite Hrun.
      destruct (extractProductsFromHtml_V1_spec doc st2) as (found & _ & Hlog & _).
      apply Hlog.
    + intros Hpage. by rewrite Hpage in Hrun.
  - intros w st st1 Hstage.
    assert (V2.productsFound cfg w st
            = match page w with
              | Some doc => V2.extractProductsFromHtml cfg doc st1
              | None => (Done [], st1)
              end) as Hrun.
    { unfold V2.productsFound. rewrite (bind_done _ _ _ _ _ Hstage). cbn [is_empty].
      by destruct (page w). }
    pose proof (holds_run _ _ _ _ _ (jsonld_stage_spec w st) Hstage) as [Hlog _].
    destruct Hlog as (_ & _ & _ & Hlog & _).
    split.
    + intros doc Hpage. rewrite Hpage in Hrun. split; [exact Hrun|].
      unfold after. rewrite Hrun.
      destruct (extractProductsFromHtml_spec doc st1) as (found & _ & Hdom & _).
      destruct Hdom as (_ & _ & _ & -> & _). rewrite Hlog. by rewrite <- app_assoc.
    + intros Hpage. by rewrite Hpage in Hrun.
  - intros n w st found st1 Hrun. split.
    + destruct Hrun as [Hrun|Hrun].
      * apply (holds_run _ _ _ _ _ (api_stage_spec n w st) Hrun).
      * destruct (holds_run _ _ _ _ _ (productsFound_V1_spec n w st) Hrun)
          as (entries & _ & _ & Hfresh). exact Hfresh.
    + intros Hfull. unfold V1.api_stage, V1.tryInternalApi.
      rewrite (bind_done _ _ st (add_log (ApiAttempt n) st)
                 (V1.first_api_products (api_responses w)) eq_refl).
      destruct (V1.first_api_products _) as [[|p ps]|]; try by intros [= <- _].
      intros Hloop.
      destruct (holds_run _ _ _ _ _
                  (map_products_spec _ _ processApiProduct_st_claims (p :: ps) []
                     (add_log (ApiAttempt n) st)) Hloop)
        as (_ & new & -> & _ & Hnone).
      by apply Hnone.
  - intros w st found st1 Hrun. split.
    + destruct Hrun as [Hrun|Hrun].
      * apply (holds_run _ _ _ _ _ (jsonld_stage_spec w st) Hrun).
      * destruct (holds_run _ _ _ _ _ (productsFound_spec w st) Hrun)
          as (entries & _ & _ & Hfresh). exact Hfresh.
    + intros Hfull. unfold V2.jsonld_stage, V2.tryEmbeddedJson.
      rewrite (bind_done _ _ st (add_log EmbeddedAttempt st)
                 (embedded w ≫= (λ page, V2.first_products (jsonld page))) eq_refl).
      destruct (embedded w ≫= _) as [[|p ps]|]; try by intros [= <- _].
      intros Hloop.
      destruct (holds_run _ _ _ _ _
                  (map_products_spec _ _ processJsonLdProduct_st_claims (p :: ps) []
                     (add_log EmbeddedAttempt st)) Hloop)
        as (_ & new & -> & _ & Hnone).
      by apply Hnone.
Qed.

End Strategies.

Lemma strategies_short_circuit_witness :
  let run := V1.api_stage Fixtures.basic 1 Fixtures.api_page initial_state in
  let found := match run.1 with Done found => found | Thrown => [] end in
  let st1 := after (V1.requestHandler_LIST Fixtures.basic
                      (list_request Fixtures.chairs_url 1) Fixtures.api_page)
               initial_state in
  let again := V1.api_stage Fixtures.basic 2 Fixtures.api_page st1 in
  ((run = (Done found, run.2) ∧ found ≠ [])
   ∧ V1.productsFound Fixtures.basic 1 Fixtures.api_page initial_state
     = (Done found, run.2)
   ∧ log run.2 = [ApiAttempt 1])
  ∧ (V1.first_api_products (api_responses Fixtures.api_page) = Some [Fixtures.chair]
     ∧ again = (Done [], again.2))
  ∧ ∃ rest, log (after (V1.productsFound Fixtures.basic 2 Fixtures.api_page) st1)
            = log st1 ++ ApiAttempt 2 :: EmbeddedAttempt :: rest.
Proof.
  intros run found st1 again.
  assert (run = (Done found, run.2) ∧ found ≠ []) as Hrun by (split; [reflexivity|done]).
  assert (again = (Done [], again.2)) as Hagain by reflexivity.
  pose proof (strategies_short_circuit Fixtures.basic)
    as (Hfirst & _ & _ & _ & _ & Hnext & _).
  split; [|split].
  - split; [exact Hrun|].
    exact (Hfirst 1 Fixtures.api_page initial_state found run.2 (proj1 Hrun) (proj2 Hrun)).
  - split; [reflexivity|exact Hagain].
  - exact (Hnext 2 Fixtures.api_page st1 again.2 Hagain).
Defined.

(** C1 fails on the code when a candidate is a product as the strategy
    returns it: the API answers the second page with the product it gave
    for the first one, so it does yield a candidate, but the id is already
    seen, [productsFound] stays empty, and the embedded JSON and the DOM
    are tried all the same. *)
Lemma raw_candidates_do_not_short_circuit :
  let first := list_request Fixtures.chairs_url 1 in
  let second := list_request Fixtures.chairs_page_two 2 in
  let st1 := after (V1.requestHandler_LIST Fixtures.basic first Fixtures.api_page)
               initial_state in
  let st2 := after (V1.requestHandler_LIST Fixtures.basic second Fixtures.api_page) st1 in
  V1.first_api_products (api_responses Fixtures.api_page) = Some [Fixtures.chair]
  ∧ log st1 = [ApiAttempt 1]
  ∧ log st2 = [ApiAttempt 1; ApiAttempt 2; EmbeddedAttempt; DomExtraction].
Proof. repeat split; reflexivity. Qed.

(** ** What a handler persists and enqueues *)

Lemma effect_refl (ceiling : Z) (st st' : RunState) :
  saved st' = saved st → dataset st' = dataset st → requests st' = requests st →
  seenProducts st ⊆ seenProducts st' →
  effect ceiling st st' [] [].
Proof.
  intros Hsaved Hdata Hreq Hseen. unfold effect. rewrite !app_nil_r. simpl.
  repeat split; try done; lia.
Qed.

Lemma effect_trans (ceiling : Z) (st st1 st2 : RunState)
    (p1 p2 : list (gmap string value)) (q1 q2 : list request) :
  effect ceiling st st1 p1 q1 → effect ceiling st1 st2 p2 q2 →
  effect ceiling st st2 (p1 ++ p2) (q1 ++ q2).
Proof.
  intros (Hd1 & Hr1 & Hs1 & Hb1 & Hsub1 & Hfull1) (Hd2 & Hr2 & Hs2 & Hb2 & Hsub2 & Hfull2).
  unfold effect. rewrite Hd2, Hd1, Hr2, Hr1, !app_assoc, length_app.
  split; [done|]. split; [done|]. split; [lia|]. split; [lia|].
  split; [set_solver|].
  intros Hfull. destruct (Hfull1 Hfull) as [-> ->]. simpl in *.
  destruct Hfull2 as [-> ->]; [lia|done].
Qed.

Lemma logged_effect (ceiling : Z) (entries : list log_entry) (st st' : RunState) :
  logged entries st st' → effect ceiling st st' [] [].
Proof. intros (? & ? & ? & ? & ?). by apply effect_refl. Qed.

(** Saving one record below the ceiling. *)
Lemma effect_save (ceiling : Z) (r : gmap string value) (st : RunState) :
  saved st < ceiling → effect ceiling st (add_saved (add_record r st)) [r] [].
Proof.
  intros Hroom. unfold effect. simpl. rewrite app_nil_r.
  repeat split; try done; lia.
Qed.

(** Enqueueing one request below the ceiling. *)
Lemma effect_enqueue (ceiling : Z) (q : request) (st : RunState) :
  saved st < ceiling → effect ceiling st (add_request q st) [] [q].
Proof.
  intros Hroom. unfold effect. simpl. rewrite app_nil_r.
  repeat split; try done; lia.
Qed.

Section Saving.
Context `{Platform} (cfg : input).

(** The product loop of the second revision: it saves some of the
    records found, enqueues a DETAIL request for others, and touches
    neither the seen-set nor the log. *)
Lemma save_products_spec (found : list (gmap string value)) (st : RunState) :
  holds (V2.save_products cfg found) st (λ _ st',
    ∃ kept queued,
      effect (V2.MAX_PRODUCTS cfg) st st' (with_category cfg kept) queued
      ∧ kept `sublist_of` found
      ∧ Forall (λ q, lbl q = DETAIL) queued
      ∧ (collectDetails cfg = false → queued = [])
      ∧ seenProducts st' = seenProducts st ∧ log st' = log st).
Proof.
  revert st. induction found as [|product rest IH]; intros st.
  - apply holds_ret. exists [], []. split; [by apply effect_refl|]. by repeat split.
  - cbn [V2.save_products]. apply holds_bind, holds_read.
    destruct (Z.leb_spec (V2.MAX_PRODUCTS cfg) (saved st)) as [Hfull|Hroom].
    { apply holds_ret. exists [], []. split; [by apply effect_refl|].
      repeat split; try done. apply sublist_nil_l. }
    apply holds_bind.
    destruct (collectDetails cfg && truthy (field product "url")) eqn:Hdetail.
    + destruct (field product "url") as [| | | |u| |];
        try (apply holds_throw; exists [], []; split; [by apply effect_refl|];
             repeat split; try done; apply sublist_nil_l).
      apply holds_enqueue.
      eapply holds_weaken; [apply IH|].
      intros _ st' (kept & queued & Heffect & Hsub & Hdetails & Hbasic & Hseen & Hlog).
      exists kept, (detail_request u product :: queued). split; [|repeat split].
      * apply (effect_trans _ _ _ _ [] _ [_] _ (effect_enqueue _ _ _ Hroom) Heffect).
      * by apply sublist_cons.
      * by constructor.
      * intros Hmode. by rewrite Hmode in Hdetail.
      * done.
      * done.
    + apply holds_bind, holds_pushData, holds_incr_saved.
      eapply holds_weaken; [apply IH|].
      intros _ st' (kept & queued & Heffect & Hsub & Hdetails & Hbasic & Hseen & Hlog).
      exists (product :: kept), queued. split; [|repeat split; try done].
      * apply (effect_trans _ _ _ _ [_] _ [] _ (effect_save _ _ _ Hroom) Heffect).
      * by apply sublist_skip.
Qed.

End Saving.

Lemma holds_bind_eq {A B} (m : M A) (f : A → M B) (st : RunState)
    (Q : outcome B → RunState → Prop) :
  (∀ o st1, m st = (o, st1) →
     match o with
     | Done a => holds (f a) st1 Q
     | Thrown => Q Thrown st1
     end) →
  holds (m ≫= f) st Q.
Proof.
  intros Hm. apply holds_bind. unfold holds at 1.
  destruct (m st) as [o st1] eqn:Hrun. by apply Hm.
Qed.

Lemma has_ids_sublist (kept l : list (gmap string value)) (ids : list string) :
  kept `sublist_of` l → has_ids l ids →
  ∃ ids', ids' `sublist_of` ids ∧ has_ids kept ids'.
Proof.
  intros Hsub. revert ids. induction Hsub as [|x k l Hsub IH|x k l Hsub IH]; intros ids Hids.
  - exists []. split; [apply sublist_nil_l|constructor].
  - apply Forall2_cons_inv_l in Hids as (id & ids1 & Hid & Hids1 & ->).
    destruct (IH _ Hids1) as (ids' & Hsub' & Hids').
    exists (id :: ids'). split; [by apply sublist_skip|by constructor].
  - apply Forall2_cons_inv_l in Hids as (id & ids1 & Hid & Hids1 & ->).
    destruct (IH _ Hids1) as (ids' & Hsub' & Hids').
    exists ids'. split; [by apply sublist_cons|done].
Qed.

Lemma fresh_sublist (seen seen' : gset string) (kept l : list (gmap string value)) :
  kept `sublist_of` l → fresh seen seen' l → fresh seen seen' kept.
Proof.
  intros Hsub [Hseen (ids & Hids & Hnodup & Hnew)]. split; [done|].
  destruct (has_ids_sublist _ _ _ Hsub Hids) as (ids' & Hsub' & Hids').
  exists ids'. split; [done|]. split; [by eapply sublist_NoDup|].
  intros id Hin. apply Hnew. by eapply elem_of_sublist.
Qed.

Lemma fresh_with_category (cfg : input) (seen seen' : gset string)
    (l : list (gmap string value)) :
  fresh seen seen' l → fresh seen seen' (with_category cfg l).
Proof.
  intros [Hseen (ids & Hids & Hnodup & Hnew)]. split; [done|].
  exists ids. split; [|done]. unfold has_ids, with_category.
  apply Forall2_fmap_l. eapply Forall2_impl; [exact Hids|].
  intros r id Hid. unfold compose. simpl in *. by rewrite lookup_insert_ne.
Qed.

Section ListHandler.
Context `{Platform} (cfg : input).

(** The LIST branch of the second revision: the records it persists come
    with new ids, the requests it enqueues are DETAIL requests and at
    most one request for a next page, which it only enqueues under the
    conditions of [next_page_of]. *)
Lemma requestHandler_LIST_spec (req : request) (w : list_fetch) (st : RunState) :
  holds (V2.requestHandler_LIST cfg req w) st (λ _ st',
    ∃ persisted queued,
      effect (V2.MAX_PRODUCTS cfg) st st' persisted queued
      ∧ fresh (seenProducts st) (seenProducts st') persisted
      ∧ Forall (λ q, match lbl q with
                     | DETAIL => collectDetails cfg = true
                     | LIST => next_page_of cfg req w st st' q
                     end) queued).
Proof.
  unfold V2.requestHandler_LIST.
  apply holds_bind_eq. intros o st1 Hfound.
  destruct (holds_run _ _ _ _ _ (productsFound_spec cfg w st) Hfound)
    as (entries & _ & Hlog & Hfresh).
  pose proof (logged_effect (V2.MAX_PRODUCTS cfg) _ _ _ Hlog) as Heffect.
  destruct o as [found|].
  2:{ exists [], []. split; [done|]. split; [|done]. apply fresh_nil, Hlog. }
  apply holds_bind.
  eapply holds_weaken; [apply save_products_spec|].
  intros o st2 (kept & queued & Hsave & Hsub & Hdetails & Hbasic & Hseen & _).
  pose proof (effect_trans _ _ _ _ _ _ _ _ Heffect Hsave) as Hboth.
  assert (fresh (seenProducts st) (seenProducts st2) (with_category cfg kept)) as Hkept.
  { rewrite Hseen. by apply fresh_with_category, (fresh_sublist _ _ _ found). }
  assert (Forall (λ q, match lbl q with
                       | DETAIL => collectDetails cfg = true
                       | LIST => next_page_of cfg req w st st2 q
                       end) queued) as Hqueued.
  { destruct (collectDetails cfg) eqn:Hmode.
    - eapply Forall_impl; [exact Hdetails|]. by intros q ->.
    - rewrite (Hbasic eq_refl). constructor. }
  assert (∀ st3, st3 = st2 →
            ∃ persisted queued',
              effect (V2.MAX_PRODUCTS cfg) st st3 persisted queued'
              ∧ fresh (seenProducts st) (seenProducts st3) persisted
              ∧ Forall (λ q, match lbl q with
                             | DETAIL => collectDetails cfg = true
                             | LIST => next_page_of cfg req w st st3 q
                             end) queued') as Hstay.
  { intros st3 ->. by exists (with_category cfg kept), queued. }
  destruct o as [[]|]; [|by apply Hstay].
  apply holds_bind, holds_read.
  destruct ((saved st2 <? V2.MAX_PRODUCTS cfg) && (page_number req <? V2.MAX_PAGES cfg)
            && negb (is_empty found)) eqn:Hcond; [|by apply holds_ret, Hstay].
  apply andb_true_iff in Hcond as [[Hroom%Z.ltb_lt Hpages%Z.ltb_lt]%andb_true_iff Hany].
  destruct (page w) as [doc|] eqn:Hpage; [|by apply holds_throw, Hstay].
  destruct (V2.findNextPage doc (url req) (page_number req)) as [nextUrl|] eqn:Hnext;
    [|by apply holds_ret, Hstay].
  destruct (truthy (VStr nextUrl) && negb (String.eqb nextUrl (url req))) eqn:Hguard;
    [|by apply holds_ret, Hstay].
  apply andb_true_iff in Hguard as [_ Hother%negb_true_iff%String.eqb_neq].
  apply holds_enqueue.
  exists (with_category cfg kept ++ []),
    (queued ++ [list_request nextUrl (page_number req + 1)]).
  split; [|split].
  - apply (effect_trans _ _ _ _ _ _ _ _ Hboth). apply effect_enqueue, Hroom.
  - by rewrite app_nil_r.
  - apply Forall_app. split.
    + eapply Forall_impl; [exact Hqueued|]. intros q. cbn beta.
      destruct (lbl q); [|done]. unfold next_page_of. by simpl.
    + constructor; [|constructor]. simpl.
      repeat split; try done.
      * exists found, st1. split; [done|]. by destruct found.
      * by exists doc.
Qed.

(** C5: when the LIST branch of the second revision enqueues a request
    for a next listing page, [saved] is below the product ceiling, the
    page number is below the page ceiling, the page just processed put at
    least one record in [productsFound], and the URL of the request, the
    one [findNextPage] returned, differs from the URL of the page just
    processed; the request carries the next page number. *)
Theorem next_page_enqueued_only_if
    (req : request) (w : list_fetch) (st : RunState) (q : request) :
  let st' := after (V2.requestHandler_LIST cfg req w) st in
  q ∈ enqueued st st' → lbl q = LIST →
  saved st' < V2.MAX_PRODUCTS cfg
  ∧ page_number req < V2.MAX_PAGES cfg
  ∧ (∃ found st1, V2.productsFound cfg w st = (Done found, st1) ∧ found ≠ [])
  ∧ url q ≠ url req
  ∧ pageNo q = page_number req + 1
  ∧ ∃ doc, page w = Some doc
           ∧ V2.findNextPage doc (url req) (page_number req) = Some (url q).
Proof.
  intros st' Hq Hlist.
  destruct (requestHandler_LIST_spec req w st)
    as (persisted & queued & Heffect & _ & Hqueued).
  fold (after (V2.requestHandler_LIST cfg req w) st) in Heffect, Hqueued.
  fold st' in Heffect, Hqueued.
  destruct Heffect as (_ & Hrequests & _).
  unfold enqueued in Hq. rewrite Hrequests, drop_app_length in Hq.
  rewrite Forall_forall in Hqueued. specialize (Hqueued q Hq).
  by rewrite Hlist in Hqueued.
Qed.

End ListHandler.

(** The loop guard at work: the start URL already carries [page=2], the
    page has no link to a next page, so the fallback of [findNextPage]
    sets [page] to [pageNo + 1 = 2] and returns the URL of the page just
    processed; no request is enqueued. *)
Example loop_guard_example :
  let req := list_request Fixtures.chairs_page_two 1 in
  let st' := after (V2.requestHandler_LIST Fixtures.basic req Fixtures.one_card_page)
               initial_state in
  V2.findNextPage {| selections := []; next_candidates := [] |} (url req) 1
  = Some (url req)
  ∧ saved st' = 1 ∧ requests st' = [].
Proof. repeat split; reflexivity. Qed.

Lemma next_page_enqueued_only_if_witness :
  let req := list_request Fixtures.chairs_url 1 in
  let q := list_request "https://www.ikea.com/gb/en/cat/chairs/?page=2" 2 in
  let st' := after (V2.requestHandler_LIST Fixtures.basic req Fixtures.one_card_page)
               initial_state in
  (q ∈ enqueued initial_state st' ∧ lbl q = LIST)
  ∧ saved st' < V2.MAX_PRODUCTS Fixtures.basic
  ∧ page_number req < V2.MAX_PAGES Fixtures.basic
  ∧ url q ≠ url req.
Proof.
  intros req q st'.
  assert (q ∈ enqueued initial_state st') as Hq by (vm_compute; apply list_elem_of_here).
  split; [by split|].
  destruct (next_page_enqueued_only_if Fixtures.basic req Fixtures.one_card_page
              initial_state q Hq eq_refl) as (Hsaved & Hpages & _ & Hurl & _).
  by repeat split.
Defined.

(** ** The search loop and the DETAIL handlers *)

Section Crawlers.
Context `{Platform} (cfg : input).

Lemma listing_effect_refl (st st' : RunState) :
  saved st' = saved st → dataset st' = dataset st → requests st' = requests st →
  seenProducts st ⊆ seenProducts st' →
  listing_effect cfg (V2.MAX_PRODUCTS cfg) st st'.
Proof.
  intros. exists [], []. split; [by apply effect_refl|].
  split; [by apply fresh_nil|constructor].
Qed.

Lemma listing_effect_trans (st st1 st2 : RunState) :
  listing_effect cfg (V2.MAX_PRODUCTS cfg) st st1 →
  listing_effect cfg (V2.MAX_PRODUCTS cfg) st1 st2 →
  listing_effect cfg (V2.MAX_PRODUCTS cfg) st st2.
Proof.
  intros (p1 & q1 & He1 & Hf1 & Hq1) (p2 & q2 & He2 & Hf2 & Hq2).
  exists (p1 ++ p2), (q1 ++ q2). split; [by eapply effect_trans|].
  split; [by eapply fresh_app|by apply Forall_app].
Qed.

Lemma sik_items_spec (items : list value) (count : Z) (st : RunState) :
  holds (V2.sik_items cfg items count) st (λ _ st',
    listing_effect cfg (V2.MAX_PRODUCTS cfg) st st').
Proof.
  revert count st. induction items as [|product rest IH]; intros count st.
  - by apply holds_ret, listing_effect_refl.
  - cbn [V2.sik_items]. apply holds_bind, holds_read.
    destruct (Z.leb_spec (V2.MAX_PRODUCTS cfg) (saved st)) as [Hfull|Hroom];
      [by apply holds_ret, listing_effect_refl|].
    apply holds_bind.
    eapply holds_weaken; [apply mapSikProduct_st_claims|].
    intros o st1 [(Hsaved & Hdata & Hreq & Hlog & Hseen) Hclaims].
    assert (listing_effect cfg (V2.MAX_PRODUCTS cfg) st st1) as Hquiet
      by by apply listing_effect_refl.
    destruct o as [[m|]|]; simpl in Hclaims; [| |done].
    2:{ eapply holds_weaken; [apply IH|]. intros ? st2. by apply listing_effect_trans. }
    apply holds_bind.
    rewrite <- Hsaved in Hroom.
    destruct (collectDetails cfg && truthy (field m "url")) eqn:Hdetail.
    + apply andb_true_iff in Hdetail as [Hmode _].
      destruct (field m "url") as [| | | |u| |];
        try (apply holds_throw; exact Hquiet).
      apply holds_enqueue.
      eapply holds_weaken; [apply IH|]. intros ? st2 Hrest.
      eapply listing_effect_trans; [|exact Hrest].
      exists [], [detail_request u m]. split; [|split].
      * apply (effect_trans _ _ _ _ [] _ [] _
                 (effect_refl _ _ _ Hsaved Hdata Hreq Hseen)
                 (effect_enqueue _ _ _ Hroom)).
      * apply fresh_nil. simpl. done.
      * by repeat constructor.
    + apply holds_bind, holds_pushData, holds_incr_saved.
      eapply holds_weaken; [apply IH|]. intros ? st2 Hrest.
      eapply listing_effect_trans; [|exact Hrest].
      exists [m], []. split; [|split].
      * apply (effect_trans _ _ _ _ [] _ [] _
                 (effect_refl _ _ _ Hsaved Hdata Hreq Hseen)
                 (effect_save _ _ _ Hroom)).
      * simpl. apply (fresh_cons _ (seenProducts st1) _ m []); [done|].
        by apply fresh_nil.
      * constructor.
Qed.

Lemma fetchViaSik_loop_spec (pages_left : nat) (sik : Z → Z → V2.sik_response)
    (offset page : Z) (total : option Z) (count : Z) (st : RunState) :
  holds (V2.fetchViaSik_loop cfg pages_left sik offset page total count) st (λ _ st',
    listing_effect cfg (V2.MAX_PRODUCTS cfg) st st').
Proof.
  revert offset page total count st.
  induction pages_left as [|n IH]; intros offset page total count st.
  - by apply holds_ret, listing_effect_refl.
  - cbn [V2.fetchViaSik_loop]. apply holds_bind, holds_read.
    destruct (_ && _ && _); [|by apply holds_ret, listing_effect_refl].
    destruct (sik offset _) as [| |items t].
    + by apply holds_throw, listing_effect_refl.
    + by apply holds_ret, listing_effect_refl.
    + destruct (is_empty items); [by apply holds_ret, listing_effect_refl|].
      apply holds_bind.
      eapply holds_weaken; [apply sik_items_spec|].
      intros [count'|] st1 Hitems; [|done].
      eapply holds_weaken; [apply IH|]. intros ? st2. by apply listing_effect_trans.
Qed.

(** [pages_left] does not cut the loop short: it ends by its own test
    before the count is used up, so that a larger count changes nothing. *)
Lemma fetchViaSik_loop_enough (n extra : nat) (sik : Z → Z → V2.sik_response)
    (offset page : Z) (total : option Z) (count : Z) (st : RunState) :
  V2.MAX_PAGES cfg - page + 1 ≤ Z.of_nat n →
  V2.fetchViaSik_loop cfg (n + extra) sik offset page total count st
  = V2.fetchViaSik_loop cfg n sik offset page total count st.
Proof.
  revert offset page total count st.
  induction n as [|n IH]; intros offset page total count st Hpages.
  - destruct extra as [|extra]; [done|].
    cbn [Nat.add V2.fetchViaSik_loop]. rewrite read_bind.
    replace (page <=? V2.MAX_PAGES cfg) with false by (symmetry; apply Z.leb_gt; lia).
    by rewrite andb_false_r.
  - cbn [Nat.add V2.fetchViaSik_loop]. rewrite !read_bind.
    destruct (_ && _ && _); [|done].
    destruct (sik offset _) as [| |items t]; [done..|].
    destruct (is_empty items); [done|].
    destruct (V2.sik_items cfg items count st) as [[count'|] st1] eqn:Hitems.
    + rewrite !(bind_done _ _ _ _ _ Hitems). apply IH. lia.
    + by rewrite !(bind_thrown _ _ _ _ Hitems).
Qed.

Lemma fetchViaSik_enough (extra : nat) (sik : Z → Z → V2.sik_response) (st : RunState) :
  V2.fetchViaSik_loop cfg (Z.to_nat (V2.MAX_PAGES cfg) + extra) sik 0 1 None 0 st
  = V2.fetchViaSik cfg sik st.
Proof.
  apply fetchViaSik_loop_enough.
  unfold V2.MAX_PAGES. destruct (maxPages cfg) as [n|]; lia.
Qed.

(** The LIST branch in the same terms. *)
Lemma requestHandler_LIST_effect (req : request) (w : list_fetch) (st : RunState) :
  holds (V2.requestHandler_LIST cfg req w) st (λ _ st',
    ∃ persisted queued,
      effect (V2.MAX_PRODUCTS cfg) st st' persisted queued
      ∧ fresh (seenProducts st) (seenProducts st') persisted
      ∧ Forall (λ q, match lbl q with
                     | DETAIL => collectDetails cfg = true
                     | LIST => pageNo q = page_number req + 1
                               ∧ page_number req < V2.MAX_PAGES cfg
                     end) queued).
Proof.
  eapply holds_weaken; [apply requestHandler_LIST_spec|].
  intros _ st' (persisted & queued & Heffect & Hfresh & Hqueued).
  exists persisted, queued. split; [done|]. split; [done|].
  eapply Forall_impl; [exact Hqueued|]. intros q. cbn beta.
  destruct (lbl q); [|done]. intros (_ & Hpages & _ & _ & Hnext & _). done.
Qed.

(** A DETAIL handler persists at most [finalProduct], and nothing once
    the ceiling is reached. *)
Lemma requestHandler_DETAIL_spec (req : request) (w : detail_fetch) (st : RunState) :
  holds (V2.requestHandler_DETAIL cfg req w) st (λ _ st',
    ∃ persisted, effect (V2.MAX_PRODUCTS cfg) st st' persisted []
                 ∧ seenProducts st' = seenProducts st).
Proof.
  unfold V2.requestHandler_DETAIL, V2.detail_check.
  apply holds_bind, holds_bind, holds_read.
  destruct (Z.leb_spec (V2.MAX_PRODUCTS cfg) (saved st)) as [Hfull|Hroom].
  - apply holds_ret, holds_ret. exists []. split; [by apply effect_refl|done].
  - apply holds_ret, holds_bind, holds_pushData, holds_incr_saved.
    eexists. split; [by apply effect_save|done].
Qed.

Lemma detailCrawler_requestHandler_spec (req : request) (w : detail_fetch)
    (st : RunState) :
  holds (V2.detailCrawler_requestHandler cfg req w) st (λ _ st',
    ∃ persisted, effect (V2.MAX_PRODUCTS cfg) st st' persisted []
                 ∧ seenProducts st' = seenProducts st).
Proof.
  unfold V2.detailCrawler_requestHandler.
  apply holds_bind, holds_read.
  destruct (Z.leb_spec (V2.MAX_PRODUCTS cfg) (saved st)) as [Hfull|Hroom].
  - apply holds_ret. exists []. split; [by apply effect_refl|done].
  - apply holds_bind, holds_pushData, holds_incr_saved.
    eexists. split; [by apply effect_save|done].
Qed.

End Crawlers.

(** ** A run, handler by handler *)

Section Run.
Context `{Platform} (cfg : input).

Lemma MAX_PRODUCTS_positive : 1 ≤ V2.MAX_PRODUCTS cfg.
Proof.
  unfold V2.MAX_PRODUCTS, MAX_SAFE_INTEGER.
  destruct (maxProducts cfg) as [n|]; [|lia]. destruct (0 <? n); lia.
Qed.

Lemma MAX_PAGES_positive : 1 ≤ V2.MAX_PAGES cfg.
Proof. unfold V2.MAX_PAGES. destruct (maxPages cfg) as [n|]; lia. Qed.

(** What one event of a run does. *)
Lemma exec_event_spec (ev : V2.event) (st st' : RunState) :
  V2.exec_event cfg ev st = Some st' →
  ∃ persisted queued,
    effect (V2.MAX_PRODUCTS cfg) st st' persisted queued
    ∧ Forall (λ q, lbl q = LIST → follows cfg st q) queued
    ∧ (collectDetails cfg = false → Forall (λ q, lbl q = LIST) (requests st) →
       fresh (seenProducts st) (seenProducts st') persisted
       ∧ Forall (λ q, lbl q = LIST) queued).
Proof.
  destruct ev as [sik|i w|i session|i w|i wl wd|i retire]; simpl.
  - intros [= <-].
    destruct (fetchViaSik_loop_spec cfg (Z.to_nat (V2.MAX_PAGES cfg)) sik 0 1 None 0 st)
      as (persisted & queued & Heffect & Hfresh & Hqueued).
    exists persisted, queued. split; [done|]. split.
    + eapply Forall_impl; [exact Hqueued|]. by intros q [-> _].
    + intros Hmode _. split; [done|].
      destruct queued as [|q queued]; [constructor|].
      apply Forall_cons in Hqueued as [[_ Hdetail] _]. congruence.
  - destruct (requests st !! i) as [q|] eqn:Hq; simpl; [|done].
    destruct (lbl q) eqn:Hlbl; [done|]. intros [= <-].
    destruct (detailCrawler_requestHandler_spec cfg q w st) as (persisted & Heffect & _).
    exists persisted, []. split; [done|]. split; [constructor|].
    intros _ Hlist. apply list_elem_of_lookup_2 in Hq.
    rewrite Forall_forall in Hlist. specialize (Hlist q Hq). congruence.
  - destruct (requests st !! i) as [q|] eqn:Hq; simpl; [|done]. intros [= <-].
    exists [], []. split; [|split; [constructor|]].
    + apply effect_refl; by destruct session.
    + intros _ _. split; [|constructor]. apply fresh_nil. by destruct session.
  - destruct (V2.initial cfg !! i) as [u|] eqn:Hu; simpl; [|done]. intros [= <-].
    destruct (requestHandler_LIST_effect cfg (list_request u 1) w st)
      as (persisted & queued & Heffect & Hfresh & Hqueued).
    exists persisted, queued. split; [done|]. split.
    + eapply Forall_impl; [exact Hqueued|]. intros q Hq Hlist. cbn beta in Hq.
      rewrite Hlist in Hq. exists (list_request u 1). split; [by left|done].
    + intros Hmode _. split; [done|].
      eapply Forall_impl; [exact Hqueued|]. intros q. cbn beta.
      destruct (lbl q); [done|congruence].
  - destruct (requests st !! i) as [q|] eqn:Hq; simpl; [|done]. intros [= <-].
    apply list_elem_of_lookup_2 in Hq. unfold V2.requestHandler.
    destruct (lbl q) eqn:Hlbl.
    + destruct (requestHandler_LIST_effect cfg q wl st)
        as (persisted & queued & Heffect & Hfresh & Hqueued).
      exists persisted, queued. split; [done|]. split.
      * eapply Forall_impl; [exact Hqueued|]. intros q' Hq' Hlist. cbn beta in Hq'.
        rewrite Hlist in Hq'. exists q. split; [by right|done].
      * intros Hmode _. split; [done|].
        eapply Forall_impl; [exact Hqueued|]. intros q'. cbn beta.
        destruct (lbl q'); [done|congruence].
    + destruct (requestHandler_DETAIL_spec cfg q wd st) as (persisted & Heffect & _).
      exists persisted, []. split; [done|]. split; [constructor|].
      intros _ Hlist. rewrite Forall_forall in Hlist. specialize (Hlist q Hq). congruence.
  - destruct (requests st !! i) as [q|] eqn:Hq; simpl; [|done]. intros [= <-].
    exists [], []. split; [|split; [constructor|]].
    + apply effect_refl; by destruct retire.
    + intros _ _. split; [|constructor]. apply fresh_nil. by destruct retire.
Qed.

Lemma exec_event_within_budget (ev : V2.event) (st st' : RunState) :
  within_budget cfg st → V2.exec_event cfg ev st = Some st' → within_budget cfg st'.
Proof.
  intros (Hcount & Hbound & Hpages) Hev.
  destruct (exec_event_spec ev st st' Hev)
    as (persisted & queued & (Hdata & Hreq & Hsaved & Hmax & _) & Hqueued & _).
  split; [|split].
  - rewrite Hsaved, Hdata, length_app. lia.
  - lia.
  - rewrite Hreq. apply Forall_app. split; [done|].
    eapply Forall_impl; [exact Hqueued|]. intros q Hq Hlist.
    destruct (Hq Hlist) as (req & Hreq' & -> & Hbelow).
    pose proof MAX_PAGES_positive.
    split; [|lia]. unfold page_number.
    destruct Hreq' as [->|[Hin Hlbl]]; [done|].
    rewrite Forall_forall in Hpages. specialize (Hpages req Hin Hlbl).
    destruct (Z.eqb_spec (pageNo req) 0); lia.
Qed.

Lemma exec_event_ledger_kept (ev : V2.event) (st st' : RunState) :
  collectDetails cfg = false →
  ledger_kept st → V2.exec_event cfg ev st = Some st' → ledger_kept st'.
Proof.
  intros Hmode [Hfresh Hlist] Hev.
  destruct (exec_event_spec ev st st' Hev)
    as (persisted & queued & (Hdata & Hreq & _) & _ & Hbasic).
  destruct (Hbasic Hmode Hlist) as [Hnew Hqueued]. split.
  - rewrite Hdata. by eapply fresh_app.
  - rewrite Hreq. by apply Forall_app.
Qed.

Lemma run_invariant (P : RunState → Prop) :
  (∀ ev st st', P st → V2.exec_event cfg ev st = Some st' → P st') →
  ∀ events st st', P st → V2.run cfg events st = Some st' → P st'.
Proof.
  intros Hstep events. induction events as [|ev rest IH]; intros st st' HP; simpl.
  - by intros [= <-].
  - destruct (V2.exec_event cfg ev st) as [st1|] eqn:Hev; simpl; [|done].
    apply IH. by eapply Hstep.
Qed.

Lemma within_budget_initial : within_budget cfg initial_state.
Proof.
  pose proof MAX_PRODUCTS_positive.
  split; [done|]. split; [simpl; lia|constructor].
Qed.

Lemma ledger_kept_initial : ledger_kept initial_state.
Proof. split; [by apply fresh_nil|constructor]. Qed.

(** C4, as the code has it: in a run in which the handlers follow one
    another, [saved] counts the persisted records and never exceeds the
    product ceiling; every request for a listing page that is enqueued
    carries a page number between 2 and the page ceiling, so that the
    pages that follow one start URL stay within the page ceiling; and once
    [saved] has reached the product ceiling no handler persists a record
    or enqueues a request. *)
Theorem budgets_hold_between_handlers (events : list V2.event) (st : RunState) :
  V2.run cfg events initial_state = Some st →
  saved st = Z.of_nat (length (dataset st))
  ∧ Z.of_nat (length (dataset st)) ≤ V2.MAX_PRODUCTS cfg
  ∧ (∀ q, q ∈ requests st → lbl q = LIST → 2 ≤ pageNo q ≤ V2.MAX_PAGES cfg)
  ∧ (∀ ev st', V2.MAX_PRODUCTS cfg ≤ saved st → V2.exec_event cfg ev st = Some st' →
               dataset st' = dataset st ∧ requests st' = requests st).
Proof.
  intros Hrun.
  destruct (run_invariant (within_budget cfg) exec_event_within_budget
              events initial_state st within_budget_initial Hrun)
    as (Hcount & Hbound & Hpages).
  split; [done|]. split; [lia|]. split.
  - rewrite Forall_forall in Hpages. exact Hpages.
  - intros ev st' Hfull Hev.
    destruct (exec_event_spec ev st st' Hev)
      as (persisted & queued & (Hdata & Hreq & _ & _ & _ & Hstop) & _).
    destruct (Hstop Hfull) as [-> ->]. by rewrite Hdata, Hreq, !app_nil_r.
Qed.

(** C2, as the code has it: claiming an id succeeds exactly when the id
    is not in the seen-set, and the id is in the seen-set afterwards;
    whatever the candidates and the order in which the search API, the
    JSON-LD and the DOM strategies submit them, duplicates included, the
    records that come out carry pairwise distinct ids; and in a run
    without detail pages the persisted records carry pairwise distinct
    ids, so that an id is persisted at most once. *)
Theorem seen_set_claims_once :
  (∀ (id : string) (seen : gset string),
     ((claim id seen).1 = true ↔ id ∉ seen) ∧ (claim id seen).2 = {[id]} ∪ seen)
  ∧ (∀ (cands : list V2.candidate) (seen : gset string),
       fresh seen (V2.submit_all cfg cands seen).2 (V2.submit_all cfg cands seen).1)
  ∧ (∀ (events : list V2.event) (st : RunState),
       collectDetails cfg = false →
       V2.run cfg events initial_state = Some st →
       ∃ ids, has_ids (dataset st) ids ∧ NoDup ids
              ∧ ∀ id, id ∈ ids → id ∈ seenProducts st).
Proof.
  split; [|split].
  - intros id seen. unfold claim. case_decide; simpl; split; try done.
    + set_solver.
  - apply submit_all_fresh.
  - intros events st Hmode Hrun.
    destruct (run_invariant ledger_kept (λ ev st st', exec_event_ledger_kept ev st st' Hmode)
                events initial_state st ledger_kept_initial Hrun)
      as [[_ (ids & Hids & Hnodup & Hseen)] _].
    exists ids. split; [done|]. split; [done|]. intros id Hin. by apply Hseen.
Qed.

(** C7, as the code has it: the DOM extractor of either revision skips a
    card whose URL has no parsable id before it touches the seen-set; a
    record that a listing strategy returns always carries a string as
    [productId], which is in the seen-set, and in a run without detail
    pages so does every persisted record. *)
Theorem unparsable_card_skipped :
  (∀ (c : card) (seen : gset string),
     (∀ a u, card_url cfg c = Some (a, u) → match_product_id u = None) →
     V1.extract_card cfg c seen = (None, seen)
     ∧ V2.extract_card cfg c seen = (None, seen))
  ∧ (∀ (cand : V2.candidate) (seen : gset string) (r : gmap string value),
       (V2.submit cfg cand seen).1 = Some r →
       ∃ id, r !! "productId" = Some (VStr id) ∧ id ∈ (V2.submit cfg cand seen).2)
  ∧ (∀ (product : value) (seen seen' : gset string) (r : gmap string value),
       V1.processApiProduct cfg product seen = (Done (Some r), seen') →
       ∃ id, r !! "productId" = Some (VStr id) ∧ id ∈ seen')
  ∧ (∀ (c : card) (seen seen' : gset string) (r : gmap string value),
       V1.extract_card cfg c seen = (Some r, seen') →
       ∃ id, r !! "productId" = Some (VStr id) ∧ id ∈ seen')
  ∧ (∀ (events : list V2.event) (st : RunState) (r : gmap string value),
       collectDetails cfg = false →
       V2.run cfg events initial_state = Some st →
       r ∈ dataset st →
       ∃ id, r !! "productId" = Some (VStr id) ∧ id ∈ seenProducts st).
Proof.
  split; [|split; [|split; [|split]]].
  - intros c seen Hnone. unfold V1.extract_card, V2.extract_card.
    destruct (card_url cfg c) as [[a u]|]; [|done].
    by rewrite (Hnone a u eq_refl).
  - intros cand seen r Hr. pose proof (submit_claims cfg cand seen) as Hclaims.
    destruct (V2.submit cfg cand seen) as [r' seen']. simpl in *. subst r'.
    destruct Hclaims as [_ (id & Hid & _ & Hin)]. by exists id.
  - intros product seen seen' r Hr.
    pose proof (processApiProduct_claims cfg product seen) as Hclaims.
    rewrite Hr in Hclaims. destruct Hclaims as [_ (id & Hid & _ & Hin)]. by exists id.
  - intros c seen seen' r Hr.
    pose proof (extract_card_V1_claims cfg c seen) as Hclaims.
    rewrite Hr in Hclaims. destruct Hclaims as [_ (id & Hid & _ & Hin)]. by exists id.
  - intros events st r Hmode Hrun Hr.
    destruct (run_invariant ledger_kept (λ ev st st', exec_event_ledger_kept ev st st' Hmode)
                events initial_state st ledger_kept_initial Hrun)
      as [[_ (ids & Hids & _ & Hseen)] _].
    apply list_elem_of_lookup in Hr as [i Hi].
    destruct (Forall2_lookup_l _ _ _ _ _ Hids Hi) as (id & Hi' & Hid).
    exists id. split; [done|]. apply Hseen. by eapply list_elem_of_lookup_2.
Qed.

(** In basic mode, what a run persists from a state on comes with ids
    that were not in the seen-set of that state. *)
Lemma run_persists_fresh (events : list V2.event) (st st' : RunState) :
  collectDetails cfg = false →
  Forall (λ q, lbl q = LIST) (requests st) →
  V2.run cfg events st = Some st' →
  ∃ added, dataset st' = dataset st ++ added
           ∧ fresh (seenProducts st) (seenProducts st') added.
Proof.
  intros Hmode. revert st. induction events as [|ev rest IH]; intros st Hlist; simpl.
  - intros [= <-]. exists []. split; [by rewrite app_nil_r|by apply fresh_nil].
  - destruct (V2.exec_event cfg ev st) as [st1|] eqn:Hev; simpl; [|done]. intros Hrun.
    destruct (exec_event_spec ev st st1 Hev)
      as (persisted & queued & (Hdata & Hreq & _) & _ & Hbasic).
    destruct (Hbasic Hmode Hlist) as [Hnew Hqueued].
    destruct (IH st1) as (added & Hdata' & Hnew'); [|done|].
    { rewrite Hreq. by apply Forall_app. }
    exists (persisted ++ added). split; [by rewrite Hdata', Hdata, app_assoc|].
    by eapply fresh_app.
Qed.

(** C9, as the code has it: in the DOM extractor of the second revision
    the id of a card is put in the seen-set before its name and price are
    looked at.  When a card whose id is new fails
    [product.name && product.price], the card is not emitted and its id
    is claimed; whatever candidates follow, from the DOM, from JSON-LD or
    from the search API, on this page or a later one, none of them is
    emitted with that id, in basic and in detailed mode; the id stays in
    the seen-set for the rest of any run; and a run in basic mode that
    goes on from a state in which the id is claimed persists no record
    with that id.  In detailed mode this last part does not hold. *)
Theorem dom_id_claimed_before_validation
    (c : card) (a : anchor) (u id : string) (seen : gset string)
    (later : list V2.candidate) :
  card_url cfg c = Some (a, u) →
  match_product_id u = Some id →
  id ∉ seen →
  truthy (card_name c a) && truthy (of_opt_num (card_price c)) = false →
  V2.extract_card cfg c seen = (None, {[id]} ∪ seen)
  ∧ (V2.submit_all cfg (V2.DomCandidate c :: later) seen).1
    = (V2.submit_all cfg later ({[id]} ∪ seen)).1
  ∧ (∀ r, r ∈ (V2.submit_all cfg (V2.DomCandidate c :: later) seen).1 →
          r !! "productId" ≠ Some (VStr id))
  ∧ (∀ events st st' r,
       collectDetails cfg = false →
       Forall (λ q, lbl q = LIST) (requests st) →
       id ∈ seenProducts st →
       V2.run cfg events st = Some st' →
       r ∈ drop (length (dataset st)) (dataset st') →
       r !! "productId" ≠ Some (VStr id))
  ∧ (∀ events st st',
       id ∈ seenProducts st → V2.run cfg events st = Some st' → id ∈ seenProducts st').
Proof.
  intros Hurl Hid Hnew Hinvalid.
  assert (V2.extract_card cfg c seen = (None, {[id]} ∪ seen)) as Hcard.
  { unfold V2.extract_card, claim. rewrite Hurl, Hid.
    rewrite decide_False by done. by rewrite Hinvalid. }
  split; [done|]. simpl. rewrite Hcard.
  pose proof (submit_all_fresh cfg later ({[id]} ∪ seen)) as Hfresh.
  destruct (V2.submit_all cfg later ({[id]} ∪ seen)) as [l seen2]. simpl in *.
  split; [done|]. split; [|split].
  - intros r Hr. eapply fresh_not_seen; [done..|set_solver].
  - intros events st st' r Hmode Hlist Hseen Hrun Hr.
    destruct (run_persists_fresh events st st' Hmode Hlist Hrun) as (added & Hdata & Hadded).
    rewrite Hdata, drop_app_length in Hr. by eapply fresh_not_seen.
  - intros events st st' Hseen. revert events st st' Hseen.
    apply (run_invariant (λ st, id ∈ seenProducts st)).
    intros ev st st' Hseen Hev.
    destruct (exec_event_spec ev st st' Hev)
      as (persisted & queued & (_ & _ & _ & _ & Hsub & _) & _).
    by apply Hsub.
Qed.

(** The three pieces of a DETAIL handler run one after the other are the
    handler. *)
Lemma resume_to_completion (req : request) (w : detail_fetch) (st : RunState) :
  (V2.interleave cfg [0; 0; 0]%nat (st, [V2.Fetched req w])).1
  = after (V2.requestHandler_DETAIL cfg req w) st.
Proof.
  unfold V2.interleave, after. cbn [foldl]. unfold V2.resume_nth at 3.
  cbn [snd fst lookup list_lookup V2.resume]. rewrite read_bind.
  assert (V2.detail_check cfg req w st =
          if V2.MAX_PRODUCTS cfg <=? saved st then (Done None, st)
          else (Done (Some (V2.finalProduct cfg req w)), st)) as Hcheck.
  { unfold V2.detail_check. rewrite read_bind. by destruct (_ <=? _). }
  unfold V2.requestHandler_DETAIL.
  destruct (V2.MAX_PRODUCTS cfg <=? saved st);
    by rewrite (bind_done _ _ _ _ _ Hcheck).
Qed.

End Run.

Lemma budgets_hold_between_handlers_witness :
  let events := [V2.HtmlStart 0 Fixtures.one_card_page] in
  let st := default initial_state (V2.run Fixtures.basic events initial_state) in
  V2.run Fixtures.basic events initial_state = Some st
  ∧ saved st = 1
  ∧ Z.of_nat (length (dataset st)) ≤ V2.MAX_PRODUCTS Fixtures.basic.
Proof.
  intros events st.
  assert (V2.run Fixtures.basic events initial_state = Some st) as Hrun
    by (vm_compute; reflexivity).
  split; [exact Hrun|].
  destruct (budgets_hold_between_handlers Fixtures.basic events st Hrun)
    as (_ & Hbound & _).
  split; [vm_compute; reflexivity|exact Hbound].
Defined.

(** C4 fails on the page ceiling: with two start URLs and a ceiling of
    one page, two listing pages are processed. *)
Lemma two_start_urls_exceed_page_ceiling :
  ∃ st,
    V2.run Fixtures.two_starts
      [V2.HtmlStart 0 Fixtures.one_card_page; V2.HtmlStart 1 Fixtures.nothing_fetched]
      initial_state = Some st
    ∧ V2.MAX_PAGES Fixtures.two_starts = 1
    ∧ listing_pages (log st) = 2%nat.
Proof. eexists. repeat split; reflexivity. Qed.

(** When two DETAIL handlers are in flight, each can pass the budget test
    before the other has counted its record: with a ceiling of one product
    two records are persisted. *)
Lemma concurrent_details_exceed_product_ceiling :
  let first := detail_request Fixtures.product_url Fixtures.listed in
  let second := detail_request Fixtures.table_url Fixtures.listed_table in
  let w := Fixtures.at_noon (Some Fixtures.blank_page) in
  let pool := V2.interleave Fixtures.detailed_one [0; 1; 0; 1; 0; 1]%nat
                (initial_state, [V2.Fetched first w; V2.Fetched second w]) in
  V2.MAX_PRODUCTS Fixtures.detailed_one = 1
  ∧ length (dataset pool.1) = 2%nat
  ∧ saved pool.1 = 2
  ∧ pool.2 = [V2.Returned; V2.Returned].
Proof. repeat split; reflexivity. Qed.

Lemma seen_set_claims_once_witness :
  let events := [V2.HtmlStart 0 Fixtures.one_card_page; V2.HtmlStart 0 Fixtures.one_card_page] in
  let st := default initial_state (V2.run Fixtures.basic events initial_state) in
  (collectDetails Fixtures.basic = false
   ∧ V2.run Fixtures.basic events initial_state = Some st)
  ∧ ∃ ids, has_ids (dataset st) ids ∧ NoDup ids ∧ length ids = 1%nat.
Proof.
  intros events st.
  assert (V2.run Fixtures.basic events initial_state = Some st) as Hrun
    by (vm_compute; reflexivity).
  split; [by split|].
  destruct (proj2 (proj2 (seen_set_claims_once Fixtures.basic)) events st eq_refl Hrun)
    as (ids & Hids & Hnodup & _).
  exists ids. split; [done|]. split; [done|].
  apply Forall2_length in Hids. by rewrite <- Hids.
Defined.

(** C2 fails on the code when detail pages are collected: the search API
    lists two products with different item numbers, both are claimed and
    queued, and the merge replaces the [productId] of each by the number
    its page URL ends in, which is the same: two records are persisted
    with the id ["999"]. *)
Lemma detail_merge_duplicates_id :
  ∃ st r1 r2,
    V2.run Fixtures.detailed
      [V2.SikSearch (Fixtures.sik_answers [Fixtures.sik_first; Fixtures.sik_second]);
       V2.DetailCrawl 0 (Fixtures.at_noon (Some Fixtures.blank_page));
       V2.DetailCrawl 1 (Fixtures.at_noon (Some Fixtures.blank_page))]
      initial_state = Some st
    ∧ dataset st = [r1; r2]
    ∧ r1 !! "productId" = Some (VStr "999")
    ∧ r2 !! "productId" = Some (VStr "999")
    ∧ seenProducts st = {["111"; "222"]}.
Proof. do 3 eexists. repeat split; reflexivity. Qed.

Lemma unparsable_card_skipped_witness :
  let c := {| card_links := [{| href := Some "/gb/en/p/pax-wardrobe-white-s49275006/";
                                aria_name := None |}];
              card_names := ["PAX"]; card_price := Some 10%float; card_images := [];
              card_rating := None; card_reviews := None |} in
  (∀ a u, card_url Fixtures.basic c = Some (a, u) → match_product_id u = None)
  ∧ V2.extract_card Fixtures.basic c ∅ = (None, ∅).
Proof.
  intros c.
  assert (∀ a u, card_url Fixtures.basic c = Some (a, u) → match_product_id u = None)
    as Hnone by (intros a u [= <- <-]; reflexivity).
  split; [exact Hnone|].
  exact (proj2 (proj1 (unparsable_card_skipped Fixtures.basic) c ∅ Hnone)).
Defined.

(** C7 fails on the code: the page URL of a product of the search API has
    no parsable id; the product is claimed under its item number all the
    same, its page is fetched, and the merged record is persisted with
    [productId: null]. *)
Lemma unparsable_url_persisted_with_null_id :
  ∃ st q r,
    V2.run Fixtures.detailed
      [V2.SikSearch (Fixtures.sik_answers [Fixtures.sik_combination]);
       V2.DetailCrawl 0 (Fixtures.at_noon (Some Fixtures.blank_page))]
      initial_state = Some st
    ∧ requests st = [q]
    ∧ match_product_id (url q) = None
    ∧ seenProducts st = {["49275006"]}
    ∧ dataset st = [r]
    ∧ r !! "productId" = Some VNull.
Proof. do 3 eexists. repeat split; reflexivity. Qed.

Lemma dom_id_claimed_before_validation_witness :
  let later := [V2.DomCandidate Fixtures.named_card] in
  let u := "https://www.ikea.com/gb/en/p/chair-white-123/" in
  let a := {| href := Some "/gb/en/p/chair-white-123/"; aria_name := None |} in
  (card_url Fixtures.basic Fixtures.nameless_card = Some (a, u)
   ∧ match_product_id u = Some "123"
   ∧ ("123" ∉ (∅ : gset string))
   ∧ truthy (card_name Fixtures.nameless_card a)
     && truthy (of_opt_num (card_price Fixtures.nameless_card)) = false)
  ∧ V2.extract_card Fixtures.basic Fixtures.nameless_card ∅ = (None, {["123"]} ∪ ∅)
  ∧ (V2.submit_all Fixtures.basic (V2.DomCandidate Fixtures.nameless_card :: later) ∅).1
    = [].
Proof.
  intros later u a.
  assert (card_url Fixtures.basic Fixtures.nameless_card = Some (a, u)) as Hurl
    by reflexivity.
  assert (match_product_id u = Some "123") as Hid by reflexivity.
  assert ("123" ∉ (∅ : gset string)) as Hnew by set_solver.
  assert (truthy (card_name Fixtures.nameless_card a)
          && truthy (of_opt_num (card_price Fixtures.nameless_card)) = false) as Hinvalid
    by reflexivity.
  split; [done|].
  destruct (dom_id_claimed_before_validation Fixtures.basic Fixtures.nameless_card
              a u "123" ∅ later Hurl Hid Hnew Hinvalid) as (Hcard & Hlater & _ & _).
  split; [exact Hcard|]. rewrite Hlater. vm_compute. reflexivity.
Defined.

(** C9 fails on the code in detailed mode.  The first listing page shows
    the chair without a name: its id ["123"] is claimed and no record is
    emitted for it, while the table is queued and the next page is asked
    for.  The JSON-LD of the second page lists the chair under the id
    ["001.23"] with the URL of the same product page; that id is new, so
    the product page is queued, and the merge takes the [productId] from
    the URL again without a look at the seen-set: a record with the
    claimed id ["123"] is persisted. *)
Lemma claimed_id_persisted_in_detailed_mode :
  let product_page := Fixtures.at_noon (Some Fixtures.blank_page) in
  let first := V2.run Fixtures.detailed [V2.HtmlStart 0 Fixtures.first_listing]
                 initial_state in
  let whole := V2.run Fixtures.detailed
                 [V2.HtmlStart 0 Fixtures.first_listing;
                  V2.HtmlQueued 1 Fixtures.second_listing product_page;
                  V2.HtmlQueued 2 Fixtures.nothing_fetched product_page]
                 initial_state in
  V2.extract_card Fixtures.detailed Fixtures.nameless_card ∅ = (None, {["123"]} ∪ ∅)
  ∧ (∃ st, first = Some st ∧ "123" ∈ seenProducts st ∧ dataset st = []
           ∧ (lbl <$> requests st) = [DETAIL; LIST])
  ∧ ∃ st r, whole = Some st ∧ dataset st = [r]
            ∧ r !! "productId" = Some (VStr "123")
            ∧ r !! "url" = Some (VStr "https://www.ikea.com/gb/en/p/chair-white-123/").
Proof.
  intros product_page first whole. split; [reflexivity|]. split.
  - eexists. split; [reflexivity|]. split; [|split; reflexivity].
    vm_compute seenProducts. set_solver.
  - do 2 eexists. repeat split; reflexivity.
Qed.

(** * Further properties of the code *)

(** ** The product-id pattern, read against the regular expression *)

Lemma take_digits_all_digits (s : string) : all_digits (take_digits s) = true.
Proof.
  induction s as [|c r IH]; simpl; [done|].
  destruct (is_digit c) eqn:Hc; simpl; [by rewrite Hc|done].
Qed.

Lemma take_digits_split (s : string) :
  ∃ rest, s = take_digits s +:+ rest ∧ starts_with_digit rest = false.
Proof.
  induction s as [|c r IH]; simpl.
  - by exists "".
  - destruct (is_digit c) eqn:Hc.
    + destruct IH as (rest & Hr & Hrest). exists rest. split; [|done].
      change (String c r = String c (take_digits r +:+ rest)). by f_equal.
    + exists (String c r). split; [done|]. simpl. done.
Qed.

Lemma take_digits_of_digits (d rest : string) :
  all_digits d = true → starts_with_digit rest = false →
  take_digits (d +:+ rest) = d.
Proof.
  intros Hd Hrest. induction d as [|c r IH]; simpl in *.
  - destruct rest as [|c r]; simpl in *; [done|]. by rewrite Hrest.
  - apply andb_true_iff in Hd as [-> Hr]. by rewrite IH.
Qed.

Lemma is_dash_eq (c : ascii) : is_dash c = true → c = "-"%char.
Proof. unfold is_dash. apply Ascii.eqb_eq. Qed.

Lemma scan_segment_sound (seg : string) (first : bool) (acc : option string) (d : string) :
  scan_segment first seg acc = Some d →
  acc = Some d ∨
  ∃ s1 rest, seg = s1 +:+ "-" +:+ d +:+ rest
    ∧ slash_free s1 = true ∧ (first = true → s1 ≠ "")
    ∧ d ≠ "" ∧ all_digits d = true ∧ starts_with_digit rest = false.
Proof.
  revert first acc. induction seg as [|c r IH]; intros first acc; simpl.
  - by left.
  - destruct (is_slash c) eqn:Hslash; [by left|].
    intros Hscan.
    apply IH in Hscan as [Hacc|(s1 & rest & -> & Hfree & _ & Hd & Hdig & Hrest)].
    + destruct (negb first && is_dash c && starts_with_digit r) eqn:Hcond; [|by left].
      right. apply andb_true_iff in Hcond as [[Hfirst Hdash]%andb_true_iff Hstart].
      injection Hacc as <-. apply is_dash_eq in Hdash as ->.
      destruct (take_digits_split r) as (rest & Hr & Hrest).
      exists "", rest. split; [simpl; by rewrite <- Hr|].
      split; [done|]. split; [by destruct first|].
      split; [by apply take_digits_nonempty|].
      split; [apply take_digits_all_digits|done].
    + right. exists (String c s1), rest. simpl. rewrite Hslash.
      by repeat split.
Qed.

Lemma has_p_prefix_split (s : string) :
  has_p_prefix s = true → s = "/p/" +:+ after_p s.
Proof.
  destruct s as [|a [|b [|c r]]]; simpl; try done.
  intros [[->%Ascii.eqb_eq ->%Ascii.eqb_eq]%andb_true_iff ->%Ascii.eqb_eq]%andb_true_iff.
  done.
Qed.

(** X1: an id that the pattern [/\/p\/[^/]+-(\d+)\/?/] captures in a URL
    is a non-empty string of decimal digits, and it stands in the URL where
    the pattern says: after [/p/], at least one character of the same path
    segment and a dash, and it is the whole run of digits there. *)
Theorem match_product_id_sound (u d : string) :
  match_product_id u = Some d →
  d ≠ "" ∧ all_digits d = true
  ∧ ∃ pre seg rest,
      u = pre +:+ "/p/" +:+ seg +:+ "-" +:+ d +:+ rest
      ∧ seg ≠ "" ∧ slash_free seg = true ∧ starts_with_digit rest = false.
Proof.
  induction u as [|c r IH]; [done|].
  rewrite match_product_id_cons.
  destruct (has_p_prefix (String c r)) eqn:Hp.
  - destruct (scan_segment true _ None) as [d'|] eqn:Hscan.
    + intros [= ->].
      apply scan_segment_sound in Hscan
        as [?|(s1 & rest & Hseg & Hfree & Hfirst & Hd & Hdig & Hrest)]; [done|].
      split; [done|]. split; [done|].
      exists "", s1, rest. split; [|by auto].
      by rewrite (has_p_prefix_split _ Hp), Hseg.
    + intros Hr. destruct (IH Hr) as (Hd & Hdig & pre & seg & rest & -> & Hrest).
      split; [done|]. split; [done|]. by exists (String c pre), seg, rest.
  - intros Hr. destruct (IH Hr) as (Hd & Hdig & pre & seg & rest & -> & Hrest).
    split; [done|]. split; [done|]. by exists (String c pre), seg, rest.
Qed.

Lemma match_product_id_sound_witness :
  match_product_id "https://www.ikea.com/gb/en/p/billy-bookcase-white-00263850/"
  = Some "00263850"
  ∧ all_digits "00263850" = true.
Proof.
  assert (match_product_id "https://www.ikea.com/gb/en/p/billy-bookcase-white-00263850/"
          = Some "00263850") as Hid by reflexivity.
  split; [exact Hid|].
  exact (proj1 (proj2 (match_product_id_sound _ _ Hid))).
Defined.

Lemma scan_segment_keeps (seg : string) (first : bool) (d : string) :
  ∃ d', scan_segment first seg (Some d) = Some d'.
Proof.
  revert first d. induction seg as [|c r IH]; intros first d; simpl; [by eexists|].
  destruct (is_slash c); [by eexists|].
  destruct (negb first && is_dash c && starts_with_digit r); apply IH.
Qed.

Lemma starts_with_digit_app (d rest : string) :
  d ≠ "" → all_digits d = true → starts_with_digit (d +:+ rest) = true.
Proof.
  destruct d as [|c r]; [done|]. simpl. by intros _ [? _]%andb_true_iff.
Qed.

Lemma scan_segment_dash (r : string) (acc : option string) :
  scan_segment false ("-" +:+ r) acc
  = scan_segment false r (if starts_with_digit r then Some (take_digits r) else acc).
Proof. reflexivity. Qed.

Lemma scan_segment_complete (seg d rest : string) (first : bool) (acc : option string) :
  slash_free seg = true → (first = true → seg ≠ "") →
  d ≠ "" → all_digits d = true →
  ∃ d', scan_segment first (seg +:+ "-" +:+ d +:+ rest) acc = Some d'.
Proof.
  intros Hfree Hfirst Hd Hdig. revert first acc Hfree Hfirst.
  induction seg as [|c r IH]; intros first acc Hfree Hfirst.
  - destruct first; [by destruct Hfirst|].
    change ("" +:+ "-" +:+ d +:+ rest) with ("-" +:+ d +:+ rest).
    rewrite scan_segment_dash, (starts_with_digit_app _ _ Hd Hdig).
    apply scan_segment_keeps.
  - simpl in *. apply andb_true_iff in Hfree as [Hc Hr].
    apply negb_true_iff in Hc. rewrite Hc. by apply IH.
Qed.

Lemma match_product_id_later (c : ascii) (r : string) :
  (∃ d, match_product_id r = Some d) → ∃ d, match_product_id (String c r) = Some d.
Proof.
  intros [d Hd]. rewrite match_product_id_cons.
  destruct (if has_p_prefix (String c r) then _ else _); [by eexists|by exists d].
Qed.

(** X2: the pattern finds an id in every URL that has, somewhere, [/p/]
    followed by at least one character other than a slash, a dash and a
    digit. *)
Theorem match_product_id_complete (pre seg d rest : string) :
  seg ≠ "" → slash_free seg = true → d ≠ "" → all_digits d = true →
  ∃ d', match_product_id (pre +:+ "/p/" +:+ seg +:+ "-" +:+ d +:+ rest) = Some d'.
Proof.
  intros Hseg Hfree Hd Hdig. induction pre as [|c r IH].
  - destruct (scan_segment_complete seg d rest true None Hfree (λ _, Hseg) Hd Hdig)
      as [d' Hscan].
    exists d'. change ("" +:+ "/p/" +:+ seg +:+ "-" +:+ d +:+ rest)
      with (String "/" (String "p" (String "/" (seg +:+ "-" +:+ d +:+ rest)))).
    rewrite match_product_id_cons. simpl. by rewrite Hscan.
  - apply match_product_id_later, IH.
Qed.

Lemma match_product_id_complete_witness :
  ∃ d', match_product_id ("https://www.ikea.com/gb/en" +:+ "/p/" +:+ "x-chair" +:+ "-"
                          +:+ "123" +:+ "/") = Some d'.
Proof. by apply (match_product_id_complete _ "x-chair" "123" "/"). Defined.

Lemma scan_segment_quiet (s : string) (acc : option string) :
  no_later_dash s = true → scan_segment false s acc = acc.
Proof.
  revert acc. induction s as [|c r IH]; intros acc; simpl; [done|].
  destruct (is_slash c); [done|]. simpl.
  intros [Hc Hr]%andb_true_iff. apply negb_true_iff in Hc. rewrite Hc. by apply IH.
Qed.

Lemma is_digit_not_dash (c : ascii) : is_digit c = true → is_dash c = false.
Proof.
  unfold is_digit, is_dash. intros Hc.
  destruct (Ascii.eqb_spec c "-") as [->|]; [done|done].
Qed.

Lemma is_digit_not_slash (c : ascii) : is_digit c = true → is_slash c = false.
Proof.
  unfold is_digit, is_slash. intros Hc.
  destruct (Ascii.eqb_spec c "/") as [->|]; [done|done].
Qed.

Lemma no_later_dash_digits (d rest : string) :
  all_digits d = true → no_later_dash rest = true → no_later_dash (d +:+ rest) = true.
Proof.
  intros Hd Hrest. induction d as [|c r IH]; simpl in *; [done|].
  apply andb_true_iff in Hd as [Hc Hr].
  rewrite (is_digit_not_dash _ Hc), (is_digit_not_slash _ Hc). simpl. by apply IH.
Qed.

Lemma scan_segment_last_dash (seg d rest : string) (first : bool) (acc : option string) :
  slash_free seg = true → (first = true → seg ≠ "") →
  d ≠ "" → all_digits d = true →
  starts_with_digit rest = false → no_later_dash rest = true →
  scan_segment first (seg +:+ "-" +:+ d +:+ rest) acc = Some d.
Proof.
  intros Hfree Hfirst Hd Hdig Hrest Hquiet. revert first acc Hfree Hfirst.
  induction seg as [|c r IH]; intros first acc Hfree Hfirst.
  - destruct first; [by destruct Hfirst|].
    change ("" +:+ "-" +:+ d +:+ rest) with ("-" +:+ d +:+ rest).
    rewrite scan_segment_dash, (starts_with_digit_app _ _ Hd Hdig),
      (take_digits_of_digits _ _ Hdig Hrest).
    apply scan_segment_quiet. by apply no_later_dash_digits.
  - simpl in *. apply andb_true_iff in Hfree as [Hc Hr].
    apply negb_true_iff in Hc. rewrite Hc. by apply IH.
Qed.

Lemma prefix_cons (a b : ascii) (s r : string) :
  String.prefix (String a s) (String b r) = Ascii.eqb a b && String.prefix s r.
Proof.
  simpl. destruct (Ascii.ascii_dec a b) as [->|Hne]; [by rewrite Ascii.eqb_refl|].
  by apply Ascii.eqb_neq in Hne as ->.
Qed.

Lemma has_p_prefix_prefix (s : string) : has_p_prefix s = String.prefix "/p/" s.
Proof.
  destruct s as [|a [|b [|c r]]]; rewrite ?prefix_cons; cbn [has_p_prefix].
  - done.
  - by rewrite andb_false_r.
  - by rewrite !andb_false_r.
  - rewrite (Ascii.eqb_sym a), (Ascii.eqb_sym b), (Ascii.eqb_sym c).
    replace (String.prefix "" r) with true by (by destruct r).
    by rewrite andb_true_r, !andb_assoc.
Qed.

(** Whether [/p/] starts at the head of a string is decided by its first
    three characters. *)
Lemma has_p_prefix_head (c : ascii) (r tail : string) :
  has_p_prefix (String c r +:+ "/p") = false →
  has_p_prefix (String c r +:+ "/p/" +:+ tail) = false.
Proof. by destruct r as [|b [|b' r]]. Qed.

(** X3: for a URL with a single [/p/], followed by the slug, a dash, the
    digits and then no other dash before a digit in the same path segment,
    the id is exactly these digits: the pattern takes the last dash of the
    segment that a digit follows, and all the digits after it. *)
Theorem match_product_id_exact (pre seg d rest : string) :
  includes "/p/" (pre +:+ "/p") = false →
  seg ≠ "" → slash_free seg = true → d ≠ "" → all_digits d = true →
  starts_with_digit rest = false → no_later_dash rest = true →
  match_product_id (pre +:+ "/p/" +:+ seg +:+ "-" +:+ d +:+ rest) = Some d.
Proof.
  intros Hpre Hseg Hfree Hd Hdig Hrest Hquiet. induction pre as [|c r IH].
  - change ("" +:+ "/p/" +:+ seg +:+ "-" +:+ d +:+ rest)
      with (String "/" (String "p" (String "/" (seg +:+ "-" +:+ d +:+ rest)))).
    rewrite match_product_id_cons.
    change (has_p_prefix _) with true. cbn [after_p].
    by rewrite (scan_segment_last_dash seg d rest true None).
  - cbn [includes] in Hpre. apply orb_false_iff in Hpre as [Hhere Hlater].
    change (String c r +:+ "/p/" +:+ seg +:+ "-" +:+ d +:+ rest)
      with (String c (r +:+ "/p/" +:+ seg +:+ "-" +:+ d +:+ rest)).
    rewrite match_product_id_cons.
    change (String c (r +:+ "/p/" +:+ seg +:+ "-" +:+ d +:+ rest))
      with (String c r +:+ "/p/" +:+ seg +:+ "-" +:+ d +:+ rest).
    rewrite has_p_prefix_head; [by apply IH|].
    by rewrite has_p_prefix_prefix.
Qed.

Lemma match_product_id_exact_witness :
  match_product_id ("https://www.ikea.com/gb/en" +:+ "/p/" +:+ "lack-side-table-55x55-black"
                    +:+ "-" +:+ "20011408" +:+ "/#content") = Some "20011408".
Proof.
  by apply (match_product_id_exact "https://www.ikea.com/gb/en"
              "lack-side-table-55x55-black" "20011408" "/#content").
Defined.

(** ** The loops over the selectors of a card *)

(** X4: the image of a card is what the first image selector with a
    usable source gives, a source that is set and names neither a spacer
    nor a placeholder.  When no selector has one, the image is not reset:
    it is whatever the last selector gave, a spacer, a placeholder or
    [undefined], and [null] only when there is no selector at all. *)
Theorem card_image_first_usable (imgs : list img) (image : value) :
  (∃ before i after,
     imgs = before ++ i :: after
     ∧ Forall (λ j, usable_image (img_value j) = false) before
     ∧ usable_image (img_value i) = true
     ∧ card_image imgs image = img_value i)
  ∨ (Forall (λ j, usable_image (img_value j) = false) imgs
     ∧ card_image imgs image = default image (img_value <$> last imgs)).
Proof.
  revert image. induction imgs as [|i rest IH]; intros image.
  - right. by split.
  - cbn [card_image]. destruct (usable_image (img_value i)) eqn:Husable.
    + left. exists [], i, rest. by repeat split.
    + destruct (IH (img_value i))
        as [(before & j & after & -> & Hbefore & Hj & ->)|[Hnone ->]].
      * left. exists (i :: before), j, after. repeat split; [|done].
        by constructor.
      * right. split; [by constructor|].
        rewrite last_cons. by destruct (last rest).
Qed.

Section DomRecords.
Context `{Platform} (cfg : input).

(** X5: a record that the DOM extractor of the first or of the second
    revision emits carries its URL and, as [productId], the id that the
    pattern finds in this URL; the request for its product page is made
    for this URL, so that the merge of the second revision, which parses
    the id from the request URL again, leaves the [productId] as it is,
    whatever the product page shows. *)
Theorem dom_record_id_of_url (c : card) (seen seen' : gset string) (r : gmap string value) :
  V1.extract_card cfg c seen = (Some r, seen')
  ∨ V2.extract_card cfg c seen = (Some r, seen') →
  ∃ u id,
    r !! "url" = Some (VStr u) ∧ r !! "productId" = Some (VStr id)
    ∧ match_product_id u = Some id
    ∧ ∀ w, V2.finalProduct cfg (detail_request u r) w !! "productId" = Some (VStr id).
Proof.
  intros Hcard.
  assert (∃ u id, r !! "url" = Some (VStr u) ∧ r !! "productId" = Some (VStr id)
                  ∧ match_product_id u = Some id) as (u & id & Hurl & Hid & Hmatch).
  { destruct Hcard as [Hcard|Hcard];
      [unfold V1.extract_card in Hcard|unfold V2.extract_card in Hcard].
    all: destruct (card_url cfg c) as [[a u]|]; [|done].
    all: destruct (match_product_id u) as [id|] eqn:Hmatch; [|done].
    all: destruct (claim id seen) as [[] seen1]; [|done].
    all: match type of Hcard with
         | ((if ?b then _ else _), _) = _ => destruct b; [|done]
         end.
    all: injection Hcard as <- <-; by exists u, id. }
  exists u, id. split; [done|]. split; [done|]. split; [done|].
  intros w. unfold V2.finalProduct. rewrite !lookup_insert_ne by done.
  change (default ∅ (baseData (detail_request u r))) with r.
  change (url (detail_request u r)) with u.
  destruct (detail_page w) as [d|]; [|done].
  destruct (extractProductDetails_keys u d) as (data & -> & Hkeys).
  destruct Hkeys as (_ & _ & _ & _ & Hdata & _).
  cbn [V2.spread]. rewrite lookup_union, Hdata, Hid, Hmatch. simpl.
  unfold jor. destruct (truthy (VStr id)) eqn:Hempty; [done|].
  apply match_product_id_nonempty in Hmatch.
  simpl in Hempty. apply negb_false_iff, String.eqb_eq in Hempty. done.
Qed.

End DomRecords.

Lemma dom_record_id_of_url_witness :
  let r := default ∅ (V2.extract_card Fixtures.basic Fixtures.named_card ∅).1 in
  V2.extract_card Fixtures.basic Fixtures.named_card ∅ = (Some r, {["123"]} ∪ ∅)
  ∧ ∃ u id, r !! "url" = Some (VStr u) ∧ match_product_id u = Some id.
Proof.
  intros r.
  assert (V2.extract_card Fixtures.basic Fixtures.named_card ∅ = (Some r, {["123"]} ∪ ∅))
    as Hcard by reflexivity.
  split; [exact Hcard|].
  destruct (dom_record_id_of_url Fixtures.basic Fixtures.named_card ∅ ({["123"]} ∪ ∅) r
              (or_intror Hcard)) as (u & id & Hurl & _ & Hmatch & _).
  by exists u, id.
Defined.

(** ** The bodies of the internal API *)

Section InternalApi.

Lemma nonempty_array_inv (v : value) (l : list value) :
  nonempty_array v = Some l → v = VArr l ∧ l ≠ [].
Proof. destruct v as [| | | | |[|x r]|]; simpl; try done. by intros [= <-]. Qed.

(** X6: [tryInternalApi] returns the array of the first endpoint that
    answers with a body in which the first truthy value among the key
    paths is a non-empty array, whatever the endpoints after it answer,
    and [null] when no endpoint does; it never throws and it returns
    nothing else.  An empty array is truthy: when
    [productWindow.products] is [[]], the products that the body lists
    under another key are not found, and the next endpoint is tried. *)
Theorem tryInternalApi_first_array (page : Z) (st : RunState) :
  (∀ (before after : list (option value)) (data : value) (products : list value),
     Forall (λ r, r ≫= (λ d, nonempty_array (V1.api_products d)) = None) before →
     V1.api_products data = VArr products → products ≠ [] →
     (V1.tryInternalApi page (before ++ Some data :: after) st).1 = Done (Some products))
  ∧ (∀ responses : list (option value),
       Forall (λ r, r ≫= (λ d, nonempty_array (V1.api_products d)) = None) responses ↔
       (V1.tryInternalApi page responses st).1 = Done None)
  ∧ (∀ (responses : list (option value)) (products : list value),
       (V1.tryInternalApi page responses st).1 = Done (Some products) →
       products ≠ []
       ∧ ∃ before data after,
           responses = before ++ Some data :: after
           ∧ V1.api_products data = VArr products
           ∧ Forall (λ r, r ≫= (λ d, nonempty_array (V1.api_products d)) = None) before)
  ∧ (∀ responses : list (option value),
       ∃ result, (V1.tryInternalApi page responses st).1 = Done result)
  ∧ (∀ data : value,
       get_opt (get_opt data "productWindow") "products" = VArr [] →
       V1.api_products data = VArr []
       ∧ ∀ after, V1.tryInternalApi page (Some data :: after) st
                  = V1.tryInternalApi page after st).
Proof.
  assert (∀ responses,
            V1.tryInternalApi page responses st
            = (Done (V1.first_api_products responses), add_log (ApiAttempt page) st))
    as Hrun by done.
  assert (∀ responses products,
            V1.first_api_products responses = Some products →
            products ≠ []
            ∧ ∃ before data after,
                responses = before ++ Some data :: after
                ∧ V1.api_products data = VArr products
                ∧ Forall (λ r, r ≫= (λ d, nonempty_array (V1.api_products d)) = None)
                    before) as Hsound.
  { intros responses. induction responses as [|r rest IH]; intros products; [done|].
    cbn [V1.first_api_products].
    destruct (r ≫= _) as [found|] eqn:Hr.
    - intros [= ->]. destruct r as [data|]; [|done]. simpl in Hr.
      apply nonempty_array_inv in Hr as [Harr Hne]. split; [done|].
      exists [], data, rest. by repeat split.
    - intros Hrest.
      destruct (IH _ Hrest) as (Hne & before & data & after & -> & Hdata & Hbefore).
      split; [done|]. exists (r :: before), data, after. repeat split; [done|].
      by constructor. }
  assert (∀ before rest,
            Forall (λ r, r ≫= (λ d, nonempty_array (V1.api_products d)) = None) before →
            V1.first_api_products (before ++ rest) = V1.first_api_products rest)
    as Hskip.
  { intros before rest Hbefore. induction Hbefore as [|r before Hr _ IH]; [done|].
    cbn [app V1.first_api_products]. by rewrite Hr. }
  split; [|split; [|split; [|split]]].
  - intros before after data products Hbefore Hdata Hne.
    rewrite Hrun. cbn [fst]. rewrite (Hskip _ _ Hbefore).
    cbn [V1.first_api_products]. simpl. rewrite Hdata.
    destruct products as [|p ps]; done.
  - intros responses. rewrite Hrun. cbn [fst]. split.
    + intros Hnone. rewrite <- (app_nil_r responses). by rewrite (Hskip _ _ Hnone).
    + intros [= Hnone]. induction responses as [|r rest IH]; [constructor|].
      cbn [V1.first_api_products] in Hnone.
      destruct (r ≫= _) as [found|] eqn:Hr; [done|]. constructor; [done|by apply IH].
  - intros responses products. rewrite Hrun. cbn [fst]. intros [= Hsome].
    by apply Hsound.
  - intros responses. rewrite Hrun. by eexists.
  - intros data Hempty.
    assert (V1.api_products data = VArr []) as Hproducts.
    { unfold V1.api_products. rewrite Hempty. reflexivity. }
    split; [done|]. intros after. rewrite !Hrun. cbn [V1.first_api_products]. simpl.
    by rewrite Hproducts.
Qed.

End InternalApi.

Lemma tryInternalApi_first_array_witness :
  let hidden := VObj (list_to_map
                  [("productWindow", VObj (list_to_map [("products", VArr [])]));
                   ("products", VArr [Fixtures.chair])]) in
  let listed := VObj (list_to_map [("products", VArr [Fixtures.chair])]) in
  (Forall (λ r, r ≫= (λ d, nonempty_array (V1.api_products d)) = None)
     [None; Some hidden]
   ∧ V1.api_products listed = VArr [Fixtures.chair])
  ∧ (V1.tryInternalApi 1 [None; Some hidden; Some listed; None] initial_state).1
    = Done (Some [Fixtures.chair]).
Proof.
  intros hidden listed.
  assert (Forall (λ r, r ≫= (λ d, nonempty_array (V1.api_products d)) = None)
            [None; Some hidden]) as Hbefore by (repeat constructor).
  assert (V1.api_products listed = VArr [Fixtures.chair]) as Hlisted by reflexivity.
  split; [by split|].
  exact (proj1 (tryInternalApi_first_array 1 initial_state)
           [None; Some hidden] [None] listed [Fixtures.chair] Hbefore Hlisted
           ltac:(discriminate)).
Defined.

(** ** Retrying a request *)

Section Retry.
Context {A : Type} (gotScraping : Z → V2.attempt A) (attempts : Z).

Lemma fetchWithRetry_loop_decisive (fuel : nat) (i k : Z) (lastErr : option V2.failure) :
  i ≤ k ≤ attempts → k - i + 1 ≤ Z.of_nat fuel →
  (∀ j, i ≤ j < k →
     ∃ err, gotScraping j = V2.Failed err ∧ V2.retriable (V2.statusCode err) = true) →
  (match gotScraping k with
   | V2.Responded _ => True
   | V2.Failed err => k = attempts ∨ V2.retriable (V2.statusCode err) = false
   end) →
  let run := V2.fetchWithRetry_loop fuel gotScraping attempts i lastErr in
  run.1 = match gotScraping k with
          | V2.Responded response => V2.Response response
          | V2.Failed err => V2.Threw (Some err)
          end
  ∧ V2.attempts_made run.2 = seqZ i (k - i + 1)
  ∧ V2.sleeps run.2 = seqZ i (k - i).
Proof.
  revert i lastErr. induction fuel as [|fuel IH]; intros i lastErr Hk Hfuel Hretry Hlast;
    [lia|].
  cbn [V2.fetchWithRetry_loop].
  destruct (Z.leb_spec i attempts) as [_|?]; [|lia].
  destruct (Z.eq_dec i k) as [->|Hne].
  - replace (k - k + 1) with 1 by lia. replace (k - k) with 0 by lia.
    destruct (gotScraping k) as [response|err]; [done|].
    replace ((k =? attempts) || negb (V2.retriable (V2.statusCode err))) with true.
    { done. }
    symmetry. apply orb_true_iff. destruct Hlast as [-> | Hlast]; [left; lia|right; by rewrite Hlast].
  - destruct (Hretry i) as (err & -> & Herr); [lia|].
    rewrite Herr. replace (i =? attempts) with false by lia. cbn [orb negb].
    specialize (IH (i + 1) (Some err)).
    destruct (V2.fetchWithRetry_loop fuel gotScraping attempts (i + 1) (Some err))
      as [r steps].
    destruct IH as (Hr & Hmade & Hslept); [lia|lia| |done|].
    { intros j Hj. apply Hretry. lia. }
    cbn [fst snd] in *. split; [done|]. split.
    + cbn [V2.attempts_made omap list_omap]. fold (V2.attempts_made steps).
      rewrite Hmade, (seqZ_cons i) by lia. do 2 f_equal; lia.
    + cbn [V2.sleeps omap list_omap]. fold (V2.sleeps steps).
      rewrite Hslept, (seqZ_cons i) by lia. do 2 f_equal; lia.
Qed.

(** X7: [fetchWithRetry] stops at the first attempt that is decisive: one
    that responds, that fails with a status other than 590, 502, 504 and
    429, or that is attempt number [attempts].  It returns the response
    of that attempt or throws its error; the attempts before it are all
    made, each followed by a warning and a sleep, and no sleep follows the
    decisive attempt. *)
Theorem fetchWithRetry_decisive_attempt (k : Z) :
  1 ≤ k ≤ attempts →
  (∀ j, 1 ≤ j < k →
     ∃ err, gotScraping j = V2.Failed err ∧ V2.retriable (V2.statusCode err) = true) →
  (match gotScraping k with
   | V2.Responded _ => True
   | V2.Failed err => k = attempts ∨ V2.retriable (V2.statusCode err) = false
   end) →
  (V2.fetchWithRetry gotScraping attempts).1
  = match gotScraping k with
    | V2.Responded response => V2.Response response
    | V2.Failed err => V2.Threw (Some err)
    end
  ∧ V2.attempts_made (V2.fetchWithRetry gotScraping attempts).2 = seqZ 1 k
  ∧ V2.sleeps (V2.fetchWithRetry gotScraping attempts).2 = seqZ 1 (k - 1).
Proof.
  intros Hk Hretry Hlast.
  destruct (fetchWithRetry_loop_decisive (Z.to_nat attempts) 1 k None)
    as (Hr & Hmade & Hslept); [lia|lia|done|done|].
  replace (k - 1 + 1) with k in Hmade by lia. done.
Qed.

Lemma fetchWithRetry_loop_last (fuel : nat) (i : Z) (lastErr : option V2.failure) :
  attempts - i + 1 ≤ Z.of_nat fuel →
  let run := V2.fetchWithRetry_loop fuel gotScraping attempts i lastErr in
  ∃ n : Z,
    0 ≤ n ≤ Z.max 0 (attempts - i + 1) ∧ (i ≤ attempts → 1 ≤ n)
    ∧ V2.attempts_made run.2 = seqZ i n
    ∧ V2.sleeps run.2 = seqZ i (n - 1)
    ∧ match run.1 with
      | V2.Response response => 1 ≤ n ∧ gotScraping (i + n - 1) = V2.Responded response
      | V2.Threw thrown =>
          (n = 0 ∧ thrown = lastErr)
          ∨ (1 ≤ n ∧ ∃ err, thrown = Some err ∧ gotScraping (i + n - 1) = V2.Failed err)
      end.
Proof.
  revert i lastErr. induction fuel as [|fuel IH]; intros i lastErr Hfuel.
  { exists 0. cbn. repeat split; try lia. by left. }
  cbn [V2.fetchWithRetry_loop].
  destruct (Z.leb_spec i attempts) as [Hi|Hi].
  2:{ exists 0. cbn. repeat split; try lia. by left. }
  destruct (gotScraping i) as [response|err] eqn:Hgot.
  { exists 1. cbn [fst snd]. replace (i + 1 - 1) with i by lia.
    repeat split; try lia; done. }
  destruct (Z.eqb_spec i attempts) as [Hlast|Hmore]; cbn [orb].
  { exists 1. cbn [fst snd]. replace (i + 1 - 1) with i by lia.
    repeat split; try lia; try done. right. split; [lia|]. by exists err. }
  destruct (negb (V2.retriable (V2.statusCode err))).
  { exists 1. cbn [fst snd]. replace (i + 1 - 1) with i by lia.
    repeat split; try lia; try done. right. split; [lia|]. by exists err. }
  specialize (IH (i + 1) (Some err)).
  destruct (V2.fetchWithRetry_loop fuel gotScraping attempts (i + 1) (Some err))
    as [r steps].
  destruct IH as (n & Hn & Hpos & Hmade & Hslept & Hr); [lia|]. cbn [fst snd] in *.
  exists (n + 1). replace (i + (n + 1) - 1) with (i + 1 + n - 1) by lia.
  cbn [V2.attempts_made V2.sleeps omap list_omap].
  fold (V2.attempts_made steps). fold (V2.sleeps steps).
  rewrite Hmade, Hslept, (seqZ_cons i (n + 1)), (seqZ_cons i (n + 1 - 1)) by lia.
  split; [lia|]. split; [lia|]. split; [do 2 f_equal; lia|]. split; [do 2 f_equal; lia|].
  destruct r as [response|thrown]; [split; [lia|apply Hr]|].
  destruct Hr as [[? _]|[_ Hr]]; [lia|]. right. split; [lia|done].
Qed.

(** X8: whatever the requests come to, [fetchWithRetry] makes at most
    [attempts] attempts, numbered from 1 without a gap, sleeps between
    two attempts and never after the last one, and what it returns or
    throws is the response or the error of the last attempt it made.  It
    throws [undefined] without any attempt when [attempts] is below 1,
    and only then. *)
Theorem fetchWithRetry_last_attempt :
  ∃ n : Z,
    0 ≤ n ≤ Z.max 0 attempts
    ∧ V2.attempts_made (V2.fetchWithRetry gotScraping attempts).2 = seqZ 1 n
    ∧ V2.sleeps (V2.fetchWithRetry gotScraping attempts).2 = seqZ 1 (n - 1)
    ∧ match (V2.fetchWithRetry gotScraping attempts).1 with
      | V2.Response response => 1 ≤ n ∧ gotScraping n = V2.Responded response
      | V2.Threw (Some err) => 1 ≤ n ∧ gotScraping n = V2.Failed err
      | V2.Threw None => n = 0 ∧ attempts < 1
      end.
Proof.
  destruct (fetchWithRetry_loop_last (Z.to_nat attempts) 1 None)
    as (n & Hn & Hpos & Hmade & Hslept & Hr); [lia|].
  exists n. replace (attempts - 1 + 1) with attempts in Hn by lia.
  replace (1 + n - 1) with n in Hr by lia.
  split; [done|]. split; [done|]. split; [done|].
  fold (V2.fetchWithRetry gotScraping attempts) in Hr.
  destruct (V2.fetchWithRetry gotScraping attempts).1 as [response|[err|]]; [done| |].
  - destruct Hr as [[_ [=]]|[? (err' & [= ->] & ?)]]. done.
  - destruct Hr as [[-> _]|[_ (err' & [=] & _)]]. split; [done|lia].
Qed.

End Retry.

Lemma fetchWithRetry_decisive_attempt_witness :
  (V2.fetchWithRetry Fixtures.flaky 3).1 = V2.Response "<html></html>"
  ∧ V2.attempts_made (V2.fetchWithRetry Fixtures.flaky 3).2 = [1; 2]
  ∧ V2.sleeps (V2.fetchWithRetry Fixtures.flaky 3).2 = [1].
Proof.
  apply (fetchWithRetry_decisive_attempt Fixtures.flaky 3 2).
  - lia.
  - intros j Hj. assert (j = 1) as -> by lia. eexists. split; reflexivity.
  - exact I.
Defined.

(** ** The search configuration *)

Lemma SPECIAL_CATEGORY_MAP_truthy (k special : string) :
  V2.SPECIAL_CATEGORY_MAP !! k = Some special → truthy (VStr special) = true.
Proof.
  intros Hk. apply elem_of_list_to_map_2 in Hk. set_unfold in Hk.
  repeat (destruct Hk as [[= -> ->]|Hk]; [done|]). done.
Qed.

Lemma path_parts_truthy (p segment x : string) :
  x ∈ V2.path_parts segment p → truthy (VStr x) = true.
Proof.
  revert segment. induction p as [|c rest IH]; intros segment; cbn [V2.path_parts].
  - destruct (truthy (VStr segment)) eqn:Hsegment; [|by intros ?%elem_of_nil].
    by intros ->%list_elem_of_singleton.
  - destruct (is_slash c); [|apply IH].
    destruct (truthy (VStr segment)) eqn:Hsegment; [|apply IH].
    intros [->|Hx]%elem_of_cons; [done|by eapply IH].
Qed.

Section Search.
Context `{Platform} (cfg : input) (pathname : string → option string).

(** X9: without start URLs the search API is asked whenever the category
    is not empty: for one of the eight special slugs with the name the
    map gives it and type SPECIAL, for any other category (the names that
    an object literal inherits apart) with the category itself and type
    CATEGORY; there is no search configuration only for an empty
    category. *)
Theorem resolveSikSearch_without_start_urls :
  startUrls cfg = [] →
  (∀ special, V2.SPECIAL_CATEGORY_MAP !! category cfg = Some special →
     V2.resolveSikSearch cfg pathname
     = Some {| V2.sik_input := VStr special; V2.sik_type := V2.SPECIAL |})
  ∧ (V2.SPECIAL_CATEGORY_MAP !! category cfg = None →
     category cfg ∉ V2.Object_prototype → category cfg ≠ "" →
     V2.resolveSikSearch cfg pathname
     = Some {| V2.sik_input := VStr (category cfg); V2.sik_type := V2.CATEGORY |})
  ∧ (V2.resolveSikSearch cfg pathname = None ↔ category cfg = "").
Proof.
  intros Hstart. unfold V2.resolveSikSearch. rewrite Hstart.
  split; [|split].
  - intros special Hspecial. unfold V2.special_category. rewrite Hspecial.
    by rewrite (SPECIAL_CATEGORY_MAP_truthy _ _ Hspecial).
  - intros Hnone Hown Hname. unfold V2.special_category. rewrite Hnone.
    rewrite bool_decide_false by done. cbn [truthy].
    by apply String.eqb_neq in Hname as ->.
  - split.
    + intros Hconfig. destruct (String.eqb_spec (category cfg) "") as [|Hname]; [done|].
      destruct (truthy (V2.special_category (category cfg))); [done|].
      cbn [truthy] in Hconfig. apply String.eqb_neq in Hname. by rewrite Hname in Hconfig.
    + by intros ->.
Qed.

(** X10: with start URLs only the first one decides on the search.  No
    search is made when it is not a URL, or when its path has neither a
    segment [new] nor a segment [cat].  A path with [cat] and without
    [new] gives a CATEGORY search for its last segment; a path with [new]
    whose last segment is a special slug gives the SPECIAL search of that
    slug; and whenever the path has a segment [cat], a search is made. *)
Theorem resolveSikSearch_first_start_url (first : string) (others : list string) :
  startUrls cfg = first :: others → first ≠ "" →
  (pathname first = None → V2.resolveSikSearch cfg pathname = None)
  ∧ (∀ p, pathname first = Some p →
       let parts := V2.path_parts "" p in
       ("new" ∉ parts → "cat" ∉ parts → V2.resolveSikSearch cfg pathname = None)
       ∧ ("new" ∉ parts → "cat" ∈ parts →
          ∃ segment, last parts = Some segment
            ∧ V2.resolveSikSearch cfg pathname
              = Some {| V2.sik_input := VStr segment; V2.sik_type := V2.CATEGORY |})
       ∧ ("new" ∈ parts →
          ∀ segment special, last parts = Some segment →
            V2.SPECIAL_CATEGORY_MAP !! segment = Some special →
            V2.resolveSikSearch cfg pathname
            = Some {| V2.sik_input := VStr special; V2.sik_type := V2.SPECIAL |})
       ∧ ("cat" ∈ parts → V2.resolveSikSearch cfg pathname ≠ None))
  ∧ (∀ cfg' others', startUrls cfg' = first :: others' → category cfg' = category cfg →
       V2.resolveSikSearch cfg' pathname = V2.resolveSikSearch cfg pathname).
Proof.
  intros Hstart Hfirst.
  assert (truthy (VStr first) = true) as Htruthy.
  { cbn [truthy]. by apply String.eqb_neq in Hfirst as ->. }
  split; [|split].
  - intros Hpath. unfold V2.resolveSikSearch. by rewrite Hstart, Htruthy, Hpath.
  - intros p Hpath parts.
    assert (∀ segment, last parts = Some segment → truthy (VStr segment) = true)
      as Hsegment.
    { intros segment Hlast. apply (path_parts_truthy p ""), last_Some_elem_of, Hlast. }
    unfold V2.resolveSikSearch. rewrite Hstart, Htruthy, Hpath. fold parts.
    cbn [negb]. repeat split.
    + intros Hnew Hcat. rewrite !bool_decide_false by done. cbn [andb].
      by destruct (last parts).
    + intros Hnew Hcat. rewrite bool_decide_false, bool_decide_true by done. cbn [andb].
      destruct (last parts) as [segment|] eqn:Hlast.
      * exists segment. by rewrite (Hsegment _ eq_refl).
      * apply last_None in Hlast. rewrite Hlast in Hcat. by apply elem_of_nil in Hcat.
    + intros Hnew segment special Hlast Hspecial.
      rewrite bool_decide_true, Hlast by done.
      change (default "undefined" (Some segment)) with segment. cbn [andb].
      assert (V2.special_category segment = VStr special) as ->.
      { unfold V2.special_category. by rewrite Hspecial. }
      unfold jor. by rewrite !(SPECIAL_CATEGORY_MAP_truthy _ _ Hspecial).
    + intros Hcat. rewrite (bool_decide_true ("cat" ∈ parts)) by done.
      destruct (_ && truthy _); [done|].
      destruct (last parts) as [segment|] eqn:Hlast.
      * by rewrite (Hsegment _ eq_refl).
      * apply last_None in Hlast. rewrite Hlast in Hcat. by apply elem_of_nil in Hcat.
  - intros cfg' others' Hstart' Hcategory. unfold V2.resolveSikSearch.
    by rewrite Hstart, Hstart', Hcategory.
Qed.

End Search.

Lemma resolveSikSearch_without_start_urls_witness :
  V2.resolveSikSearch Fixtures.chairs Ascii_platform.pathname
  = Some {| V2.sik_input := VStr "chairs"; V2.sik_type := V2.CATEGORY |}.
Proof.
  apply (resolveSikSearch_without_start_urls Fixtures.chairs Ascii_platform.pathname);
    [reflexivity|reflexivity| |done].
  vm_compute. set_solver.
Defined.

Lemma resolveSikSearch_first_start_url_witness :
  V2.resolveSikSearch Fixtures.new_lower_price Ascii_platform.pathname
  = Some {| V2.sik_input := VStr "new_lower_price"; V2.sik_type := V2.SPECIAL |}.
Proof.
  destruct (resolveSikSearch_first_start_url Fixtures.new_lower_price
              Ascii_platform.pathname _ [] eq_refl) as (_ & Hpath & _); [done|].
  destruct (Hpath "/gb/en/new/lower-price/" eq_refl) as (_ & _ & Hnew & _).
  apply (Hnew ltac:(vm_compute; set_solver) "lower-price" "new_lower_price");
    reflexivity.
Defined.

(** ** The product loop in its two modes *)

Lemma save_products_V1_cons `{Platform} (cfg : input)
    (product : gmap string value) (rest : list (gmap string value)) :
  V1.save_products cfg (product :: rest) =
  (s ← read saved;
   if V1.MAX_PRODUCTS cfg <=? s then mret tt
   else
     (if collectDetails cfg && truthy (field product "url") then
        match field product "url" with
        | VStr u => enqueue (detail_request u product)
        | _ => throw
        end
      else pushData (<["category" := category_or_null cfg]> product);; incr_saved);;
     V1.save_products cfg rest).
Proof. reflexivity. Qed.

Lemma save_products_V2_cons `{Platform} (cfg : input)
    (product : gmap string value) (rest : list (gmap string value)) :
  V2.save_products cfg (product :: rest) =
  (s ← read saved;
   if V2.MAX_PRODUCTS cfg <=? s then mret tt
   else
     (if collectDetails cfg && truthy (field product "url") then
        match field product "url" with
        | VStr u => enqueue (detail_request u product)
        | _ => throw
        end
      else pushData (<["category" := category_or_null cfg]> product);; incr_saved);;
     V2.save_products cfg rest).
Proof. reflexivity. Qed.

(** The loop in basic mode, for the loop of either revision: [step] is
    its equation on a non-empty list, [ceiling] its ceiling. *)
Ltac basic_mode_loop cfg step ceiling :=
  let Hmode := fresh "Hmode" in
  let found := fresh "found" in
  let st := fresh "st" in
  let IH := fresh "IH" in
  let product := fresh "product" in
  let rest := fresh "rest" in
  intros found st Hmode; revert st;
  induction found as [|product rest IH]; intros st; unfold saves_first, after;
  [ rewrite take_nil; simpl; rewrite app_nil_r; repeat split; lia |];
  cbn zeta; rewrite step, read_bind, Hmode; cbn [andb];
  destruct (Z.leb_spec ceiling (saved st));
  [ replace (Z.to_nat (ceiling - saved st)) with 0%nat by lia;
    simpl; rewrite app_nil_r; repeat split; lia |];
  replace (Z.to_nat (ceiling - saved st))
    with (S (Z.to_nat (ceiling - (saved st + 1)))) by lia;
  specialize (IH (add_saved (add_record (<["category" := category_or_null cfg]> product) st)));
  unfold saves_first, after in IH; cbn zeta in IH;
  destruct IH as (Hdone & Hdata & Hsaved & Hreq & Hseen & Hlog);
  split; [exact Hdone|];
  split; [etransitivity; [exact Hdata|]; simpl; by rewrite <- app_assoc|];
  split; [etransitivity; [exact Hsaved|]; simpl; lia|];
  by repeat split.

(** The loop in detailed mode on records that all have a URL. *)
Ltac detail_mode_loop cfg step ceiling :=
  let Hmode := fresh "Hmode" in
  let Hurls := fresh "Hurls" in
  let Hroom := fresh "Hroom" in
  let found := fresh "found" in
  let st := fresh "st" in
  let IH := fresh "IH" in
  let product := fresh "product" in
  let rest := fresh "rest" in
  let u := fresh "u" in
  let Hurl := fresh "Hurl" in
  let Hset := fresh "Hset" in
  intros found st Hmode Hurls; revert st;
  induction found as [|product rest IH]; intros st Hroom; unfold enqueues_all, after;
  [ simpl; by rewrite app_nil_r |];
  apply Forall_cons in Hurls as [(u & Hurl & Hset) Hurls];
  rewrite step, read_bind, Hmode, Hurl;
  replace (ceiling <=? saved st) with false by lia;
  replace (truthy (VStr u)) with true
    by (symmetry; cbn [truthy]; by apply String.eqb_neq in Hset as ->);
  cbn [andb];
  specialize (IH Hurls (add_request (detail_request u product) st) Hroom);
  unfold enqueues_all, after in IH;
  destruct IH as (Hdone & Hreq & Hdata & Hsaved & Hseen & Hlog);
  split; [exact Hdone|];
  split; [etransitivity; [exact Hreq|]; unfold detail_requests, url_of; simpl;
          by rewrite Hurl, <- app_assoc|];
  by repeat split.

Section ProductLoop.
Context `{Platform} (cfg : input).

(** X11: in basic mode the product loop of the first and of the second
    revision persists the first records found, in their order and each
    with its [category], as many as the ceiling leaves room for, counts
    each of them in [saved] and enqueues nothing; it never throws. *)
Theorem save_products_basic_mode :
  (∀ found st, collectDetails cfg = false →
     saves_first cfg (V1.MAX_PRODUCTS cfg) found st (V1.save_products cfg found))
  ∧ (∀ found st, collectDetails cfg = false →
       saves_first cfg (V2.MAX_PRODUCTS cfg) found st (V2.save_products cfg found)).
Proof.
  split.
  - basic_mode_loop cfg (save_products_V1_cons cfg) (V1.MAX_PRODUCTS cfg).
  - basic_mode_loop cfg (save_products_V2_cons cfg) (V2.MAX_PRODUCTS cfg).
Qed.

(** X12: in detailed mode the product loop of the first and of the
    second revision, entered below the ceiling with records that all have
    a URL, enqueues a DETAIL request for every one of them, in order, and
    persists nothing: [saved] does not change in the loop, so that the
    ceiling does not limit the number of product pages it asks for. *)
Theorem save_products_detail_mode :
  (∀ found st, collectDetails cfg = true →
     Forall (λ product, ∃ u, field product "url" = VStr u ∧ u ≠ "") found →
     saved st < V1.MAX_PRODUCTS cfg →
     enqueues_all found st (V1.save_products cfg found))
  ∧ (∀ found st, collectDetails cfg = true →
       Forall (λ product, ∃ u, field product "url" = VStr u ∧ u ≠ "") found →
       saved st < V2.MAX_PRODUCTS cfg →
       enqueues_all found st (V2.save_products cfg found)).
Proof.
  split.
  - detail_mode_loop cfg (save_products_V1_cons cfg) (V1.MAX_PRODUCTS cfg).
  - detail_mode_loop cfg (save_products_V2_cons cfg) (V2.MAX_PRODUCTS cfg).
Qed.

End ProductLoop.

Lemma save_products_basic_mode_witness :
  dataset (after (V2.save_products Fixtures.basic [Fixtures.listed; Fixtures.listed_table])
             initial_state)
  = with_category Fixtures.basic [Fixtures.listed; Fixtures.listed_table].
Proof.
  destruct (proj2 (save_products_basic_mode Fixtures.basic)
              [Fixtures.listed; Fixtures.listed_table] initial_state eq_refl)
    as (_ & Hdata & _).
  exact Hdata.
Defined.

Lemma save_products_detail_mode_witness :
  let found := [<["url" := VStr Fixtures.product_url]> Fixtures.listed;
                <["url" := VStr Fixtures.table_url]> Fixtures.listed_table] in
  V2.MAX_PRODUCTS Fixtures.detailed_one = 1
  ∧ length (requests (after (V2.save_products Fixtures.detailed_one found) initial_state))
    = 2%nat.
Proof.
  intros found. split; [reflexivity|].
  destruct (proj2 (save_products_detail_mode Fixtures.detailed_one) found initial_state)
    as (_ & Hreq & _); [reflexivity| |reflexivity|by rewrite Hreq].
  repeat constructor; eexists; (split; [reflexivity|done]).
Defined.

(** ** The search loop: what it counts and what it asks for *)

Lemma with_seen_run {A} (f : gset string → outcome A * gset string)
    (st st1 : RunState) (o : outcome A) :
  with_seen f st = (o, st1) →
  ∃ seen', f (seenProducts st) = (o, seen') ∧ st1 = set_seen seen' st.
Proof.
  unfold with_seen. destruct (f (seenProducts st)) as [o' seen'].
  intros [= <- <-]. by exists seen'.
Qed.

Section SearchLoop.
Context `{Platform} (cfg : input).

(** The [url] of a record of [mapSikProduct] is a string or [null]. *)
Lemma mapSikProduct_url (product : value) (seen seen' : gset string)
    (m : gmap string value) :
  V2.mapSikProduct cfg product seen = (Done (Some m), seen') →
  field m "url" = VNull ∨ ∃ u, field m "url" = VStr u.
Proof.
  unfold V2.mapSikProduct. destruct (negb _); [done|].
  destruct (claim _ _) as [[] seen1]; [|done].
  destruct (V2.sik_image product) as [image|]; [|done].
  intros [= <- <-].
  change (field _ "url") with
    (if truthy (get_opt product "pipUrl")
     then of_opt_string (toAbs (country cfg) (language cfg)
                           (js_String (get_opt product "pipUrl")))
     else VNull).
  destruct (truthy _); [|by left].
  destruct (toAbs _ _ _) as [u|]; [right; by exists u|by left].
Qed.

Lemma counted_refl (count : Z) (st : RunState) : counted count st (Done count) st.
Proof. exists [], []. rewrite !app_nil_r. simpl. repeat split; lia. Qed.

Lemma sik_items_count (items : list value) (count : Z) (st : RunState) :
  holds (V2.sik_items cfg items count) st (counted count st).
Proof.
  revert count st. induction items as [|product rest IH]; intros count st.
  - apply holds_ret, counted_refl.
  - cbn [V2.sik_items]. apply holds_bind, holds_read.
    destruct (V2.MAX_PRODUCTS cfg <=? saved st); [apply holds_ret, counted_refl|].
    apply holds_bind_eq. intros o st1 Hmapped.
    apply with_seen_run in Hmapped as (seen' & Hmapped & ->).
    destruct o as [[m|]|].
    3:{ exists [], []. by rewrite !app_nil_r. }
    2:{ eapply holds_weaken; [apply IH|]. by intros o st2. }
    apply holds_bind.
    destruct (collectDetails cfg && truthy (field m "url")) eqn:Hdetail.
    + destruct (mapSikProduct_url _ _ _ _ Hmapped) as [Hurl|[u Hurl]]; rewrite Hurl in *.
      { by rewrite andb_false_r in Hdetail. }
      apply holds_enqueue.
      eapply holds_weaken; [apply IH|].
      intros o st2 (persisted & queued & Hdata & Hreq & Ho).
      exists persisted, (detail_request u m :: queued).
      split; [done|]. split; [by rewrite Hreq; simpl; rewrite <- app_assoc|].
      destruct o; [|done]. simpl. lia.
    + apply holds_bind, holds_pushData, holds_incr_saved.
      eapply holds_weaken; [apply IH|].
      intros o st2 (persisted & queued & Hdata & Hreq & Ho).
      exists (m :: persisted), queued.
      split; [by rewrite Hdata; simpl; rewrite <- app_assoc|]. split; [done|].
      destruct o; [|done]. simpl. lia.
Qed.

Lemma fetchViaSik_loop_count (pages_left : nat) (sik : Z → Z → V2.sik_response)
    (offset page : Z) (total : option Z) (count : Z) (st : RunState) :
  holds (V2.fetchViaSik_loop cfg pages_left sik offset page total count) st
    (counted count st).
Proof.
  revert offset page total count st.
  induction pages_left as [|n IH]; intros offset page total count st.
  - apply holds_ret, counted_refl.
  - cbn [V2.fetchViaSik_loop]. apply holds_bind, holds_read.
    destruct (_ && _ && _); [|apply holds_ret, counted_refl].
    destruct (sik offset _) as [| |items t].
    + apply holds_throw. exists [], []. by rewrite !app_nil_r.
    + apply holds_ret, counted_refl.
    + destruct (is_empty items); [apply holds_ret, counted_refl|].
      apply holds_bind.
      eapply holds_weaken; [apply sik_items_count|].
      intros [count'|] st1 (p1 & q1 & Hd1 & Hr1 & Hc1); [|by exists p1, q1].
      eapply holds_weaken; [apply IH|].
      intros o st2 (p2 & q2 & Hd2 & Hr2 & Hc2).
      exists (p1 ++ p2), (q1 ++ q2).
      split; [by rewrite Hd2, Hd1, app_assoc|]. split; [by rewrite Hr2, Hr1, app_assoc|].
      destruct o; [|done]. rewrite !length_app. lia.
Qed.

(** X13: the number that [fetchViaSik] returns, the [apiCount] of [main],
    is the number of records it has persisted plus the number of DETAIL
    requests it has put on [detailRequests]; it is 0 exactly when the
    search has added nothing to either. *)
Theorem fetchViaSik_count (sik : Z → Z → V2.sik_response) (st : RunState) (count : Z) :
  (V2.fetchViaSik cfg sik st).1 = Done count →
  let st' := after (V2.fetchViaSik cfg sik) st in
  ∃ persisted queued,
    dataset st' = dataset st ++ persisted
    ∧ requests st' = requests st ++ queued
    ∧ count = Z.of_nat (length persisted) + Z.of_nat (length queued)
    ∧ (count = 0 ↔ dataset st' = dataset st ∧ requests st' = requests st).
Proof.
  intros Hcount st'.
  destruct (fetchViaSik_loop_count (Z.to_nat (V2.MAX_PAGES cfg)) sik 0 1 None 0 st)
    as (persisted & queued & Hdata & Hreq & Hdone).
  fold (V2.fetchViaSik cfg sik) in Hdata, Hreq, Hdone. rewrite Hcount in Hdone.
  exists persisted, queued. split; [done|]. split; [done|]. split; [lia|].
  unfold st', after. rewrite Hdata, Hreq. split.
  - intros ->. destruct persisted, queued; simpl in *; try lia. by rewrite !app_nil_r.
  - intros [Hp%(f_equal length) Hq%(f_equal length)].
    rewrite length_app in Hp, Hq. lia.
Qed.

Lemma sik_items_saved (items : list value) (count : Z) (st : RunState) :
  saved st ≤ saved (after (V2.sik_items cfg items count) st).
Proof.
  destruct (sik_items_spec cfg items count st) as (persisted & queued & Heffect & _).
  destruct Heffect as (_ & _ & Hsaved & _). unfold after. lia.
Qed.

Lemma fetchViaSik_loop_windows (pages_left : nat) (sik sik' : Z → Z → V2.sik_response)
    (offset page : Z) (total : option Z) (count floor : Z) (st : RunState) :
  (∀ o size, 0 ≤ o ≤ 48 * (V2.MAX_PAGES cfg - 1) →
             1 ≤ size ≤ Z.min 48 (V2.MAX_PRODUCTS cfg - floor) →
             sik o size = sik' o size) →
  0 ≤ offset ≤ 48 * (page - 1) → floor ≤ saved st →
  V2.fetchViaSik_loop cfg pages_left sik offset page total count st
  = V2.fetchViaSik_loop cfg pages_left sik' offset page total count st.
Proof.
  intros Hsame. revert offset page total count st.
  induction pages_left as [|n IH]; intros offset page total count st Hoffset Hfloor;
    [done|].
  cbn [V2.fetchViaSik_loop]. rewrite !read_bind.
  destruct ((saved st <? V2.MAX_PRODUCTS cfg) && V2.below_total offset total
            && (page <=? V2.MAX_PAGES cfg)) eqn:Hcond; [|done].
  apply andb_true_iff in Hcond as [[Hroom%Z.ltb_lt _]%andb_true_iff Hpage%Z.leb_le].
  unfold V2.DEFAULT_PAGE_SIZE, V2.MAX_API_WINDOW.
  set (windowSize := Z.min (Z.min 48 (V2.MAX_PRODUCTS cfg - saved st)) 480).
  rewrite <- (Hsame offset windowSize) by (unfold windowSize; lia).
  destruct (sik offset windowSize) as [| |items t]; [done..|].
  destruct (is_empty items); [done|].
  pose proof (sik_items_saved items count st) as Hsaved. unfold after in Hsaved.
  destruct (V2.sik_items cfg items count st) as [[count'|] st1] eqn:Hitems.
  - rewrite !(bind_done _ _ _ _ _ Hitems). simpl in Hsaved.
    apply IH; [unfold windowSize|]; lia.
  - by rewrite !(bind_thrown _ _ _ _ Hitems).
Qed.

(** X14: [fetchViaSik] asks the search API only for windows of 1 to 48
    products, never for more than the product ceiling leaves room for, at
    offsets from 0 to 48 times the page ceiling less one: two search APIs
    that answer these windows alike give the same run.  [MAX_API_WINDOW]
    never limits a window. *)
Theorem fetchViaSik_windows (sik sik' : Z → Z → V2.sik_response) (st : RunState) :
  (∀ offset size,
     0 ≤ offset ≤ 48 * (V2.MAX_PAGES cfg - 1) →
     1 ≤ size ≤ Z.min 48 (V2.MAX_PRODUCTS cfg - saved st) →
     sik offset size = sik' offset size) →
  V2.fetchViaSik cfg sik st = V2.fetchViaSik cfg sik' st.
Proof.
  intros Hsame. by apply (fetchViaSik_loop_windows _ _ _ _ _ _ _ (saved st)); [|lia..].
Qed.

End SearchLoop.

Lemma fetchViaSik_count_witness :
  let sik := Fixtures.sik_answers [Fixtures.sik_chair; Fixtures.sik_stool] in
  (V2.fetchViaSik Fixtures.detailed sik initial_state).1 = Done 2
  ∧ ∃ persisted queued,
      dataset (after (V2.fetchViaSik Fixtures.detailed sik) initial_state) = persisted
      ∧ requests (after (V2.fetchViaSik Fixtures.detailed sik) initial_state) = queued
      ∧ length persisted = 1%nat ∧ length queued = 1%nat.
Proof.
  intros sik.
  assert ((V2.fetchViaSik Fixtures.detailed sik initial_state).1 = Done 2) as Hcount
    by (vm_compute; reflexivity).
  split; [exact Hcount|].
  destruct (fetchViaSik_count Fixtures.detailed sik initial_state 2 Hcount)
    as (persisted & queued & Hdata & Hreq & _).
  change (dataset initial_state ++ persisted) with persisted in Hdata.
  change (requests initial_state ++ queued) with queued in Hreq.
  exists persisted, queued. split; [exact Hdata|]. split; [exact Hreq|].
  rewrite <- Hdata, <- Hreq. by vm_compute.
Defined.

Lemma fetchViaSik_windows_witness :
  let sik := Fixtures.sik_answers [Fixtures.sik_chair] in
  let sik' := λ offset size,
    if (0 <=? offset) && (size <=? 10) then sik offset size else V2.SikError in
  V2.fetchViaSik Fixtures.basic sik initial_state
  = V2.fetchViaSik Fixtures.basic sik' initial_state.
Proof.
  intros sik sik'. apply fetchViaSik_windows. intros offset size Hoffset Hsize.
  unfold sik'. change (V2.MAX_PRODUCTS Fixtures.basic - saved initial_state) with 10 in Hsize.
  replace (0 <=? offset) with true by lia. by replace (size <=? 10) with true by lia.
Defined.

(** ** The phases of a run of the second revision *)

Section Phases.
Context `{Platform} (cfg : input) (pathname : string → option string).

Lemma fetchViaSik_first_request_fails (sik : Z → Z → V2.sik_response) :
  sik 0 (Z.min 48 (V2.MAX_PRODUCTS cfg)) = V2.SikError →
  V2.fetchViaSik cfg sik initial_state = (Thrown, initial_state).
Proof.
  intros Hfails. unfold V2.fetchViaSik.
  pose proof (MAX_PAGES_positive cfg) as Hpages.
  pose proof (MAX_PRODUCTS_positive cfg) as Hproducts.
  destruct (Z.to_nat (V2.MAX_PAGES cfg)) as [|n] eqn:Hfuel; [lia|].
  cbn [V2.fetchViaSik_loop]. rewrite read_bind.
  change (saved initial_state) with 0.
  replace (0 <? V2.MAX_PRODUCTS cfg) with true by lia.
  replace (1 <=? V2.MAX_PAGES cfg) with true by lia.
  cbn [andb V2.below_total]. unfold V2.DEFAULT_PAGE_SIZE, V2.MAX_API_WINDOW.
  replace (Z.min (Z.min 48 (V2.MAX_PRODUCTS cfg - 0)) 480)
    with (Z.min 48 (V2.MAX_PRODUCTS cfg)) by lia.
  by rewrite Hfails.
Qed.

(** X15: when the search API is to be asked and [fetchViaSik] throws,
    [main] throws at once, in the state the search has left: neither
    crawler is started.  In particular, when the first search request
    fails after its retries, the run ends with an exception and an empty
    dataset; the HTML crawler is not tried instead. *)
Theorem main_ends_when_search_fails (sik : Z → Z → V2.sik_response)
    (detailCrawl : M unit) (htmlCrawl : list string → M unit) :
  V2.resolveSikSearch cfg pathname ≠ None →
  (∀ st, V2.fetchViaSik cfg sik initial_state = (Thrown, st) →
         V2.main cfg pathname sik detailCrawl htmlCrawl initial_state = (Thrown, st))
  ∧ (sik 0 (Z.min 48 (V2.MAX_PRODUCTS cfg)) = V2.SikError →
     V2.main cfg pathname sik detailCrawl htmlCrawl initial_state
     = (Thrown, initial_state)).
Proof.
  intros Hconfig.
  assert (∀ st, V2.fetchViaSik cfg sik initial_state = (Thrown, st) →
                V2.main cfg pathname sik detailCrawl htmlCrawl initial_state
                = (Thrown, st)) as Hthrows.
  { intros st Hsearch. unfold V2.main.
    destruct (V2.resolveSikSearch cfg pathname); [|done].
    by rewrite (bind_thrown _ _ _ _ Hsearch). }
  split; [done|]. intros Hfails. by apply Hthrows, fetchViaSik_first_request_fails.
Qed.

(** X16: which crawler [main] does not start.  In basic mode the detail
    crawler is never run.  Without start URLs, when the search was made
    and has counted at least one product, the HTML crawler is never run,
    whatever the detail crawler has done: the run is the same for any two
    HTML crawlers. *)
Theorem main_skips_crawlers (sik : Z → Z → V2.sik_response) :
  (collectDetails cfg = false →
   ∀ detailCrawl detailCrawl' htmlCrawl,
     V2.main cfg pathname sik detailCrawl htmlCrawl initial_state
     = V2.main cfg pathname sik detailCrawl' htmlCrawl initial_state)
  ∧ (startUrls cfg = [] → V2.resolveSikSearch cfg pathname ≠ None →
     ∀ count st, V2.fetchViaSik cfg sik initial_state = (Done count, st) → count ≠ 0 →
     ∀ detailCrawl htmlCrawl htmlCrawl',
       V2.main cfg pathname sik detailCrawl htmlCrawl initial_state
       = V2.main cfg pathname sik detailCrawl htmlCrawl' initial_state).
Proof.
  split.
  - intros Hmode detailCrawl detailCrawl' htmlCrawl. unfold V2.main.
    destruct ((match V2.resolveSikSearch cfg pathname with
               | Some _ => V2.fetchViaSik cfg sik
               | None => mret 0
               end) initial_state) as [[apiCount|] st] eqn:Hsearch.
    + rewrite !(bind_done _ _ _ _ _ Hsearch), !read_bind. by rewrite Hmode.
    + by rewrite !(bind_thrown _ _ _ _ Hsearch).
  - intros Hstart Hconfig count st Hsearch Hcount detailCrawl htmlCrawl htmlCrawl'.
    unfold V2.main. destruct (V2.resolveSikSearch cfg pathname); [|done].
    rewrite !(bind_done _ _ _ _ _ Hsearch), !read_bind, Hstart.
    replace (count =? 0) with false by lia. cbn [is_empty negb orb].
    destruct ((if collectDetails cfg && negb (is_empty (requests st))
               then V2.runDetailCrawler cfg detailCrawl else mret tt) st)
      as [[[]|] st1] eqn:Hdetail.
    + by rewrite !(bind_done _ _ _ _ _ Hdetail), !read_bind.
    + by rewrite !(bind_thrown _ _ _ _ Hdetail).
Qed.

End Phases.

Lemma main_ends_when_search_fails_witness :
  V2.main Fixtures.chairs Ascii_platform.pathname (λ _ _, V2.SikError)
    (mret tt) (λ _, mret tt) initial_state
  = (Thrown, initial_state).
Proof.
  by apply (main_ends_when_search_fails Fixtures.chairs Ascii_platform.pathname).
Defined.

Lemma main_skips_crawlers_witness :
  V2.main Fixtures.chairs Ascii_platform.pathname
    (Fixtures.sik_answers [Fixtures.sik_chair]) (mret tt) (λ _, mret tt) initial_state
  = V2.main Fixtures.chairs Ascii_platform.pathname
      (Fixtures.sik_answers [Fixtures.sik_chair]) (mret tt) (λ _, throw) initial_state.
Proof.
  eapply (proj2 (main_skips_crawlers Fixtures.chairs Ascii_platform.pathname
                   (Fixtures.sik_answers [Fixtures.sik_chair])) eq_refl).
  - done.
  - vm_compute. reflexivity.
  - done.
Defined.

(** ** DETAIL handlers in flight: how far the ceiling can be passed *)

Lemma total_insert (weight : V2.task → Z) (pool : list V2.task) (i : nat)
    (t t' : V2.task) :
  pool !! i = Some t →
  total weight (<[i := t']> pool) = total weight pool - weight t + weight t'.
Proof.
  revert i. induction pool as [|x pool IH]; intros [|i]; simpl; try done.
  - intros [= ->]. lia.
  - intros Hi. rewrite (IH i Hi). lia.
Qed.

Lemma total_promised_bound (pool : list V2.task) (i : nat) (t : V2.task) :
  pool !! i = Some t →
  total promised pool ≤ Z.of_nat (length pool) - 1 + promised t.
Proof.
  assert (∀ l, total promised l ≤ Z.of_nat (length l)) as Hall.
  { induction l as [|x l IH]; simpl; [lia|]. destruct x; simpl; lia. }
  revert i. induction pool as [|x pool IH]; intros [|i]; simpl; try done.
  - intros [= ->]. specialize (Hall pool). lia.
  - intros Hi. specialize (IH i Hi). destruct x; simpl; lia.
Qed.

Lemma total_unpushed_promised (pool : list V2.task) :
  0 ≤ total unpushed pool ≤ total promised pool.
Proof. induction pool as [|x pool IH]; simpl; [lia|]. destruct x; simpl; lia. Qed.

Lemma total_fetched_pool (tasks : list (request * detail_fetch)) :
  total promised (fetched_pool tasks) = 0 ∧ total unpushed (fetched_pool tasks) = 0.
Proof. induction tasks as [|t tasks IH]; [done|]. simpl. lia. Qed.

Section InFlight.
Context (cfg : input).

(** One step of one handler: the records promised and not yet counted
    in [saved], together with [saved], change only when a handler passes
    the budget test, and so do the records not yet pushed, together with
    the dataset. *)
Lemma resume_nth_potential (i : nat) (st : RunState) (pool : list V2.task) :
  let next := V2.resume_nth cfg i (st, pool) in
  let promised_now := saved st + total promised pool in
  let promised_next := saved next.1 + total promised next.2 in
  length next.2 = length pool
  ∧ Z.of_nat (length (dataset next.1)) + total unpushed next.2 - promised_next
    = Z.of_nat (length (dataset st)) + total unpushed pool - promised_now
  ∧ (promised_next = promised_now
     ∨ promised_next ≤ V2.MAX_PRODUCTS cfg - 1 + Z.of_nat (length pool)).
Proof.
  unfold V2.resume_nth. cbn [fst snd].
  destruct (pool !! i) as [t|] eqn:Hi; cbn zeta; [|by auto].
  pose proof (total_promised_bound pool i t Hi) as Hbound.
  assert (∃ t' st', V2.resume cfg t st = (Done t', st')
            ∧ Z.of_nat (length (dataset st')) + unpushed t' - (saved st' + promised t')
              = Z.of_nat (length (dataset st)) + unpushed t - (saved st + promised t)
            ∧ (saved st' + promised t' = saved st + promised t
               ∨ (saved st' + promised t' = saved st + 1 ∧ promised t = 0
                  ∧ saved st < V2.MAX_PRODUCTS cfg)))
    as (t' & st' & -> & Hgap & Hpromised).
  { destruct t as [req w|req w| |]; cbn [V2.resume].
    - rewrite read_bind.
      destruct (Z.leb_spec (V2.MAX_PRODUCTS cfg) (saved st)) as [Hfull|Hroom].
      + exists V2.Returned, st. split; [done|]. simpl. split; [lia|left; lia].
      + exists (V2.Extracting req w), st. split; [done|]. simpl. split; [lia|right; lia].
    - exists V2.Pushing, (add_record (V2.finalProduct cfg req w) st). split; [done|].
      simpl. rewrite length_app. simpl. split; [lia|left; lia].
    - exists V2.Returned, (add_saved st). split; [done|]. simpl. split; [lia|left; lia].
    - exists V2.Returned, st. split; [done|]. simpl. split; [lia|left; lia]. }
  cbn [fst snd]. rewrite length_insert, !(total_insert _ _ _ _ _ Hi).
  split; [done|]. split; [lia|]. destruct Hpromised as [?|(? & ? & ?)]; [left|right]; lia.
Qed.

Lemma interleave_potential (schedule : list nat) (st : RunState) (pool : list V2.task) :
  let final := V2.interleave cfg schedule (st, pool) in
  length final.2 = length pool
  ∧ Z.of_nat (length (dataset final.1)) + total unpushed final.2
    - (saved final.1 + total promised final.2)
    = Z.of_nat (length (dataset st)) + total unpushed pool
      - (saved st + total promised pool)
  ∧ saved final.1 + total promised final.2
    ≤ Z.max (saved st + total promised pool)
        (V2.MAX_PRODUCTS cfg - 1 + Z.of_nat (length pool)).
Proof.
  revert st pool. induction schedule as [|i rest IH]; intros st pool.
  - cbn. repeat split; lia.
  - change (V2.interleave cfg (i :: rest) (st, pool))
      with (V2.interleave cfg rest (V2.resume_nth cfg i (st, pool))).
    pose proof (resume_nth_potential i st pool) as Hstep. cbn zeta in Hstep.
    destruct (V2.resume_nth cfg i (st, pool)) as [st1 pool1]. cbn [fst snd] in Hstep.
    specialize (IH st1 pool1). cbn zeta in IH.
    destruct Hstep as (Hlen & Hgap & Hpromised), IH as (Hlen' & Hgap' & Hpromised').
    rewrite Hlen in *. split; [done|]. split; lia.
Qed.

(** X17: DETAIL handlers of the HTML crawler that run at the same time,
    each one suspended at its [await]s and resumed in any order, started
    from a state within the budget: [saved] never counts more than the
    dataset holds, and the dataset never holds more than the ceiling and
    one record for each handler but one.  The budget test is made before
    the first [await] and [saved] is counted after the second, so the
    ceiling can be passed, but not by more than that. *)
Theorem concurrent_details_overshoot (schedule : list nat)
    (tasks : list (request * detail_fetch)) (st : RunState) :
  saved st = Z.of_nat (length (dataset st)) →
  saved st ≤ V2.MAX_PRODUCTS cfg →
  let final := V2.interleave cfg schedule (st, fetched_pool tasks) in
  saved final.1 ≤ Z.of_nat (length (dataset final.1))
  ∧ Z.of_nat (length (dataset final.1))
    ≤ Z.max (V2.MAX_PRODUCTS cfg) (V2.MAX_PRODUCTS cfg + Z.of_nat (length tasks) - 1).
Proof.
  intros Hcount Hbudget final.
  destruct (interleave_potential schedule st (fetched_pool tasks))
    as (_ & Hgap & Hpromised).
  fold final in Hgap, Hpromised.
  destruct (total_fetched_pool tasks) as [Hp Hu].
  assert (length (fetched_pool tasks) = length tasks) as Hlen
    by apply length_fmap.
  pose proof (total_unpushed_promised final.2). lia.
Qed.

End InFlight.

Lemma concurrent_details_overshoot_witness :
  let first := detail_request Fixtures.product_url Fixtures.listed in
  let second := detail_request Fixtures.table_url Fixtures.listed_table in
  let w := Fixtures.at_noon (Some Fixtures.blank_page) in
  let final := V2.interleave Fixtures.detailed_one [0; 1; 0; 1; 0; 1]%nat
                 (initial_state, fetched_pool [(first, w); (second, w)]) in
  Z.of_nat (length (dataset final.1)) ≤ 2.
Proof.
  intros first second w final.
  by apply (concurrent_details_overshoot Fixtures.detailed_one [0; 1; 0; 1; 0; 1]%nat
              [(first, w); (second, w)] initial_state).
Defined.

(** ** What a run never undoes *)

Section Monotone.
Context `{Platform} (cfg : input).

(** X18: along a run of the second revision, whatever the handlers that
    are executed and their order, the dataset and the queue only grow at
    their end (no record is removed or rewritten, no request dropped),
    [saved] never decreases and no id leaves the seen-set. *)
Theorem run_only_adds (events : list V2.event) (st st' : RunState) :
  V2.run cfg events st = Some st' →
  dataset st `prefix_of` dataset st'
  ∧ requests st `prefix_of` requests st'
  ∧ saved st ≤ saved st'
  ∧ seenProducts st ⊆ seenProducts st'.
Proof.
  revert st. induction events as [|ev rest IH]; intros st; simpl.
  - by intros [= <-].
  - destruct (V2.exec_event cfg ev st) as [st1|] eqn:Hev; simpl; [|done].
    intros Hrun. destruct (IH _ Hrun) as (Hdata & Hreq & Hsaved & Hseen).
    destruct (exec_event_spec cfg ev st st1 Hev)
      as (persisted & queued & (Hdata1 & Hreq1 & Hsaved1 & _ & Hseen1 & _) & _).
    split; [|split; [|split]].
    + etransitivity; [|exact Hdata]. rewrite Hdata1. by apply prefix_app_r.
    + etransitivity; [|exact Hreq]. rewrite Hreq1. by apply prefix_app_r.
    + lia.
    + set_solver.
Qed.

End Monotone.

Lemma run_only_adds_witness :
  let events := [V2.HtmlStart 0 Fixtures.one_card_page] in
  let st := default initial_state (V2.run Fixtures.basic events initial_state) in
  V2.run Fixtures.basic events initial_state = Some st
  ∧ saved initial_state ≤ saved st.
Proof.
  intros events st.
  assert (V2.run Fixtures.basic events initial_state = Some st) as Hrun
    by (vm_compute; reflexivity).
  split; [exact Hrun|].
  exact (proj1 (proj2 (proj2 (run_only_adds Fixtures.basic events initial_state st Hrun)))).
Defined.

(** ** The ceilings *)

(** X19: the product ceiling is at least 1 in both revisions, and it is
    [maxProducts] itself whenever that is 1 or more.  For a [maxProducts]
    of 0 or less the first revision keeps a ceiling of 1 product, while
    the second revision lifts the ceiling to [Number.MAX_SAFE_INTEGER], as
    it does in both revisions for a [maxProducts] that is no number.  The
    page ceiling is [maxPages] or 1 if that is greater, 999 without a
    number. *)
Theorem ceilings_by_revision (cfg : input) :
  (1 ≤ V1.MAX_PRODUCTS cfg ∧ 1 ≤ V2.MAX_PRODUCTS cfg
   ∧ 1 ≤ V1.MAX_PAGES cfg ∧ V2.MAX_PAGES cfg = V1.MAX_PAGES cfg)
  ∧ (∀ n, maxProducts cfg = Some n → 1 ≤ n →
       V1.MAX_PRODUCTS cfg = n ∧ V2.MAX_PRODUCTS cfg = n)
  ∧ (∀ n, maxProducts cfg = Some n → n ≤ 0 →
       V1.MAX_PRODUCTS cfg = 1 ∧ V2.MAX_PRODUCTS cfg = MAX_SAFE_INTEGER)
  ∧ (maxProducts cfg = None →
       V1.MAX_PRODUCTS cfg = MAX_SAFE_INTEGER ∧ V2.MAX_PRODUCTS cfg = MAX_SAFE_INTEGER)
  ∧ (∀ n, maxPages cfg = Some n → V1.MAX_PAGES cfg = Z.max 1 n)
  ∧ (maxPages cfg = None → V1.MAX_PAGES cfg = 999).
Proof.
  unfold V1.MAX_PRODUCTS, V2.MAX_PRODUCTS, V1.MAX_PAGES, V2.MAX_PAGES, MAX_SAFE_INTEGER.
  split; [|split; [|split; [|split; [|split]]]].
  - destruct (maxProducts cfg) as [n|], (maxPages cfg) as [m|];
      try destruct (Z.ltb_spec 0 n); repeat split; lia.
  - intros n -> Hn. destruct (Z.ltb_spec 0 n); lia.
  - intros n -> Hn. destruct (Z.ltb_spec 0 n); lia.
  - by intros ->.
  - by intros n ->.
  - by intros ->.
Qed.

(** ** The product page in the first revision *)

Section DetailsV1.
Context (cfg : input).

(** X20: in the first revision a product page that could be parsed
    replaces [price], [currency], [productId], [images], [features] and
    [availability] of the listing record whatever it shows: the price is
    the one found or [null], and the currency is ['GBP'] when that price
    is truthy and [null] otherwise, whatever currency the listing gave.
    [name], [description], [measurements], [type], [rating] and
    [reviewCount] are replaced only when the page has them; otherwise the
    listing value stays. *)
Theorem detail_merge_first_revision (req : request) (w : product_fetch) (d : product_page) :
  fetched_page w = Some d →
  let base := default ∅ (baseData req) in
  let final := V1.finalProduct cfg req w in
  let kept (k : string) (found : option value) :=
    final !! k = match found with Some v => Some v | None => base !! k end in
  (final !! "price" = Some (of_opt_num (page_price d))
   ∧ final !! "currency" =
       Some (if truthy (of_opt_num (page_price d)) then VStr "GBP" else VNull)
   ∧ final !! "productId" = Some (of_opt_string (match_product_id (url req)) ||| VNull)
   ∧ final !! "images" = Some (V1.array_or_null (collect_images (page_images d) []))
   ∧ final !! "features" = Some (V1.array_or_null (collect_features (page_features d) []))
   ∧ final !! "availability" =
       Some (VStr (default "Check availability" (first_text (page_availabilities d)))))
  ∧ (kept "name" (VStr <$> first_text (page_names d))
     ∧ kept "description" (VStr <$> V1.first_longer_than 20 (page_descriptions d))
     ∧ kept "measurements" (VStr <$> first_text (page_measurements d))
     ∧ kept "type" (VStr <$> first_text (page_types d))
     ∧ kept "rating" (VNum <$> first_match (page_ratings d))
     ∧ kept "reviewCount" (VNum <$> first_match (page_reviews d)))
  ∧ (final !! "url" = Some (VStr (url req))
     ∧ final !! "category" = Some (category_or_null cfg)
     ∧ final !! "scrapedAt" = Some (VStr (fetched_at w))).
Proof.
  intros Hpage base final kept.
  destruct (extractProductDetails_V1_keys (url req) d)
    as (data & Hdata & Hname & Hdescription & Hmeasurements & Htype & Hrating & Hreviews
        & Hid & Hprice & Hcurrency & Himages & Hfeatures & Havailability).
  assert (∀ k, k ≠ "url" → k ≠ "category" → k ≠ "scrapedAt" →
            final !! k = match data !! k with Some v => Some v | None => base !! k end)
    as Hkey.
  { intros k Hurl Hcategory Hat. unfold final, V1.finalProduct.
    rewrite !lookup_insert_ne by done. rewrite Hpage, Hdata. cbn [V1.spread].
    rewrite lookup_union. fold base. by destruct (data !! k), (base !! k). }
  split; [|split].
  - rewrite !Hkey by done.
    by rewrite Hprice, Hcurrency, Hid, Himages, Hfeatures, Havailability.
  - unfold kept. rewrite !Hkey by done.
    by rewrite Hname, Hdescription, Hmeasurements, Htype, Hrating, Hreviews.
  - unfold final, V1.finalProduct. repeat split.
    + by rewrite 2!lookup_insert_ne, lookup_insert_eq by done.
    + by rewrite lookup_insert_ne, lookup_insert_eq by done.
    + by rewrite lookup_insert_eq.
Qed.

End DetailsV1.

Lemma detail_merge_first_revision_witness :
  let req := detail_request Fixtures.product_url Fixtures.listed_in_euros in
  let w := {| fetched_page := Some Fixtures.price_page;
              fetched_at := "2025-01-01T12:00:00.000Z" |} in
  let final := V1.finalProduct Fixtures.detailed req w in
  final !! "price" = Some (VNum 25%float)
  ∧ final !! "currency" = Some (VStr "GBP")
  ∧ final !! "rating" = Some (VNum 4%float).
Proof.
  intros req w final.
  destruct (detail_merge_first_revision Fixtures.detailed req w Fixtures.price_page eq_refl)
    as ((Hprice & Hcurrency & _) & (_ & _ & _ & _ & Hrating & _) & _).
  split; [exact Hprice|]. split; [exact Hcurrency|exact Hrating].
Defined.

(** ** The image and feature loops of the first revision *)

Lemma push_images_clean (elements : list img) (images : list string) :
  NoDup images → Forall clean_source images →
  NoDup (push_images elements images) ∧ Forall clean_source (push_images elements images).
Proof.
  revert images. induction elements as [|i rest IH]; intros images Hnodup Hclean;
    [done|].
  cbn [push_images]. destruct (detail_src i) as [| | | |s| |]; try by apply IH.
  destruct (truthy (VStr s) && negb (includes "spacer" s)
            && negb (includes "placeholder" s) && negb (bool_decide (s ∈ images)))
    eqn:Hpush; [|by apply IH].
  apply andb_true_iff in Hpush as [[[Hset Hspacer]%andb_true_iff Hplace]%andb_true_iff Hnew].
  apply negb_true_iff in Hspacer, Hplace, Hnew. apply bool_decide_eq_false in Hnew.
  apply IH.
  - apply NoDup_app. split; [done|]. split; [|apply NoDup_singleton].
    intros x Hx ->%list_elem_of_singleton. done.
  - apply Forall_app. split; [done|]. constructor; [|done].
    split; [|done]. intros ->. done.
Qed.

Lemma push_features_clean (texts : list string) (features : list string) :
  NoDup features → Forall (λ text, text ≠ "") features →
  NoDup (push_features texts features)
  ∧ Forall (λ text, text ≠ "") (push_features texts features).
Proof.
  revert features. induction texts as [|text rest IH]; intros features Hnodup Hset;
    [done|].
  cbn [push_features].
  destruct (truthy (VStr text) && negb (bool_decide (text ∈ features))) eqn:Hpush;
    [|by apply IH].
  apply andb_true_iff in Hpush as [Htext Hnew].
  apply negb_true_iff, bool_decide_eq_false in Hnew.
  apply IH.
  - apply NoDup_app. split; [done|]. split; [|apply NoDup_singleton].
    intros x Hx ->%list_elem_of_singleton. done.
  - apply Forall_app. split; [done|]. constructor; [|done]. intros ->. done.
Qed.

(** X21: the [images] that the first revision takes from a product page
    never name the same source twice, and never an empty source, a
    spacer or a placeholder; they all come from one entry of
    [imageSelectors], the first one that gives any.  Its [features] never
    hold the same text twice nor an empty text.  Neither is ever an empty
    array: without any image or feature the record has [null]. *)
Theorem details_images_and_features (selected : list (list img))
    (texts : list (list string)) :
  let images := collect_images selected [] in
  let features := collect_features texts [] in
  (NoDup images ∧ Forall clean_source images
   ∧ (images = []
      ∨ ∃ before elements after,
          selected = before ++ elements :: after
          ∧ Forall (λ e, push_images e [] = []) before
          ∧ images = push_images elements []))
  ∧ (NoDup features ∧ Forall (λ text, text ≠ "") features)
  ∧ V1.array_or_null images ≠ VArr [] ∧ V1.array_or_null features ≠ VArr [].
Proof.
  intros images features.
  assert (NoDup images ∧ Forall clean_source images
          ∧ (images = []
             ∨ ∃ before elements after,
                 selected = before ++ elements :: after
                 ∧ Forall (λ e, push_images e [] = []) before
                 ∧ images = push_images elements [])) as Himages.
  { subst images. induction selected as [|elements rest IH].
    - split; [constructor|]. split; [constructor|by left].
    - cbn [collect_images].
      destruct (push_images_clean elements [] (NoDup_nil_2) (Forall_nil_2 _))
        as [Hnodup Hclean].
      destruct (push_images elements []) as [|s images] eqn:Hpushed; cbn [is_empty].
      + destruct IH as (Hnodup' & Hclean' & Hfrom). split; [done|]. split; [done|].
        destruct Hfrom as [->|(before & e & after & -> & Hbefore & Hfrom)]; [by left|].
        right. exists (elements :: before), e, after. split; [done|].
        split; [by constructor|done].
      + split; [done|]. split; [done|]. right.
        exists [], elements, rest. by repeat split. }
  assert (NoDup features ∧ Forall (λ text, text ≠ "") features) as Hfeatures.
  { subst features. induction texts as [|selection rest IH].
    - split; constructor.
    - cbn [collect_features].
      destruct (push_features_clean selection [] (NoDup_nil_2) (Forall_nil_2 _))
        as [Hnodup Hset].
      by destruct (push_features selection []). }
  split; [done|]. split; [done|].
  split; unfold V1.array_or_null; [by destruct images|by destruct features].
Qed.

(** ** A run of the first revision *)

(** The product loop of a revision: [step] is its equation on a
    non-empty list. *)
Ltac product_loop step :=
  let found := fresh "found" in
  let st := fresh "st" in
  let IH := fresh "IH" in
  let product := fresh "product" in
  let rest := fresh "rest" in
  let Hfull := fresh "Hfull" in
  let Hroom := fresh "Hroom" in
  let Hdetail := fresh "Hdetail" in
  let u := fresh "u" in
  intros found st; revert st; induction found as [|product rest IH]; intros st;
  [ apply holds_ret; exists [], []; split; [by apply effect_refl|]; by repeat split |];
  rewrite step; apply holds_bind, holds_read;
  match goal with
  | |- context [?ceiling <=? saved st] =>
      destruct (Z.leb_spec ceiling (saved st)) as [Hfull|Hroom]
  end;
  [ apply holds_ret; exists [], []; split; [by apply effect_refl|];
    repeat split; try done; apply sublist_nil_l |];
  apply holds_bind;
  destruct (collectDetails _ && truthy (field product "url")) eqn:Hdetail;
  [ destruct (field product "url") as [| | | |u| |];
      try (apply holds_throw; exists [], []; split; [by apply effect_refl|];
           repeat split; try done; apply sublist_nil_l);
    apply holds_enqueue;
    eapply holds_weaken; [apply IH|];
    intros _ ? (kept & queued & Heffect & Hsub & Hdetails & Hbasic & Hseen & Hlog);
    exists kept, (detail_request u product :: queued); split; [|repeat split];
    [ apply (effect_trans _ _ _ _ [] _ [_] _ (effect_enqueue _ _ _ Hroom) Heffect)
    | by apply sublist_cons
    | by constructor
    | intros Hmode; by rewrite Hmode in Hdetail
    | done
    | done ]
  | apply holds_bind, holds_pushData, holds_incr_saved;
    eapply holds_weaken; [apply IH|];
    intros _ ? (kept & queued & Heffect & Hsub & Hdetails & Hbasic & Hseen & Hlog);
    exists (product :: kept), queued; split; [|repeat split; try done];
    [ apply (effect_trans _ _ _ _ [_] _ [] _ (effect_save _ _ _ Hroom) Heffect)
    | by apply sublist_skip ] ].

Section FirstRevision.
Context `{Platform} (cfg : input).

Lemma save_products_V1_spec :
  ∀ (found : list (gmap string value)) (st : RunState),
  holds (V1.save_products cfg found) st (λ _ st',
    ∃ kept queued,
      effect (V1.MAX_PRODUCTS cfg) st st' (with_category cfg kept) queued
      ∧ kept `sublist_of` found
      ∧ Forall (λ q, lbl q = DETAIL) queued
      ∧ (collectDetails cfg = false → queued = [])
      ∧ seenProducts st' = seenProducts st ∧ log st' = log st).
Proof. product_loop (save_products_V1_cons cfg). Qed.

(** The LIST branch of the first revision in terms of what it persists
    and enqueues. *)
Lemma requestHandler_LIST_V1_spec (req : request) (w : list_fetch) (st : RunState) :
  holds (V1.requestHandler_LIST cfg req w) st (λ _ st',
    ∃ persisted queued,
      effect (V1.MAX_PRODUCTS cfg) st st' persisted queued
      ∧ fresh (seenProducts st) (seenProducts st') persisted
      ∧ Forall (λ q, match lbl q with
                     | DETAIL => collectDetails cfg = true
                     | LIST => next_link_followed cfg req w st' q
                     end) queued).
Proof.
  unfold V1.requestHandler_LIST.
  apply holds_bind_eq. intros o st1 Hfound.
  destruct (holds_run _ _ _ _ _ (productsFound_V1_spec cfg (page_number req) w st) Hfound)
    as (entries & _ & Hlog & Hfresh).
  pose proof (logged_effect (V1.MAX_PRODUCTS cfg) _ _ _ Hlog) as Heffect.
  destruct o as [found|].
  2:{ exists [], []. split; [done|]. split; [|done]. apply fresh_nil, Hlog. }
  apply holds_bind.
  eapply holds_weaken; [apply save_products_V1_spec|].
  intros o st2 (kept & queued & Hsave & Hsub & Hdetails & Hbasic & Hseen & _).
  pose proof (effect_trans _ _ _ _ _ _ _ _ Heffect Hsave) as Hboth.
  assert (fresh (seenProducts st) (seenProducts st2) (with_category cfg kept)) as Hkept.
  { rewrite Hseen. by apply fresh_with_category, (fresh_sublist _ _ _ found). }
  assert (∀ st3, Forall (λ q, match lbl q with
                              | DETAIL => collectDetails cfg = true
                              | LIST => next_link_followed cfg req w st3 q
                              end) queued) as Hqueued.
  { intros st3. destruct (collectDetails cfg) eqn:Hmode.
    - eapply Forall_impl; [exact Hdetails|]. by intros q ->.
    - rewrite (Hbasic eq_refl). constructor. }
  assert (∀ st3, st3 = st2 →
            ∃ persisted queued',
              effect (V1.MAX_PRODUCTS cfg) st st3 persisted queued'
              ∧ fresh (seenProducts st) (seenProducts st3) persisted
              ∧ Forall (λ q, match lbl q with
                             | DETAIL => collectDetails cfg = true
                             | LIST => next_link_followed cfg req w st3 q
                             end) queued') as Hstay.
  { intros st3 ->. by exists (with_category cfg kept), queued. }
  destruct o as [[]|]; [|by apply Hstay].
  apply holds_bind, holds_read.
  destruct ((saved st2 <? V1.MAX_PRODUCTS cfg) && (page_number req <? V1.MAX_PAGES cfg)
            && negb (is_empty found)) eqn:Hcond; [|by apply holds_ret, Hstay].
  apply andb_true_iff in Hcond as [[Hroom%Z.ltb_lt Hpages%Z.ltb_lt]%andb_true_iff Hany].
  destruct (page w) as [doc|] eqn:Hpage; [|by apply holds_throw, Hstay].
  unfold V1.findNextPage.
  destruct (V1.next_link (next_candidates doc)) as [h|] eqn:Hlink;
    [|by apply holds_ret, Hstay].
  destruct (url_href h (url req)) as [nextUrl|] eqn:Hnext; [|by apply holds_ret, Hstay].
  destruct (truthy (VStr nextUrl)); [|by apply holds_ret, Hstay].
  apply holds_enqueue.
  exists (with_category cfg kept ++ []),
    (queued ++ [list_request nextUrl (page_number req + 1)]).
  split; [|split].
  - apply (effect_trans _ _ _ _ _ _ _ _ Hboth). apply effect_enqueue, Hroom.
  - by rewrite app_nil_r.
  - apply Forall_app. split; [apply Hqueued|].
    constructor; [|constructor]. simpl. repeat split; try done. by exists doc, h.
Qed.

Lemma requestHandler_DETAIL_V1_spec (req : request) (w : product_fetch) (st : RunState) :
  holds (V1.requestHandler_DETAIL cfg req w) st (λ _ st',
    ∃ persisted, effect (V1.MAX_PRODUCTS cfg) st st' persisted []
                 ∧ seenProducts st' = seenProducts st).
Proof.
  unfold V1.requestHandler_DETAIL.
  apply holds_bind, holds_read.
  destruct (Z.leb_spec (V1.MAX_PRODUCTS cfg) (saved st)) as [Hfull|Hroom].
  - apply holds_ret. exists []. split; [by apply effect_refl|done].
  - apply holds_bind, holds_pushData, holds_incr_saved.
    eexists. split; [by apply effect_save|done].
Qed.

(** What one event of a run of the first revision does. *)
Lemma exec_event_V1_spec (ev : V1.event) (st st' : RunState) :
  V1.exec_event cfg ev st = Some st' →
  ∃ persisted queued,
    effect (V1.MAX_PRODUCTS cfg) st st' persisted queued
    ∧ Forall (λ q, lbl q = LIST →
                   ∃ req, (pageNo req = 1 ∨ (req ∈ requests st ∧ lbl req = LIST))
                          ∧ pageNo q = page_number req + 1
                          ∧ page_number req < V1.MAX_PAGES cfg) queued
    ∧ (collectDetails cfg = false → Forall (λ q, lbl q = LIST) (requests st) →
       fresh (seenProducts st) (seenProducts st') persisted
       ∧ Forall (λ q, lbl q = LIST) queued).
Proof.
  assert (∀ req w,
            (pageNo req = 1 ∨ (req ∈ requests st ∧ lbl req = LIST)) →
            st' = after (V1.requestHandler_LIST cfg req w) st →
            ∃ persisted queued,
              effect (V1.MAX_PRODUCTS cfg) st st' persisted queued
              ∧ Forall (λ q, lbl q = LIST →
                             ∃ req, (pageNo req = 1 ∨ (req ∈ requests st ∧ lbl req = LIST))
                                    ∧ pageNo q = page_number req + 1
                                    ∧ page_number req < V1.MAX_PAGES cfg) queued
              ∧ (collectDetails cfg = false → Forall (λ q, lbl q = LIST) (requests st) →
                 fresh (seenProducts st) (seenProducts st') persisted
                 ∧ Forall (λ q, lbl q = LIST) queued)) as Hlist.
  { intros req w Hreq ->.
    destruct (requestHandler_LIST_V1_spec req w st)
      as (persisted & queued & Heffect & Hfresh & Hqueued).
    exists persisted, queued. split; [done|]. split.
    - eapply Forall_impl; [exact Hqueued|]. intros q Hq Hlbl. cbn beta in Hq.
      rewrite Hlbl in Hq. destruct Hq as (_ & Hpages & Hnext & _). by exists req.
    - intros Hmode _. split; [done|].
      eapply Forall_impl; [exact Hqueued|]. intros q. cbn beta.
      destruct (lbl q); [done|congruence]. }
  destruct ev as [i w|i wl wd|i]; simpl.
  - destruct (V1.initial cfg !! i) as [u|] eqn:Hu; simpl; [|done]. intros [= <-].
    by apply (Hlist (list_request u 1) w); [left|].
  - destruct (requests st !! i) as [q|] eqn:Hq; simpl; [|done]. intros [= <-].
    apply list_elem_of_lookup_2 in Hq.
    destruct (lbl q) eqn:Hlbl.
    + apply (Hlist q wl); [by right|]. unfold V1.requestHandler. by rewrite Hlbl.
    + assert (after (V1.requestHandler cfg q wl wd) st
              = after (V1.requestHandler_DETAIL cfg q wd) st) as ->.
      { unfold V1.requestHandler. by rewrite Hlbl. }
      destruct (requestHandler_DETAIL_V1_spec q wd st) as (persisted & Heffect & _).
      exists persisted, []. split; [done|]. split; [constructor|].
      intros _ Hall. rewrite Forall_forall in Hall. specialize (Hall q Hq). congruence.
  - destruct (requests st !! i) as [q|] eqn:Hq; simpl; [|done]. intros [= <-].
    exists [], []. split; [by apply effect_refl|]. split; [constructor|].
    intros _ _. split; [by apply fresh_nil|constructor].
Qed.

Lemma run_V1_invariant (P : RunState → Prop) :
  (∀ ev st st', P st → V1.exec_event cfg ev st = Some st' → P st') →
  ∀ events st st', P st → V1.run cfg events st = Some st' → P st'.
Proof.
  intros Hstep events. induction events as [|ev rest IH]; intros st st' HP; simpl.
  - by intros [= <-].
  - destruct (V1.exec_event cfg ev st) as [st1|] eqn:Hev; simpl; [|done].
    apply IH. by eapply Hstep.
Qed.

(** X22: in a run of the first revision in which the handlers follow one
    another, [saved] counts the persisted records and never exceeds the
    product ceiling, and every request for a listing page carries a page
    number between 2 and the page ceiling; with a [maxProducts] of 0 at
    most one record is persisted.  In basic mode the persisted records
    carry pairwise distinct ids, all of them in the seen-set. *)
Theorem first_revision_budgets (events : list V1.event) (st : RunState) :
  V1.run cfg events initial_state = Some st →
  budgets_kept (V1.MAX_PRODUCTS cfg) (V1.MAX_PAGES cfg) st
  ∧ (maxProducts cfg = Some 0 → (length (dataset st) ≤ 1)%nat)
  ∧ (collectDetails cfg = false →
     ∃ ids, has_ids (dataset st) ids ∧ NoDup ids ∧ ∀ id, id ∈ ids → id ∈ seenProducts st).
Proof.
  intros Hrun.
  assert (budgets_kept (V1.MAX_PRODUCTS cfg) (V1.MAX_PAGES cfg) st) as Hbudget.
  { revert Hrun. apply run_V1_invariant.
    - intros ev st1 st2 (Hcount & Hbound & Hpages) Hev.
      destruct (exec_event_V1_spec ev st1 st2 Hev)
        as (persisted & queued & (Hdata & Hreq & Hsaved & Hmax & _) & Hqueued & _).
      split; [|split].
      + rewrite Hsaved, Hdata, length_app. lia.
      + lia.
      + rewrite Hreq. apply Forall_app. split; [done|].
        eapply Forall_impl; [exact Hqueued|]. intros q Hq Hlist.
        destruct (Hq Hlist) as (req & Hreq' & -> & Hbelow).
        split; [|lia]. unfold page_number.
        destruct Hreq' as [->|[Hin Hlbl]]; [done|].
        rewrite Forall_forall in Hpages. specialize (Hpages req Hin Hlbl).
        destruct (Z.eqb_spec (pageNo req) 0); lia.
    - split; [done|]. split; [|constructor].
      simpl. unfold V1.MAX_PRODUCTS, MAX_SAFE_INTEGER.
      destruct (maxProducts cfg); lia. }
  split; [done|]. split.
  - intros Hzero. destruct Hbudget as (Hcount & Hbound & _).
    unfold V1.MAX_PRODUCTS in Hbound. rewrite Hzero in Hbound. lia.
  - intros Hmode.
    assert (ledger_kept st) as [[_ (ids & Hids & Hnodup & Hseen)] _].
    { revert Hrun. apply run_V1_invariant; [|apply ledger_kept_initial].
      intros ev st1 st2 [Hfresh Hlist] Hev.
      destruct (exec_event_V1_spec ev st1 st2 Hev)
        as (persisted & queued & (Hdata & Hreq & _) & _ & Hbasic).
      destruct (Hbasic Hmode Hlist) as [Hnew Hqueued]. split.
      - rewrite Hdata. by eapply fresh_app.
      - rewrite Hreq. by apply Forall_app. }
    exists ids. split; [done|]. split; [done|]. intros id Hin. by apply Hseen.
Qed.

(** X23: the LIST branch of the first revision asks for a next listing
    page only when [saved] is below the product ceiling, the page number
    is below the page ceiling, and the page has a link to a next page with
    an [href], which it resolves against the URL of the page; the request
    carries the next page number.  Without such a link the pagination
    ends: this revision never makes up the URL of a next page. *)
Theorem first_revision_next_page (req : request) (w : list_fetch) (st : RunState)
    (q : request) :
  let st' := after (V1.requestHandler_LIST cfg req w) st in
  q ∈ enqueued st st' → lbl q = LIST →
  saved st' < V1.MAX_PRODUCTS cfg
  ∧ page_number req < V1.MAX_PAGES cfg
  ∧ pageNo q = page_number req + 1
  ∧ ∃ doc h, page w = Some doc
             ∧ V1.next_link (next_candidates doc) = Some h
             ∧ url_href h (url req) = Some (url q).
Proof.
  intros st' Hq Hlist.
  destruct (requestHandler_LIST_V1_spec req w st)
    as (persisted & queued & Heffect & _ & Hqueued).
  fold (after (V1.requestHandler_LIST cfg req w) st) in Heffect, Hqueued.
  fold st' in Heffect, Hqueued.
  destruct Heffect as (_ & Hrequests & _).
  unfold enqueued in Hq. rewrite Hrequests, drop_app_length in Hq.
  rewrite Forall_forall in Hqueued. specialize (Hqueued q Hq).
  by rewrite Hlist in Hqueued.
Qed.

End FirstRevision.

Lemma first_revision_budgets_witness :
  let events := [V1.Start 0 Fixtures.api_page; V1.Start 0 Fixtures.api_page] in
  let st := default initial_state (V1.run Fixtures.basic events initial_state) in
  V1.run Fixtures.basic events initial_state = Some st
  ∧ saved st = 1 ∧ saved st ≤ V1.MAX_PRODUCTS Fixtures.basic.
Proof.
  intros events st.
  assert (V1.run Fixtures.basic events initial_state = Some st) as Hrun
    by (vm_compute; reflexivity).
  split; [exact Hrun|].
  destruct (first_revision_budgets Fixtures.basic events st Hrun)
    as ((_ & Hbound & _) & _).
  split; [vm_compute; reflexivity|exact Hbound].
Defined.

Lemma first_revision_next_page_witness :
  let req := list_request Fixtures.chairs_url 1 in
  let q := list_request "https://www.ikea.com/gb/en/cat/chairs/?page=2" 2 in
  let st' := after (V1.requestHandler_LIST Fixtures.basic req Fixtures.linked_page)
               initial_state in
  (q ∈ enqueued initial_state st' ∧ lbl q = LIST)
  ∧ saved st' < V1.MAX_PRODUCTS Fixtures.basic
  ∧ pageNo q = page_number req + 1.
Proof.
  intros req q st'.
  assert (q ∈ enqueued initial_state st') as Hq by (vm_compute; apply list_elem_of_here).
  split; [by split|].
  destruct (first_revision_next_page Fixtures.basic req Fixtures.linked_page
              initial_state q Hq eq_refl) as (Hsaved & _ & Hnext & _).
  by split.
Defined.

(** ** The third revision *)

Section ThirdRevision.
Context `{Platform} (cfg : input).

Lemma extract_card_V3_claims (c : card) (seen : gset string) :
  let '(r, seen') := V3.extract_card cfg c seen in
  claims seen seen' r.
Proof.
  unfold V3.extract_card, claims.
  destruct (card_url cfg c) as [[a u]|]; [|done].
  destruct (match_product_id u) as [id|]; [|done].
  destruct (claim _ _) as [[] seen1] eqn:Hclaim.
  - apply claim_true in Hclaim as [Hnew ->].
    split; [set_solver|].
    destruct (truthy _ && truthy _); [|done].
    eexists. split; [reflexivity|]. set_solver.
  - apply claim_false in Hclaim as [_ ->]. done.
Qed.

Lemma extract_cards_V3_fresh (cards : list card) (seen : gset string) :
  fresh seen (V3.extract_cards cfg cards seen).2 (V3.extract_cards cfg cards seen).1.
Proof.
  revert seen. induction cards as [|c rest IH]; intros seen; simpl.
  - by apply fresh_nil.
  - pose proof (extract_card_V3_claims c seen) as Hc.
    destruct (V3.extract_card cfg c seen) as [r seen1].
    specialize (IH seen1).
    destruct (V3.extract_cards cfg rest seen1) as [l seen2]. simpl in *.
    by eapply fresh_step.
Qed.

Lemma extractProductsFromHtml_V3_spec (doc : document) (st : RunState) :
  holds (V3.extractProductsFromHtml cfg doc) st (λ o st',
    ∃ found, o = Done found ∧ logged [DomExtraction] st st'
             ∧ fresh (seenProducts st) (seenProducts st') found).
Proof.
  unfold V3.extractProductsFromHtml.
  apply holds_bind, holds_write_log. unfold holds, with_seen.
  pose proof (extract_cards_V3_fresh (productElements (selections doc))
                (seenProducts st)) as Hfresh.
  destruct (V3.extract_cards _ _ _) as [found seen']. simpl in *.
  exists found. split; [done|]. split; [|exact Hfresh].
  repeat split; try done. apply Hfresh.
Qed.

Lemma jsonld_stage_V3_spec (w : list_fetch) (st : RunState) :
  holds (V3.jsonld_stage cfg w) st (found_after [EmbeddedAttempt] st).
Proof.
  unfold V3.jsonld_stage, V3.tryEmbeddedJson.
  apply holds_bind, holds_bind, holds_write_log, holds_ret.
  pose proof (logged_add_log EmbeddedAttempt st) as Hlog.
  destruct (embedded w ≫= _) as [[|p ps]|].
  - split; [done|]. by apply fresh_nil.
  - eapply holds_weaken;
      [apply (map_products_spec _ _ (processApiProduct_st_claims cfg))|].
    intros o st' [Hsilent Ho]. apply logged_nil in Hsilent. split.
    + by apply (logged_trans _ _ _ _ _ Hlog Hsilent).
    + destruct o as [l|]; [|done]. by destruct Ho as (new & -> & Hfresh & _).
  - split; [done|]. by apply fresh_nil.
Qed.

Lemma productsFound_V3_spec (w : list_fetch) (st : RunState) :
  holds (V3.productsFound cfg w) st
    (found_after_one_of [[EmbeddedAttempt]; [EmbeddedAttempt; DomExtraction]] st).
Proof.
  unfold V3.productsFound. apply holds_bind.
  eapply holds_weaken; [apply jsonld_stage_V3_spec|].
  intros [found|] st1 Hstage.
  - destruct found as [|r found]; simpl.
    + destruct (page w) as [doc|].
      * eapply holds_weaken; [apply extractProductsFromHtml_V3_spec|].
        intros o st2 (found & -> & Hlog & Hfresh).
        exists [EmbeddedAttempt; DomExtraction]. split; [set_solver|].
        by apply (found_after_trans [EmbeddedAttempt] [DomExtraction] _ st1);
          [apply Hstage|].
      * exists [EmbeddedAttempt]. split; [set_solver|done].
    + exists [EmbeddedAttempt]. split; [set_solver|done].
  - exists [EmbeddedAttempt]. split; [set_solver|done].
Qed.

Lemma requestHandler_LIST_V3_spec (req : request) (w : list_fetch) (st : RunState) :
  holds (V3.requestHandler_LIST cfg req w) st (λ _ st',
    ∃ persisted queued,
      effect (V1.MAX_PRODUCTS cfg) st st' persisted queued
      ∧ fresh (seenProducts st) (seenProducts st') persisted
      ∧ Forall (λ q, match lbl q with
                     | DETAIL => collectDetails cfg = true
                     | LIST => next_link_followed cfg req w st' q
                     end) queued).
Proof.
  unfold V3.requestHandler_LIST, V3.MAX_PRODUCTS, V3.MAX_PAGES.
  apply holds_bind_eq. intros o st1 Hfound.
  destruct (holds_run _ _ _ _ _ (productsFound_V3_spec w st) Hfound)
    as (entries & _ & Hlog & Hfresh).
  pose proof (logged_effect (V1.MAX_PRODUCTS cfg) _ _ _ Hlog) as Heffect.
  destruct o as [found|].
  2:{ exists [], []. split; [done|]. split; [|done]. apply fresh_nil, Hlog. }
  apply holds_bind.
  eapply holds_weaken; [apply save_products_V1_spec|].
  intros o st2 (kept & queued & Hsave & Hsub & Hdetails & Hbasic & Hseen & _).
  pose proof (effect_trans _ _ _ _ _ _ _ _ Heffect Hsave) as Hboth.
  assert (fresh (seenProducts st) (seenProducts st2) (with_category cfg kept)) as Hkept.
  { rewrite Hseen. by apply fresh_with_category, (fresh_sublist _ _ _ found). }
  assert (∀ st3, Forall (λ q, match lbl q with
                              | DETAIL => collectDetails cfg = true
                              | LIST => next_link_followed cfg req w st3 q
                              end) queued) as Hqueued.
  { intros st3. destruct (collectDetails cfg) eqn:Hmode.
    - eapply Forall_impl; [exact Hdetails|]. by intros q ->.
    - rewrite (Hbasic eq_refl). constructor. }
  assert (∀ st3, st3 = st2 →
            ∃ persisted queued',
              effect (V1.MAX_PRODUCTS cfg) st st3 persisted queued'
              ∧ fresh (seenProducts st) (seenProducts st3) persisted
              ∧ Forall (λ q, match lbl q with
                             | DETAIL => collectDetails cfg = true
                             | LIST => next_link_followed cfg req w st3 q
                             end) queued') as Hstay.
  { intros st3 ->. by exists (with_category cfg kept), queued. }
  destruct o as [[]|]; [|by apply Hstay].
  apply holds_bind, holds_read.
  destruct ((saved st2 <? V1.MAX_PRODUCTS cfg) && (page_number req <? V1.MAX_PAGES cfg)
            && negb (is_empty found)) eqn:Hcond; [|by apply holds_ret, Hstay].
  apply andb_true_iff in Hcond as [[Hroom%Z.ltb_lt Hpages%Z.ltb_lt]%andb_true_iff Hany].
  destruct (page w) as [doc|] eqn:Hpage; [|by apply holds_throw, Hstay].
  unfold V1.findNextPage.
  destruct (V1.next_link (next_candidates doc)) as [h|] eqn:Hlink;
    [|by apply holds_ret, Hstay].
  destruct (url_href h (url req)) as [nextUrl|] eqn:Hnext; [|by apply holds_ret, Hstay].
  destruct (truthy (VStr nextUrl)); [|by apply holds_ret, Hstay].
  apply holds_enqueue.
  exists (with_category cfg kept ++ []),
    (queued ++ [list_request nextUrl (page_number req + 1)]).
  split; [|split].
  - apply (effect_trans _ _ _ _ _ _ _ _ Hboth). apply effect_enqueue, Hroom.
  - by rewrite app_nil_r.
  - apply Forall_app. split; [apply Hqueued|].
    constructor; [|constructor]. simpl. repeat split; try done. by exists doc, h.
Qed.

Lemma requestHandler_DETAIL_V3_spec (req : request) (w : detail_fetch) (st : RunState) :
  holds (V3.requestHandler_DETAIL cfg req w) st (λ _ st',
    ∃ persisted, effect (V1.MAX_PRODUCTS cfg) st st' persisted []
                 ∧ seenProducts st' = seenProducts st).
Proof.
  unfold V3.requestHandler_DETAIL, V3.MAX_PRODUCTS.
  apply holds_bind, holds_read.
  destruct (Z.leb_spec (V1.MAX_PRODUCTS cfg) (saved st)) as [Hfull|Hroom].
  - apply holds_ret. exists []. split; [by apply effect_refl|done].
  - apply holds_bind, holds_pushData, holds_incr_saved.
    eexists. split; [by apply effect_save|done].
Qed.

Lemma exec_event_V3_spec (ev : V3.event) (st st' : RunState) :
  V3.exec_event cfg ev st = Some st' →
  ∃ persisted queued,
    effect (V1.MAX_PRODUCTS cfg) st st' persisted queued
    ∧ Forall (λ q, lbl q = LIST →
                   ∃ req, (pageNo req = 1 ∨ (req ∈ requests st ∧ lbl req = LIST))
                          ∧ pageNo q = page_number req + 1
                          ∧ page_number req < V1.MAX_PAGES cfg) queued
    ∧ (collectDetails cfg = false → Forall (λ q, lbl q = LIST) (requests st) →
       fresh (seenProducts st) (seenProducts st') persisted
       ∧ Forall (λ q, lbl q = LIST) queued).
Proof.
  assert (∀ req w,
            (pageNo req = 1 ∨ (req ∈ requests st ∧ lbl req = LIST)) →
            st' = after (V3.requestHandler_LIST cfg req w) st →
            ∃ persisted queued,
              effect (V1.MAX_PRODUCTS cfg) st st' persisted queued
              ∧ Forall (λ q, lbl q = LIST →
                             ∃ req, (pageNo req = 1 ∨ (req ∈ requests st ∧ lbl req = LIST))
                                    ∧ pageNo q = page_number req + 1
                                    ∧ page_number req < V1.MAX_PAGES cfg) queued
              ∧ (collectDetails cfg = false → Forall (λ q, lbl q = LIST) (requests st) →
                 fresh (seenProducts st) (seenProducts st') persisted
                 ∧ Forall (λ q, lbl q = LIST) queued)) as Hlist.
  { intros req w Hreq ->.
    destruct (requestHandler_LIST_V3_spec req w st)
      as (persisted & queued & Heffect & Hfresh & Hqueued).
    exists persisted, queued. split; [done|]. split.
    - eapply Forall_impl; [exact Hqueued|]. intros q Hq Hlbl. cbn beta in Hq.
      rewrite Hlbl in Hq. destruct Hq as (_ & Hpages & Hnext & _). by exists req.
    - intros Hmode _. split; [done|].
      eapply Forall_impl; [exact Hqueued|]. intros q. cbn beta.
      destruct (lbl q); [done|congruence]. }
  destruct ev as [i w|i wl wd|i]; simpl.
  - destruct (V1.initial cfg !! i) as [u|] eqn:Hu; simpl; [|done]. intros [= <-].
    by apply (Hlist (list_request u 1) w); [left|].
  - destruct (requests st !! i) as [q|] eqn:Hq; simpl; [|done]. intros [= <-].
    apply list_elem_of_lookup_2 in Hq.
    destruct (lbl q) eqn:Hlbl.
    + apply (Hlist q wl); [by right|]. unfold V3.requestHandler. by rewrite Hlbl.
    + assert (after (V3.requestHandler cfg q wl wd) st
              = after (V3.requestHandler_DETAIL cfg q wd) st) as ->.
      { unfold V3.requestHandler. by rewrite Hlbl. }
      destruct (requestHandler_DETAIL_V3_spec q wd st) as (persisted & Heffect & _).
      exists persisted, []. split; [done|]. split; [constructor|].
      intros _ Hall. rewrite Forall_forall in Hall. specialize (Hall q Hq). congruence.
  - destruct (requests st !! i) as [q|] eqn:Hq; simpl; [|done]. intros [= <-].
    exists [], []. split; [by apply effect_refl|]. split; [constructor|].
    intros _ _. split; [by apply fresh_nil|constructor].
Qed.

Lemma lookup_set_if_found_V2_ne (k k' : string) (o : option string)
    (data : gmap string value) :
  k ≠ k' → V2.set_if_found k o data !! k' = data !! k'.
Proof. intros Hk. destruct o; [by apply lookup_insert_ne|done]. Qed.

Lemma run_V3_invariant (P : RunState → Prop) :
  (∀ ev st st', P st → V3.exec_event cfg ev st = Some st' → P st') →
  ∀ events st st', P st → V3.run cfg events st = Some st' → P st'.
Proof.
  intros Hstep events. induction events as [|ev rest IH]; intros st st' HP; simpl.
  - by intros [= <-].
  - destruct (V3.exec_event cfg ev st) as [st1|] eqn:Hev; simpl; [|done].
    apply IH. by eapply Hstep.
Qed.

(** X24: in the third revision price and currency go together wherever
    the revision reads them from a page.  A record that its DOM extractor
    emits has a truthy name, a truthy price and the currency ['GBP']; the
    object that [extractProductDetails] builds has the currency ['GBP']
    when its price is truthy and [null] otherwise, and so has every
    record merged from a product page that could be parsed. *)
Theorem third_revision_price_currency :
  (∀ (c : card) (seen seen' : gset string) (r : gmap string value),
     V3.extract_card cfg c seen = (Some r, seen') →
     truthy (field r "name") = true ∧ truthy (field r "price") = true
     ∧ field r "currency" = VStr "GBP")
  ∧ (∀ (req : request) (w : detail_fetch) (d : detail_doc),
       detail_page w = Some d →
       field (V3.finalProduct cfg req w) "price" = of_opt_num (detail_price d)
       ∧ field (V3.finalProduct cfg req w) "currency"
         = if truthy (of_opt_num (detail_price d)) then VStr "GBP" else VNull).
Proof.
  split.
  - intros c seen seen' r. unfold V3.extract_card. intros Hcard.
    destruct (card_url cfg c) as [[a u]|]; [|done].
    destruct (match_product_id u) as [id|]; [|done].
    destruct (claim _ _) as [[] seen1]; [|done].
    destruct (truthy (card_name c a)) eqn:Hname; [|done]. simpl in Hcard.
    destruct (truthy (of_opt_num (card_price c))) eqn:Hprice; [|done].
    injection Hcard as <- <-. split; [exact Hname|]. split; [exact Hprice|].
    reflexivity.
  - intros req w d Hpage. unfold field, V3.finalProduct.
    rewrite !lookup_insert_ne by done. rewrite Hpage.
    unfold V3.extractProductDetails, V2.spread. cbn zeta.
    rewrite !lookup_union.
    assert (∀ data : gmap string value,
              field (<["price" := of_opt_num (detail_price d)]> data) "price"
              = of_opt_num (detail_price d)) as Hprice.
    { intros data. unfold field. by rewrite lookup_insert_eq. }
    rewrite Hprice.
    repeat first
      [ rewrite lookup_insert_eq
      | rewrite lookup_insert_ne by done
      | rewrite lookup_set_if_found_V2_ne by done ].
    by destruct (default ∅ (baseData req) !! "price"),
      (default ∅ (baseData req) !! "currency").
Qed.

(** X25: in a run of the third revision in which the handlers follow
    one another, [saved] counts the persisted records and never exceeds
    the product ceiling, and every request for a listing page carries a
    page number between 2 and the page ceiling.  In basic mode the
    persisted records carry pairwise distinct ids, all of them in the
    seen-set. *)
Theorem third_revision_budgets (events : list V3.event) (st : RunState) :
  V3.run cfg events initial_state = Some st →
  budgets_kept (V3.MAX_PRODUCTS cfg) (V3.MAX_PAGES cfg) st
  ∧ (collectDetails cfg = false →
     ∃ ids, has_ids (dataset st) ids ∧ NoDup ids ∧ ∀ id, id ∈ ids → id ∈ seenProducts st).
Proof.
  intros Hrun. unfold V3.MAX_PRODUCTS, V3.MAX_PAGES. split.
  - revert Hrun. apply run_V3_invariant.
    + intros ev st1 st2 (Hcount & Hbound & Hpages) Hev.
      destruct (exec_event_V3_spec ev st1 st2 Hev)
        as (persisted & queued & (Hdata & Hreq & Hsaved & Hmax & _) & Hqueued & _).
      split; [|split].
      * rewrite Hsaved, Hdata, length_app. lia.
      * lia.
      * rewrite Hreq. apply Forall_app. split; [done|].
        eapply Forall_impl; [exact Hqueued|]. intros q Hq Hlist.
        destruct (Hq Hlist) as (req & Hreq' & -> & Hbelow).
        split; [|lia]. unfold page_number.
        destruct Hreq' as [->|[Hin Hlbl]]; [done|].
        rewrite Forall_forall in Hpages. specialize (Hpages req Hin Hlbl).
        destruct (Z.eqb_spec (pageNo req) 0); lia.
    + split; [done|]. split; [|constructor].
      simpl. unfold V1.MAX_PRODUCTS, MAX_SAFE_INTEGER.
      destruct (maxProducts cfg); lia.
  - intros Hmode.
    assert (ledger_kept st) as [[_ (ids & Hids & Hnodup & Hseen)] _].
    { revert Hrun. apply run_V3_invariant; [|apply ledger_kept_initial].
      intros ev st1 st2 [Hfresh Hlist] Hev.
      destruct (exec_event_V3_spec ev st1 st2 Hev)
        as (persisted & queued & (Hdata & Hreq & _) & _ & Hbasic).
      destruct (Hbasic Hmode Hlist) as [Hnew Hqueued]. split.
      - rewrite Hdata. by eapply fresh_app.
      - rewrite Hreq. by apply Forall_app. }
    exists ids. split; [done|]. split; [done|]. intros id Hin. by apply Hseen.
Qed.

Lemma extract_card_V3_skips (c : card) (seen : gset string) (a : anchor) (u id : string) :
  card_url cfg c = Some (a, u) → match_product_id u = Some id → id ∈ seen →
  V3.extract_card cfg c seen = (None, seen).
Proof.
  intros Hurl Hid Hseen. unfold V3.extract_card, claim.
  rewrite Hurl, Hid. by rewrite decide_True.
Qed.

Lemma extract_card_V3_reserves (c : card) (seen : gset string) (a : anchor) (u id : string) :
  card_url cfg c = Some (a, u) → match_product_id u = Some id →
  id ∈ (V3.extract_card cfg c seen).2.
Proof.
  intros Hurl Hid. unfold V3.extract_card, claim. rewrite Hurl, Hid.
  destruct (decide (id ∈ seen)); simpl; [done|set_solver].
Qed.

Lemma extract_cards_V3_grows (cards : list card) (seen : gset string) :
  seen ⊆ (V3.extract_cards cfg cards seen).2.
Proof. apply (extract_cards_V3_fresh cards seen). Qed.

(** X26: the DOM extractor of the third revision reserves the id of a
    card before it looks at the card's name and price.  Once a card
    whose link gives an id has been visited, the id is in the seen-set,
    whether the card was emitted or dropped, and every later card with
    that id is skipped without a record and without a change of the
    seen-set. *)
Theorem visited_card_reserves_id (cards : list card) (c : card) (seen : gset string)
    (a : anchor) (u id : string) :
  c ∈ cards → card_url cfg c = Some (a, u) → match_product_id u = Some id →
  let seen' := (V3.extract_cards cfg cards seen).2 in
  id ∈ seen'
  ∧ ∀ (later : card) (a' : anchor) (u' : string) (seen'' : gset string),
      card_url cfg later = Some (a', u') → match_product_id u' = Some id →
      seen' ⊆ seen'' → V3.extract_card cfg later seen'' = (None, seen'').
Proof.
  intros Hin Hurl Hid seen'.
  assert (id ∈ seen') as Hseen.
  { unfold seen'. clear seen'. revert seen.
    induction cards as [|x rest IH]; intros seen; [by apply elem_of_nil in Hin|].
    simpl. pose proof (extract_card_V3_reserves x seen a u id) as Hx.
    pose proof (extract_cards_V3_grows rest (V3.extract_card cfg x seen).2) as Hrest.
    destruct (V3.extract_card cfg x seen) as [r seen1]. simpl in Hx, Hrest.
    apply elem_of_cons in Hin as [<-|Hin].
    - destruct (V3.extract_cards cfg rest seen1) as [l seen2]. simpl in *.
      apply Hrest. by apply Hx.
    - specialize (IH Hin seen1).
      by destruct (V3.extract_cards cfg rest seen1) as [l seen2]. }
  split; [exact Hseen|].
  intros later a' u' seen'' Hurl' Hid' Hsub.
  apply (extract_card_V3_skips later seen'' a' u' id Hurl' Hid'). by apply Hsub.
Qed.

End ThirdRevision.

Lemma visited_card_reserves_id_witness :
  let cards := [Fixtures.unpriced_card; Fixtures.named_card] in
  V3.extract_cards Fixtures.basic cards ∅ = ([], {["123"]} ∪ ∅)
  ∧ "123" ∈ (V3.extract_cards Fixtures.basic cards ∅).2.
Proof.
  intros cards. split; [reflexivity|].
  apply (visited_card_reserves_id Fixtures.basic cards Fixtures.unpriced_card ∅
           {| href := Some "/gb/en/p/chair-white-123/"; aria_name := None |}
           "https://www.ikea.com/gb/en/p/chair-white-123/" "123").
  - apply list_elem_of_here.
  - reflexivity.
  - reflexivity.
Defined.

Lemma third_revision_budgets_witness :
  let events := [V3.Start 0 Fixtures.one_card_page; V3.Start 0 Fixtures.one_card_page] in
  let st := default initial_state (V3.run Fixtures.basic events initial_state) in
  V3.run Fixtures.basic events initial_state = Some st
  ∧ saved st = 1 ∧ saved st ≤ V3.MAX_PRODUCTS Fixtures.basic.
Proof.
  intros events st.
  assert (V3.run Fixtures.basic events initial_state = Some st) as Hrun
    by (vm_compute; reflexivity).
  split; [exact Hrun|].
  destruct (third_revision_budgets Fixtures.basic events st Hrun)
    as ((_ & Hbound & _) & _).
  split; [vm_compute; reflexivity|exact Hbound].
Defined.
